(** * Moonraker web application (app.py): a shallow embedding

    The development follows [moonraker/app.py]:
    - [Py]       : the few Python string and dict operations the handlers use;
    - [Router]   : [MutableRouter], the mutable route table;
    - [Dispatch] : [DynamicRequestHandler], argument parsing;
    - [Files]    : [FileRequestHandler.get], byte ranges;
    - [Upload]   : [FileUploadHandler.post], checksum and hand-off;
    - [App]      : [MoonrakerApp], the registry of API definitions and its
                   fan-out to the transports;
    - [Examples] : concrete requests, files, uploads and an application.

    Python objects with identity (the [Rule]s of the router) carry an
    allocation number; dictionaries whose iteration order is observable are
    association lists, the others are [gmap]s; a Python exception is a value
    of an error type returned in place of the result. *)

From Stdlib Require Import ZArith String Ascii List Lia SpecFloat DecimalString.
From stdpp Require Import base option gmap strings list fin_maps.

Local Open Scope string_scope.
Local Open Scope list_scope.

Set Warnings "-register-all".

(* ===================================================================== *)
(** * Python values, exceptions and string operations *)
(* ===================================================================== *)

Module Py.

(** The exceptions that travel through the handlers.  [ServerError] is
    the server's declared error ([self.server.error]), carrying a message
    and a status code; [HTTPError] is the web framework's. *)
Inductive exn :=
| ServerError (msg : string) (status_code : Z)
| HTTPError (status_code : Z) (log_message : option string)
| JSONDecodeError
| UnicodeDecodeError
| TypeError
| ValueError
| IndexError
| OSError
| Error (name : string).

Inductive result (A : Type) :=
| Ok (a : A)
| Raise (e : exn).
Arguments Ok {A} a.
Arguments Raise {A} e.

Definition bind {A B} (m : result A) (k : A -> result B) : result B :=
  match m with Ok a => k a | Raise e => Raise e end.

(** The values an argument mapping holds ([Any]): what the converters and
    [json.loads] produce.  A [str] is kept as its UTF-8 text, a [dict]
    with [str] keys as an association list in insertion order. *)
Inductive value :=
| VNone
| VBool (b : bool)
| VInt (z : Z)
| VFloat (f : spec_float)
| VStr (s : string)
| VList (l : list value)
| VDict (kvs : list (string * value)).

Definition pydict := list (string * value).

(** [d[k]] read and written on an insertion-ordered dictionary. *)
Fixpoint dict_get (k : string) (d : pydict) : option value :=
  match d with
  | [] => None
  | (k', v) :: d' => if decide (k' = k) then Some v else dict_get k d'
  end.

Fixpoint dict_set (k : string) (v : value) (d : pydict) : pydict :=
  match d with
  | [] => [(k, v)]
  | (k', v') :: d' =>
      if decide (k' = k) then (k, v) :: d' else (k', v') :: dict_set k v d'
  end.

Definition dict_keys (d : pydict) : list string := fst <$> d.

(** [d.update(m)] for a mapping [m]. *)
Definition dict_update (d : pydict) (m : list (string * value)) : pydict :=
  fold_left (fun acc kv => dict_set (fst kv) (snd kv) acc) m d.

(** [s.split(sep)] for a one-character separator. *)
Fixpoint split (sep : ascii) (s : string) : list string :=
  match s with
  | EmptyString => [EmptyString]
  | String c s' =>
      if decide (c = sep) then EmptyString :: split sep s'
      else match split sep s' with
           | h :: t => String c h :: t
           | [] => [String c EmptyString]
           end
  end.

(** [s.rsplit(sep, 1)]: [None] is the one-element list (no separator),
    [Some (a, b)] the two-element list cut at the last separator. *)
Fixpoint rsplit1 (sep : ascii) (s : string) : option (string * string) :=
  match s with
  | EmptyString => None
  | String c s' =>
      match rsplit1 sep s' with
      | Some (a, b) => Some (String c a, b)
      | None => if decide (c = sep) then Some (EmptyString, s') else None
      end
  end.

(** [s.replace(a, b)] for one-character [a] and [b]. *)
Fixpoint replace (a b : ascii) (s : string) : string :=
  match s with
  | EmptyString => EmptyString
  | String c s' => String (if decide (c = a) then b else c) (replace a b s')
  end.

(** [c in s] *)
Fixpoint has_char (c : ascii) (s : string) : bool :=
  match s with
  | EmptyString => false
  | String c' s' => bool_decide (c' = c) || has_char c s'
  end.

Definition join (sep : string) (l : list string) : string :=
  String.concat sep l.

Definition startswith (s pre : string) : bool := String.prefix pre s.

(** [s[1:]] *)
Definition tail (s : string) : string :=
  match s with EmptyString => EmptyString | String _ s' => s' end.

(** [l[:-1]] and [l[-1]] *)
Definition init_of {A} (l : list A) : list A := removelast l.

Definition contains (sub s : string) : Prop :=
  exists pre post, s = pre +:+ sub +:+ post.

(** Decimal rendering of an integer, as [%s] and f-strings print it. *)
Definition str_of_Z (z : Z) : string :=
  NilZero.string_of_int (Z.to_int z).

(** Well-formed UTF-8, the condition under which [bytes.decode()]
    returns; the text is kept in its encoded form.  [n] is the number of
    continuation bytes still expected, [lo] and [hi] bound the next one. *)
Fixpoint utf8_from (n : nat) (lo hi : N) (s : string) : bool :=
  match s with
  | EmptyString => match n with O => true | S _ => false end
  | String c s' =>
      let b := N_of_ascii c in
      match n with
      | S m =>
          if ((lo <=? b) && (b <=? hi))%N then utf8_from m 128 191 s'
          else false
      | O =>
          if (b <? 128)%N then utf8_from 0 128 191 s'
          else if ((194 <=? b) && (b <=? 223))%N then utf8_from 1 128 191 s'
          else if (b =? 224)%N then utf8_from 2 160 191 s'
          else if ((225 <=? b) && (b <=? 236))%N then utf8_from 2 128 191 s'
          else if (b =? 237)%N then utf8_from 2 128 159 s'
          else if ((238 <=? b) && (b <=? 239))%N then utf8_from 2 128 191 s'
          else if (b =? 240)%N then utf8_from 3 144 191 s'
          else if ((241 <=? b) && (b <=? 243))%N then utf8_from 3 128 191 s'
          else if (b =? 244)%N then utf8_from 3 128 143 s'
          else false
      end
  end.

(** [b.decode()] *)
Definition decode (b : string) : result string :=
  if utf8_from 0 128 191 b then Ok b else Raise UnicodeDecodeError.

(** The error class of the server ([ServerError], [server.error]), which
    is declared outside these modules: the status code of an error that is
    raised with a message only. *)
Class ServerErrorClass := {
  error_status_code : Z }.

(** The builtins of the language and its library that the handlers call
    and that this development does not look into. *)
Class Builtins := {
  (** [s.lower()] *)
  str_lower : string -> string;
  (** [s.strip()] *)
  str_strip : string -> string;
  (** [int(s)] and [float(s)]; [None] is the [ValueError] *)
  py_int : string -> option Z;
  py_float : string -> option spec_float;
  (** [json.loads(s)] *)
  json_loads : string -> result value;
  (** [d.update(x)] for [x] a [str] or a [list], a sequence of pairs *)
  dict_update_pairs : pydict -> value -> result pydict }.

End Py.

(* ===================================================================== *)
(** * The mutable route table *)
(* ===================================================================== *)

Module Router.
Import Py.

(** [PathMatches(pattern)] of the web framework compiles the pattern when
    the matcher is built: [pattern_error] is the exception it raises for a
    pattern it does not accept (the [re.error] of [re.compile], or the
    [AssertionError] of its test that the groups are all named or all
    positional), [None] for a pattern it accepts. *)
Class PathMatches := {
  pattern_error : string -> option exn }.

Section Router.

(** What a rule routes to ([target], [target_params]) is opaque to the
    table. *)
Context {Target Params : Type} `{PathMatches}.

(** [PathMatches(pattern).match(request)] of the web framework: whether a
    request path is matched by a pattern. *)
Variable path_matches : string -> string -> bool.

(** [Rule(PathMatches(pattern), target, target_params)].  A [Rule] defines
    no [__eq__]: two rules are equal when they are the same object, which
    [rule_id] (the allocation number) stands for. *)
Record Rule := mkRule {
  rule_id : nat;
  pattern : string;
  target : Target;
  target_params : option Params }.

Record MutableRouter := mkRouter {
  pattern_to_rule : gmap string Rule;
  rules : list Rule;
  next_rule : nat;              (* allocation counter for [Rule] objects *)
  router_log : list string }.   (* [logging.exception] lines *)

(** [MutableRouter.__init__]: [rules] is empty ([super().__init__(None)]). *)
Definition init : MutableRouter :=
  {| pattern_to_rule := ∅; rules := []; next_rule := 0; router_log := [] |}.

Definition has_rule (p : string) (r : MutableRouter) : bool :=
  bool_decide (is_Some (pattern_to_rule r !! p)).

(** [list.remove(x)]: drops the first element that is [x]; [None] is the
    [ValueError] raised when there is none. *)
Fixpoint list_remove (id : nat) (l : list Rule) : option (list Rule) :=
  match l with
  | [] => None
  | x :: l' =>
      if decide (rule_id x = id) then Some l'
      else cons x <$> list_remove id l'
  end.

Definition remove_handler (p : string) (r : MutableRouter) : MutableRouter :=
  match pattern_to_rule r !! p with
  | None => r
  | Some rule =>
      let index := delete p (pattern_to_rule r) in
      match list_remove (rule_id rule) (rules r) with
      | Some l =>
          {| pattern_to_rule := index; rules := l;
             next_rule := next_rule r; router_log := router_log r |}
      | None =>
          {| pattern_to_rule := index; rules := rules r;
             next_rule := next_rule r;
             router_log := router_log r ++ ["Unable to remove rule: " +:+ p] |}
      end
  end.

(** The table [add_handler] leaves, and the exception it ends with when
    [PathMatches(pattern)] raises: the rule of the pattern, if any, has
    been removed by then and no rule is added. *)
Definition add_handler (p : string) (t : Target) (ps : option Params)
    (r : MutableRouter) : MutableRouter * option exn :=
  let r1 := if has_rule p r then remove_handler p r else r in
  match pattern_error p with
  | Some e => (r1, Some e)
  | None =>
      let new_rule := mkRule (next_rule r1) p t ps in
      ({| pattern_to_rule := <[p := new_rule]> (pattern_to_rule r1);
          rules := rules r1 ++ [new_rule];
          next_rule := S (next_rule r1);
          router_log := router_log r1 |}, None)
  end.

(** The rule an [add_handler] call allocates. *)
Definition added_rule (p : string) (t : Target) (ps : option Params)
    (r : MutableRouter) : Rule :=
  mkRule (next_rule r) p t ps.

(** Modelled from the spec: the lookup is the one [MutableRouter] inherits
    from the framework's rule router, which is not part of this module;
    "rules are matched in table order (first match wins)". *)
Definition find_handler (path : string) (r : MutableRouter) : option Rule :=
  snd <$> list_find (fun x => path_matches (pattern x) path = true) (rules r).

(** States of a router driven through its two operations only. *)
Inductive reachable : MutableRouter -> Prop :=
| reach_init : reachable init
| reach_add p t ps r : reachable r -> reachable (add_handler p t ps r).1
| reach_remove p r : reachable r -> reachable (remove_handler p r).

(** The index and the list describe the same rules, one per pattern. *)
Record consistent (r : MutableRouter) : Prop := {
  cons_index : forall p x,
    pattern_to_rule r !! p = Some x <-> x ∈ rules r /\ pattern x = p;
  cons_patterns : NoDup (pattern <$> rules r);
  cons_ids : NoDup (rule_id <$> rules r);
  cons_fresh : forall x, x ∈ rules r -> rule_id x < next_rule r }.

Definition rules_for (p : string) (r : MutableRouter) : list Rule :=
  filter (fun x => pattern x = p) (rules r).

End Router.
End Router.

(* ===================================================================== *)
(** * The dynamic request handler: argument parsing *)
(* ===================================================================== *)

Module Dispatch.
Import Py.

Definition EXCLUDED_ARGS : list string :=
  ["_"; "token"; "access_token"; "connection_id"].

(** What [parse_args] reads of the request.  [arguments] lists
    [request.arguments] in iteration order, each key with the string
    [get_argument(key)] returns for it when it returns;
    [argument_errors] lists the keys [get_argument] raises for, each with
    its exception (the framework's [HTTPError] 400 for a value that is not
    UTF-8 text); [content_type] is the [Content-Type] header when
    present. *)
Record HTTPServerRequest := {
  arguments : list (string * string);
  argument_errors : list (string * exn);
  content_type : option string;
  body : string }.

(** The exception of [get_argument(key)], if it raises. *)
Fixpoint get_argument_error (key : string) (errors : list (string * exn))
    : option exn :=
  match errors with
  | [] => None
  | (k, e) :: rest =>
      if decide (k = key) then Some e else get_argument_error key rest
  end.

(** The handler instance: the request, the groups the route pattern
    captured ([None] for a group that took no part in the match) and the
    parser selected by [initialize]. *)
Record DynamicRequestHandler := {
  request : HTTPServerRequest;
  path_kwargs : list (string * option string);
  need_object_parser : bool }.

Section Parsers.
Context `{Builtins} `{ServerErrorClass}.

Definition type_funcs (hint : string) : option (string -> result value) :=
  if decide (hint = "int") then
    Some (fun x => match py_int x with
                   | Some z => Ok (VInt z) | None => Raise ValueError end)
  else if decide (hint = "float") then
    Some (fun x => match py_float x with
                   | Some f => Ok (VFloat f) | None => Raise ValueError end)
  else if decide (hint = "bool") then
    Some (fun x => Ok (VBool (bool_decide (str_lower x = "true"))))
  else if decide (hint = "json") then Some json_loads
  else None.

Definition _convert_type (val hint : string) : value :=
  match type_funcs hint with
  | None => VStr val
  | Some func =>
      match func val with
      | Ok converted => converted
      | Raise _ => VStr val
      end
  end.

(** One turn of the loop of [_default_parser]. *)
Definition default_step (args : pydict) (kv : string * string) : pydict :=
  let '(key, val) := kv in
  if decide (key ∈ EXCLUDED_ARGS) then args
  else match rsplit1 ":" key with
       | None => dict_set key (VStr val) args
       | Some (name, hint) => dict_set name (_convert_type val hint) args
       end.

(** The key of the mapping a query key is stored under by
    [default_step], if it is stored. *)
Definition arg_name (key : string) : option string :=
  if decide (key ∈ EXCLUDED_ARGS) then None
  else match rsplit1 ":" key with
       | None => Some key
       | Some (name, _) => Some name
       end.

Definition _default_parser (h : DynamicRequestHandler) : pydict :=
  fold_left default_step (arguments (request h)) [].

(** One turn of the loop of [_object_parser]. *)
Definition object_step (args : pydict) (kv : string * string) : pydict :=
  let '(key, val) := kv in
  if decide (key ∈ EXCLUDED_ARGS) then args
  else if decide (val = "") then dict_set key VNone args
  else dict_set key (VList (VStr <$> split "," val)) args.

Definition object_args (h : DynamicRequestHandler) : pydict :=
  fold_left object_step (arguments (request h)) [].

Definition _object_parser (h : DynamicRequestHandler) : pydict :=
  [("objects", VDict (object_args h))].

Definition _parse_query (h : DynamicRequestHandler) : pydict :=
  if need_object_parser h then _object_parser h else _default_parser h.

(** [args.update(json.loads(body))] once [json.loads] returned. *)
Definition merge_body (args : pydict) (loaded : value) : result pydict :=
  match loaded with
  | VDict kvs => Ok (dict_update args kvs)
  | VStr _ | VList _ => dict_update_pairs args loaded
  | VNone | VBool _ | VInt _ | VFloat _ => Raise TypeError
  end.

Definition is_json (h : DynamicRequestHandler) : bool :=
  startswith (str_strip (default "" (content_type (request h))))
             "application/json".

Definition path_step (args : pydict) (kv : string * option string) : pydict :=
  match snd kv with
  | Some v => dict_set (fst kv) (VStr v) args
  | None => args
  end.

(** Whether [_parse_query] raises.  Either parser calls [get_argument] on
    every key outside the excluded ones, and nothing else in it raises
    ([_convert_type] catches what its converters raise): it raises exactly
    when [get_argument] does for one of these keys. *)
Definition _parse_query_raises (h : DynamicRequestHandler) : bool :=
  existsb (fun kv =>
             bool_decide (kv.1 ∉ EXCLUDED_ARGS) &&
             bool_decide (is_Some (get_argument_error kv.1
                                     (argument_errors (request h)))))
          (arguments (request h)).

(** Whatever [_parse_query] raises is replaced by the server's error;
    [json.loads] and [update] raise as they do. *)
Definition parse_args (h : DynamicRequestHandler) : result pydict :=
  if _parse_query_raises h then
    Raise (ServerError
             ("Error Parsing Request Arguments. "
                +:+ "Is the Content-Type correct?")
             error_status_code)
  else
  let args := _parse_query h in
  bind (if is_json h then
          match json_loads (body (request h)) with
          | Ok loaded => merge_body args loaded
          | Raise JSONDecodeError => Ok args
          | Raise e => Raise e
          end
        else Ok args)
       (fun args => Ok (fold_left path_step (path_kwargs h) args)).

End Parsers.
End Dispatch.

(* ===================================================================== *)
(** * The file handler: byte ranges *)
(* ===================================================================== *)

Module Files.
Import Py.

(** What [get] sees of the request and of the file: the outcome of the
    framework's [validate_absolute_path] (the path; [None] when it has
    answered the request with a redirect itself; or the [HTTPError] it
    raises, 403 for a path outside the root or one that is not a file,
    404 for a missing one), whether [should_return_304] holds, the pair
    the framework's [_parse_request_range] returned for the [Range] header
    ([None] when the header is absent, empty or not a byte range; the end
    of the pair is exclusive), the bytes of the file, and
    [include_body]. *)
Record FileRequest := {
  validate_absolute_path : result (option string);
  not_modified : bool;
  request_range : option (option Z * option Z);
  content : list Byte.byte;
  include_body : bool }.

(** [validate_absolute_path] returned a path. *)
Definition path_valid (q : FileRequest) : bool :=
  match validate_absolute_path q with
  | Ok (Some _) => true
  | _ => false
  end.

(** What [get] itself sets of the response: the status, the three headers
    it writes, the chunks it writes and the exception it ends with, if
    any.  What the inherited [set_headers] and [validate_absolute_path]
    put in the response is left out. *)
Record Response := {
  status : Z;
  content_type : option string;
  content_range : option string;
  content_length : option Z;
  written : list (list Byte.byte);
  raised : option exn }.

Definition initial : Response :=
  {| status := 200; content_type := None; content_range := None;
     content_length := None; written := []; raised := None |}.

(** [x or d] on an optional integer: [None] and [0] are falsy. *)
Definition or_else (x : option Z) (d : Z) : Z :=
  match x with
  | Some v => if (v =? 0)%Z then d else v
  | None => d
  end.

(** The framework's [_get_content_range(start, end, total)]. *)
Definition _get_content_range (start end_ : option Z) (total : Z) : string :=
  "bytes " +:+ str_of_Z (or_else start 0) +:+ "-"
    +:+ str_of_Z (or_else end_ total - 1) +:+ "/" +:+ str_of_Z total.

(** [file.read(n)] of a file opened in binary mode, at offset [pos]: at
    most [n] bytes, all the rest for [n = -1], and a [ValueError] for a
    length below [-1]. *)
Definition file_read (n : Z) (pos : nat) (file : list Byte.byte)
    : result (list Byte.byte) :=
  if (n <? -1)%Z then Raise ValueError
  else if (n <? 0)%Z then Ok (drop pos file)
  else Ok (take (Z.to_nat n) (drop pos file)).

(** The loop of [get_content_nonblock]: the chunks it yields, and the
    exception it ends with, if any (the one of [read], or the one of its
    assertion).  Every turn that goes on has read at least one byte, so
    [fuel] above the length of the file is never used up; the outer
    [None] is for a [fuel] that is. *)
Fixpoint read_chunks (fuel : nat) (file : list Byte.byte) (pos : nat)
    (remaining : option Z)
    : option (list (list Byte.byte) * option exn) :=
  match fuel with
  | O => None
  | S fuel' =>
      let chunk_size :=
        match remaining with
        | Some r => if (r <? 64 * 1024)%Z then r else (64 * 1024)%Z
        | None => (64 * 1024)%Z
        end in
      match file_read chunk_size pos file with
      | Raise e => Some ([], Some e)
      | Ok [] =>
          Some ([], match remaining with
                    | Some r =>
                        if decide (r = 0%Z) then None
                        else Some (Error "AssertionError")
                    | None => None
                    end)
      | Ok chunk =>
          let remaining' := (fun r => r - Z.of_nat (length chunk))%Z <$> remaining in
          match read_chunks fuel' file (pos + length chunk) remaining' with
          | Some (chunks, e) => Some (chunk :: chunks, e)
          | None => None
          end
      end
  end.

Definition get_content_nonblock (file : list Byte.byte)
    (start end_ : option Z)
    : option (list (list Byte.byte) * option exn) :=
  let pos := match start with Some s => Z.to_nat s | None => O end in
  let remaining := (fun e => e - or_else start 0)%Z <$> end_ in
  read_chunks (S (length file)) file pos remaining.

(** The start of the range once a negative start is counted from the end
    of the content. *)
Definition adjust_start (size : Z) (start : option Z) : option Z :=
  match start with
  | Some s =>
      if (s <? 0)%Z then
        let s' := (s + size)%Z in Some (if (s' <? 0)%Z then 0%Z else s')
      else Some s
  | None => None
  end.

Definition not_satisfiable (size : Z) (start end_ : option Z) : bool :=
  match start with
  | Some s =>
      (size <=? s)%Z
      || match end_ with Some e => (e <=? s)%Z | None => false end
  | None => false
  end
  || match end_ with Some e => (e =? 0)%Z | None => false end.

(** The tail of [get], from the computation of [content_length] on. *)
Definition send (q : FileRequest) (r : Response) (start end_ : option Z)
    : option Response :=
  let size := Z.of_nat (length (content q)) in
  let '(end', len) :=
    match start, end_ with
    | Some s, Some e => (Some e, e - s)
    | None, Some e => (Some e, e)
    | Some s, None => (Some size, size - s)
    | None, None => (Some size, size)
    end%Z in
  let r := {| status := status r; content_type := content_type r;
              content_range := content_range r;
              content_length := Some len; written := written r;
              raised := raised r |} in
  if include_body q then
    match get_content_nonblock (content q) start end' with
    | Some (chunks, e) =>
        Some {| status := status r; content_type := content_type r;
                content_range := content_range r;
                content_length := content_length r; written := chunks;
                raised := e |}
    | None => None
    end
  else Some r.

(** [get] ends with the exception of [validate_absolute_path] when it
    raises one, and returns at once when it returns no path. *)
Definition get (q : FileRequest) : option Response :=
  match validate_absolute_path q with
  | Raise e =>
      Some {| status := 200; content_type := None; content_range := None;
              content_length := None; written := []; raised := Some e |}
  | Ok None => Some initial
  | Ok (Some _) =>
  if not_modified q then
    Some {| status := 304; content_type := None; content_range := None;
            content_length := None; written := []; raised := None |}
  else
    let size := Z.of_nat (length (content q)) in
    match request_range q with
    | Some (start, end_) =>
        let start := adjust_start size start in
        if not_satisfiable size start end_ then
          Some {| status := 416; content_type := Some "text/plain";
                  content_range := Some ("bytes */" +:+ str_of_Z size);
                  content_length := None; written := []; raised := None |}
        else
          let end_ :=
            match end_ with
            | Some e => Some (if (size <? e)%Z then size else e)
            | None => None
            end in
          if decide (size <> or_else end_ size - or_else start 0)%Z then
            send q {| status := 206; content_type := None;
                      content_range :=
                        Some (_get_content_range start end_ size);
                      content_length := None; written := [];
                      raised := None |}
                 start end_
          else send q initial start end_
    | None => send q initial None None
    end
  end.

(** The range, as the header gives it, spans the whole resource: it
    starts at the first byte once adjusted, or has no start, and ends at
    or beyond the last byte, or has no end. *)
Definition spans_whole (size : Z) (range : option Z * option Z) : Prop :=
  (adjust_start size range.1 = None \/ adjust_start size range.1 = Some 0%Z) /\
  (range.2 = None \/ exists e, range.2 = Some e /\ (size <= e)%Z).

End Files.

(* ===================================================================== *)
(** * The upload handler *)
(* ===================================================================== *)

Module Upload.
Import Py.

(** The state [post] finds once the body has been streamed through the
    form parser: the bytes of the four value targets, the digest of the
    hash target, and the file target with the path it wrote to and the
    name the part carried. *)
Record Targets := {
  root : string;
  print : string;
  path : string;
  checksum : string;
  sha256 : string;
  filename : string;
  multipart_filename : option string }.

(** The file manager, a collaborator: [finalize_upload(form_args)] acts
    on the files and returns or raises. *)
Class FileManager := {
  finalize_upload : pydict -> gset string -> gset string * result value }.

(** [os.remove(path)] on the set of existing files. *)
Definition os_remove (p : string) (fs : gset string) : gset string * result unit :=
  if decide (p ∈ fs) then (fs ∖ {[p]}, Ok tt) else (fs, Raise OSError).

Definition mismatch_message (recd calc : string) : string :=
  "File checksum mismatch: expected " +:+ recd +:+ ", calculated " +:+ calc.

Section Post.
Context `{Builtins} `{FileManager}.

(** [form_args[name] = target.value.decode()] for a non-empty target. *)
Definition add_field (name : string) (val : string) (form_args : pydict)
    : result pydict :=
  if decide (val = "") then Ok form_args
  else bind (decode val) (fun s => Ok (dict_set name (VStr s) form_args)).

(** The arguments handed to [finalize_upload]. *)
Definition form_args_of (t : Targets) : result pydict :=
  bind (add_field "root" (root t) []) (fun a =>
  bind (add_field "print" (print t) a) (fun a =>
  bind (add_field "path" (path t) a) (fun a =>
  let a := dict_set "filename"
             (match multipart_filename t with
              | Some n => VStr n | None => VNone end) a in
  Ok (dict_set "tmp_file_path" (VStr (filename t)) a)))).

(** The part of [post] after the checksum validation. *)
Definition hand_over (t : Targets) (fs : gset string)
    : gset string * result value :=
  match form_args_of t with
  | Raise e => (fs, Raise e)
  | Ok form_args =>
      match finalize_upload form_args fs with
      | (fs', Raise (ServerError msg code)) =>
          (fs', Raise (HTTPError code (Some msg)))
      | other => other
      end
  end.

Definition post (t : Targets) (fs : gset string)
    : gset string * result value :=
  let calc_chksum := str_lower (sha256 t) in
  if decide (checksum t = "") then hand_over t fs
  else
    match decode (checksum t) with
    | Raise e => (fs, Raise e)
    | Ok text =>
        let recd_cksum := str_lower text in
        if decide (calc_chksum <> recd_cksum) then
          ((os_remove (filename t) fs).1,
           Raise (ServerError (mismatch_message recd_cksum calc_chksum) 422))
        else hand_over t fs
    end.

End Post.
End Upload.

(* ===================================================================== *)
(** * The application: API definitions and their transports *)
(* ===================================================================== *)

Module App.
Import Py.

Definition RESERVED_ENDPOINTS : list string :=
  ["list_endpoints"; "gcode/subscribe_output"; "register_remote_method"].

Definition ALL_TRANSPORTS : list string := ["http"; "websocket"; "mqtt"].

(** The handler classes the application routes to. *)
Inductive handler_class :=
| DynamicRequestHandler
| FileRequestHandler
| FileUploadHandler.

Section App.
(** [Callback] is what a local endpoint calls; [T] is the state of a
    transport. *)
Context {Callback T : Type}.

Record APIDefinition := {
  endpoint : string;
  uri : string;
  jrpc_methods : list string;
  request_methods : list string;
  supported_transports : list string;
  callback : option Callback;
  need_object_parser : bool }.

(** The [params] dictionaries handed to the router with each class. *)
Inductive route_params :=
| RemoteParams (methods : list string) (callback : string)
    (need_object_parser : bool)
| LocalParams (methods : list string) (callback : Callback)
    (wrap_result : bool) (is_remote : bool)
| StaticParams (path : string)
| UploadParams (max_upload_size : Z).

(** The interface of a transport: each hook leaves the transport in a
    new state and may raise. *)
Class APITransport := {
  register_api_handler : APIDefinition -> T -> T * option exn;
  remove_api_handler : APIDefinition -> T -> T * option exn }.

Record MoonrakerApp := {
  api_cache : gmap string APIDefinition;
  registered_base_handlers : list string;
  mutable_router : @Router.MutableRouter handler_class route_params;
  api_transports : list (string * T) }.

Context `{Builtins} `{APITransport} `{Router.PathMatches}.

(** The status code of a [self.server.error(msg)] raised without one;
    the error class is declared outside this module. *)
Variable default_status_code : Z.

(** [for name, transport in self.api_transports.items(): ...]: the
    hook is called on the transports in order, on those [wanted] only;
    the first exception ends the loop. *)
Fixpoint for_each_transport (hook : T -> T * option exn)
    (wanted : string -> bool) (ts : list (string * T))
    : list (string * T) * option exn :=
  match ts with
  | [] => ([], None)
  | (name, t) :: rest =>
      if wanted name then
        match hook t with
        | (t', Some e) => ((name, t') :: rest, Some e)
        | (t', None) =>
            let '(rest', e) := for_each_transport hook wanted rest in
            ((name, t') :: rest', e)
        end
      else
        let '(rest', e) := for_each_transport hook wanted rest in
        ((name, t) :: rest', e)
  end.

Definition with_cache (c : gmap string APIDefinition) (app : MoonrakerApp) :=
  {| api_cache := c;
     registered_base_handlers := registered_base_handlers app;
     mutable_router := mutable_router app;
     api_transports := api_transports app |}.

Definition with_router (r : Router.MutableRouter) (app : MoonrakerApp) :=
  {| api_cache := api_cache app;
     registered_base_handlers := registered_base_handlers app;
     mutable_router := r;
     api_transports := api_transports app |}.

Definition with_base_handlers (l : list string) (app : MoonrakerApp) :=
  {| api_cache := api_cache app;
     registered_base_handlers := l;
     mutable_router := mutable_router app;
     api_transports := api_transports app |}.

Definition with_transports (ts : list (string * T)) (app : MoonrakerApp) :=
  {| api_cache := api_cache app;
     registered_base_handlers := registered_base_handlers app;
     mutable_router := mutable_router app;
     api_transports := ts |}.

(** The [uri] and the method names [_create_api_definition] derives. *)
Definition uri_of (endpoint : string) (is_remote : bool) : string :=
  if startswith endpoint "/" then endpoint
  else if is_remote then "/printer/" +:+ endpoint
  else "/server/" +:+ endpoint.

Definition local_jrpc_methods (uri : string) (request_methods : list string)
    : list string :=
  let name_parts := split "/" (tail uri) in
  if decide (1 < length request_methods) then
    (fun req_mthd =>
       let func_name := str_lower req_mthd +:+ "_" +:+ List.last name_parts "" in
       join "." (init_of name_parts ++ [func_name])) <$> request_methods
  else [join "." name_parts].

Definition _create_api_definition (endpoint : string)
    (request_methods : list string) (callback : option Callback)
    (transports : list string) (app : MoonrakerApp)
    : MoonrakerApp * result APIDefinition :=
  let is_remote := match callback with None => true | Some _ => false end in
  match api_cache app !! endpoint with
  | Some api_def => (app, Ok api_def)
  | None =>
      if decide (endpoint = "") then (app, Raise IndexError)
      else
        let uri := uri_of endpoint is_remote in
        let '(jrpc_methods, request_methods) :=
          if is_remote then ([replace "/" "." (tail uri)], ["GET"; "POST"])
          else (local_jrpc_methods uri request_methods, request_methods) in
        if negb is_remote
           && negb (bool_decide (length request_methods = length jrpc_methods))
        then
          (app, Raise (ServerError
             ("Invalid API definition.  Number of websocket methods must "
                +:+ "match the number of request methods")
             default_status_code))
        else
          let api_def :=
            {| endpoint := endpoint; uri := uri;
               jrpc_methods := jrpc_methods;
               request_methods := request_methods;
               supported_transports := transports;
               callback := callback;
               need_object_parser := startswith endpoint "objects/" |} in
          (with_cache (<[endpoint := api_def]> (api_cache app)) app, Ok api_def)
  end.

Definition register_remote_handler (ep : string) (app : MoonrakerApp)
    : MoonrakerApp * option exn :=
  if decide (ep ∈ RESERVED_ENDPOINTS) then (app, None)
  else
    match _create_api_definition ep [] None ALL_TRANSPORTS app with
    | (app, Raise e) => (app, Some e)
    | (app, Ok api_def) =>
        if decide (uri api_def ∈ registered_base_handlers app) then (app, None)
        else
          let params :=
            RemoteParams (request_methods api_def) (endpoint api_def)
              (need_object_parser api_def) in
          match Router.add_handler (uri api_def) DynamicRequestHandler
                  (Some params) (mutable_router app) with
          | (r, Some e) => (with_router r app, Some e)
          | (r, None) =>
              let app := with_router r app in
              let app := with_base_handlers
                (registered_base_handlers app ++ [uri api_def]) app in
              let '(ts, e) := for_each_transport (register_api_handler api_def)
                                (fun _ => true) (api_transports app) in
              (with_transports ts app, e)
          end
    end.

Definition register_local_handler (uri : string)
    (request_methods : list string) (callback : Callback)
    (transports : list string) (wrap_result : bool) (app : MoonrakerApp)
    : MoonrakerApp * option exn :=
  if decide (uri ∈ registered_base_handlers app) then (app, None)
  else
    match _create_api_definition uri request_methods (Some callback)
            transports app with
    | (app, Raise e) => (app, Some e)
    | (app, Ok api_def) =>
        let '(r, added) :=
          if decide ("http" ∈ transports) then
            Router.add_handler uri DynamicRequestHandler
              (Some (LocalParams request_methods callback wrap_result false))
              (mutable_router app)
          else (mutable_router app, None) in
        match added with
        | Some e => (with_router r app, Some e)
        | None =>
            let app := with_router r app in
            let app := with_base_handlers
              (registered_base_handlers app ++ [uri]) app in
            let '(ts, e) := for_each_transport (register_api_handler api_def)
                              (fun name => bool_decide (name ∈ transports))
                              (api_transports app) in
            (with_transports ts app, e)
        end
    end.

Definition remove_handler (ep : string) (app : MoonrakerApp)
    : MoonrakerApp * option exn :=
  match api_cache app !! ep with
  | None => (app, None)
  | Some api_def =>
      let app := with_cache (delete ep (api_cache app)) app in
      let app := with_router
        (Router.remove_handler (uri api_def) (mutable_router app)) app in
      let '(ts, e) := for_each_transport (remove_api_handler api_def)
                        (fun _ => true) (api_transports app) in
      (with_transports ts app, e)
  end.

End App.
End App.

(* ===================================================================== *)
(** * Concrete builtins for the worked examples *)
(* ===================================================================== *)

Module Examples.
Import Py.

Definition lower_ascii (c : ascii) : ascii :=
  let n := N_of_ascii c in
  if ((65 <=? n) && (n <=? 90))%N then ascii_of_N (n + 32) else c.

Fixpoint lower (s : string) : string :=
  match s with
  | EmptyString => EmptyString
  | String c s' => String (lower_ascii c) (lower s')
  end.

Definition is_space (c : ascii) : bool :=
  let n := N_of_ascii c in ((9 <=? n) && (n <=? 13) || (n =? 32))%N.

Fixpoint lstrip (s : string) : string :=
  match s with
  | EmptyString => EmptyString
  | String c s' => if is_space c then lstrip s' else s
  end.

Definition rev_string (s : string) : string :=
  string_of_list_ascii (rev (list_ascii_of_string s)).

Definition strip (s : string) : string :=
  rev_string (lstrip (rev_string (lstrip s))).

Fixpoint digits (acc : Z) (s : string) : option Z :=
  match s with
  | EmptyString => Some acc
  | String c s' =>
      let n := N_of_ascii c in
      if ((48 <=? n) && (n <=? 57))%N
      then digits (10 * acc + Z.of_N (n - 48)) s'
      else None
  end.

(** A signed decimal numeral. *)
Definition int_of_string (s : string) : option Z :=
  match s with
  | EmptyString => None
  | String "-" (String c s') => Z.opp <$> digits 0 (String c s')
  | String "+" (String c s') => digits 0 (String c s')
  | String "-" EmptyString | String "+" EmptyString => None
  | _ => digits 0 s
  end.

Definition quote : string := String (ascii_of_nat 34) EmptyString.

(** The request body [{"token": "x"}]. *)
Definition token_body : string :=
  "{" +:+ quote +:+ "token" +:+ quote +:+ ": " +:+ quote +:+ "x" +:+ quote +:+ "}".

(** An instance of the builtins that agrees with Python on the inputs of
    the examples: ASCII text for [lower] and [strip], signed decimal
    numerals and non-numeric ASCII words for [int], and [token_body] for
    [json.loads]; [float] and the pair form of [update] are not used. *)
Definition builtins : Builtins :=
  {| str_lower := lower;
     str_strip := strip;
     py_int := int_of_string;
     py_float := fun _ => None;
     json_loads := fun s =>
       if decide (s = token_body) then Ok (VDict [("token", VStr "x")])
       else Raise JSONDecodeError;
     dict_update_pairs := fun _ _ => Raise ValueError |}.

(** The error class with the status code 400 for an error raised with a
    message only. *)
Definition server_error : ServerErrorClass := {| error_status_code := 400 |}.

(** ** Patterns *)

Fixpoint balanced (depth : nat) (s : string) : bool :=
  match s with
  | EmptyString => Nat.eqb depth 0
  | String c s' =>
      if decide (c = "("%char) then balanced (S depth) s'
      else if decide (c = ")"%char) then
        match depth with O => false | S d => balanced d s' end
      else balanced depth s'
  end.

(** A pattern compiler that agrees with the framework on the patterns of
    the examples, which hold no metacharacter but parentheses, dots and
    stars: a pattern is refused when its parentheses are not balanced. *)
Definition regex : Router.PathMatches :=
  {| Router.pattern_error := fun p =>
       if balanced 0 p then None else Some (Error "re.error") |}.

(** What precedes a final capture of any text, if the pattern ends with
    one. *)
Fixpoint wild_prefix (p : string) : option string :=
  match p with
  | EmptyString => None
  | String c p' =>
      if decide (p = String "(" (String "." (String "*" (String ")" EmptyString))))
      then Some EmptyString
      else String c <$> wild_prefix p'
  end.

(** A matcher that agrees with the framework on the patterns and paths of
    the examples: a pattern that ends with the capture of any text matches
    the paths that start with what precedes it, a pattern of plain
    characters matches the path equal to it. *)
Definition matches (pattern path : string) : bool :=
  match wild_prefix pattern with
  | Some pre => String.prefix pre path
  | None => String.eqb pattern path
  end.

(** ** Requests to the dynamic handler *)

Definition query (args : list (string * string)) : Dispatch.DynamicRequestHandler :=
  {| Dispatch.request :=
       {| Dispatch.arguments := args; Dispatch.argument_errors := [];
          Dispatch.content_type := None; Dispatch.body := "" |};
     Dispatch.path_kwargs := [];
     Dispatch.need_object_parser := false |}.

(** [?count:int=5] and [?count:int=abc] *)
Definition count_5 := query [("count:int", "5")].
Definition count_abc := query [("count:int", "abc")].

(** [?token=secret&name=x] with the JSON body [{"token": "x"}] *)
Definition token_in_body : Dispatch.DynamicRequestHandler :=
  {| Dispatch.request :=
       {| Dispatch.arguments := [("token", "secret"); ("name", "x")];
          Dispatch.argument_errors := [];
          Dispatch.content_type := Some "application/json";
          Dispatch.body := token_body |};
     Dispatch.path_kwargs := [];
     Dispatch.need_object_parser := false |}.

(** A route whose pattern captures a group named [token]. *)
Definition token_in_path : Dispatch.DynamicRequestHandler :=
  {| Dispatch.request :=
       {| Dispatch.arguments := [("token", "secret")];
          Dispatch.argument_errors := [];
          Dispatch.content_type := None; Dispatch.body := "" |};
     Dispatch.path_kwargs := [("token", Some "abc")];
     Dispatch.need_object_parser := false |}.

(** [?toolhead=position,status&extruder=&token=abc] in object mode *)
Definition objects_query : Dispatch.DynamicRequestHandler :=
  {| Dispatch.request :=
       {| Dispatch.arguments :=
            [("toolhead", "position,status"); ("extruder", ""); ("token", "abc")];
          Dispatch.argument_errors := [];
          Dispatch.content_type := None; Dispatch.body := "" |};
     Dispatch.path_kwargs := [];
     Dispatch.need_object_parser := true |}.

(** ** File requests *)

Definition ranged (file : list Byte.byte) (range : option Z * option Z)
    : Files.FileRequest :=
  {| Files.validate_absolute_path := Ok (Some "/gcodes/hi.gcode");
     Files.not_modified := false;
     Files.request_range := Some range; Files.content := file;
     Files.include_body := true |}.

(** The two bytes [hi]. *)
Definition hi : list Byte.byte := [Byte.x68; Byte.x69].

(** [Range: bytes=0-] on [hi] and on an empty file; [Range: bytes=2-12]
    on [hi]. *)
Definition hi_from_0 := ranged hi (Some 0%Z, None).
Definition empty_from_0 := ranged [] (Some 0%Z, None).
Definition hi_from_2 := ranged hi (Some 2%Z, Some 13%Z).

(** ** Uploads *)

Definition tmp_path : string := "/tmp/moonraker.upload-1.mru".

Definition upload (sum : string) : Upload.Targets :=
  {| Upload.root := "gcodes"; Upload.print := ""; Upload.path := "";
     Upload.checksum := sum; Upload.sha256 := "ef01";
     Upload.filename := tmp_path;
     Upload.multipart_filename := Some "part.gcode" |}.

Definition upload_mismatch := upload "ABCD".
Definition upload_match := upload "EF01".
(** A checksum field holding the single byte [0xff]. *)
Definition upload_not_text := upload (String (ascii_of_nat 255) EmptyString).
(** The matching checksum, with a [root] field holding the single byte
    [0xff]. *)
Definition upload_root_not_text : Upload.Targets :=
  {| Upload.root := String (ascii_of_nat 255) EmptyString;
     Upload.print := ""; Upload.path := "";
     Upload.checksum := "EF01"; Upload.sha256 := "ef01";
     Upload.filename := tmp_path;
     Upload.multipart_filename := Some "part.gcode" |}.

(** A file manager that moves the temporary file to its place. *)
Definition moving_manager : Upload.FileManager :=
  {| Upload.finalize_upload := fun form_args fs =>
       match dict_get "tmp_file_path" form_args with
       | Some (VStr p) => (fs ∖ {[p]} ∪ {["/gcodes/part.gcode"]}, Ok VNone)
       | _ => (fs, Raise (ServerError "No file" 400))
       end |}.

(** ** An application with two transports *)

(** A transport that records the endpoints it serves; its removal hook
    raises when [remove_fails]. *)
Record transport := {
  handlers : list string;
  remove_fails : bool }.

Definition recording : @App.APITransport string transport :=
  {| App.register_api_handler := fun api_def t =>
       ({| handlers := handlers t ++ [App.endpoint api_def];
           remove_fails := remove_fails t |}, None);
     App.remove_api_handler := fun api_def t =>
       if remove_fails t then (t, Some (Error "KeyError"))
       else ({| handlers :=
                  filter (fun e => e <> App.endpoint api_def) (handlers t);
                remove_fails := remove_fails t |}, None) |}.

Definition fresh_app : @App.MoonrakerApp string transport :=
  {| App.api_cache := ∅;
     App.registered_base_handlers := [];
     App.mutable_router := Router.init;
     App.api_transports :=
       [("websocket", {| handlers := []; remove_fails := true |});
        ("mqtt", {| handlers := []; remove_fails := false |})] |}.

(** [register_remote_handler("info")] on the fresh application. *)
Definition app_with_info : @App.MoonrakerApp string transport :=
  (@App.register_remote_handler string transport builtins recording regex 400
     "info" fresh_app).1.

(** [register_local_handler("/printer/info", ["GET"], cb)] on the fresh
    application. *)
Definition app_with_local : @App.MoonrakerApp string transport :=
  (@App.register_local_handler string transport builtins recording regex 400
     "/printer/info" ["GET"] "cb" App.ALL_TRANSPORTS true fresh_app).1.

End Examples.

(* ===================================================================== *)
(** * The dynamic request handler: processing a request *)
(* ===================================================================== *)

Module Request.
Import Py Dispatch.

(** What a request is run against: the lookup of the websocket manager
    ([wsm.get_websocket]) and the call itself, the bound callback of a
    local endpoint or [server.make_request] for a remote one, given the
    arguments and the connection of the [WebRequest]. *)
Class Backend (W : Type) := {
  get_websocket : Z -> option W;
  do_request : pydict -> option W -> result value }.

Section Process.
Context `{Builtins} `{ServerErrorClass} {W : Type} `{Backend W}.

(** [self.get_argument(name, None)] *)
Fixpoint get_argument (name : string) (args : list (string * string))
    : option string :=
  match args with
  | [] => None
  | (k, v) :: rest => if decide (k = name) then Some v else get_argument name rest
  end.

(** The connection, or the exception of [get_argument], which is called
    outside the [try]. *)
Definition get_associated_websocket (h : DynamicRequestHandler)
    : result (option W) :=
  match get_argument "connection_id" (arguments (request h)) with
  | None => Ok None
  | Some conn_id =>
      match get_argument_error "connection_id"
              (argument_errors (request h)) with
      | Some e => Raise e
      | None =>
          match py_int conn_id with
          | None => Ok None
          | Some n => Ok (get_websocket n)
          end
      end
  end.

(** [_process_http_request] for a handler initialized with [methods] and
    [wrap_result], on a request with the given method: what is handed to
    [finish], or the exception. *)
Definition _process_http_request (h : DynamicRequestHandler)
    (methods : list string) (wrap_result : bool) (method : string)
    : result value :=
  if decide (method ∈ methods) then
    match get_associated_websocket h with
    | Raise e => Raise e
    | Ok conn =>
        match parse_args h with
        | Raise e => Raise e
        | Ok args =>
            match do_request args conn with
            | Raise (ServerError msg code) => Raise (HTTPError code (Some msg))
            | Raise e => Raise e
            | Ok res =>
                Ok (if wrap_result then VDict [("result", res)] else res)
            end
        end
    end
  else Raise (HTTPError 405 None).

(** The mapping [parse_args] merges over the query arguments when the body
    is JSON: the object's entries, nothing without a JSON content type or
    for a malformed body; [None] when the body is some other JSON value. *)
Definition body_mapping (h : DynamicRequestHandler)
    : option (list (string * value)) :=
  if is_json h then
    match json_loads (body (request h)) with
    | Ok (VDict kvs) => Some kvs
    | Raise JSONDecodeError => Some []
    | _ => None
    end
  else Some [].

End Process.

(** The last value bound to a key in a list of bindings. *)
Fixpoint assoc_last {A} (k : string) (l : list (string * A)) : option A :=
  match l with
  | [] => None
  | (k', v) :: l' =>
      match assoc_last k l' with
      | Some x => Some x
      | None => if decide (k' = k) then Some v else None
      end
  end.

(** The captured groups that took part in the match. *)
Definition path_values (kw : list (string * option string))
    : list (string * string) :=
  omap (fun kv => match snd kv with
                  | Some v => Some (fst kv, v)
                  | None => None
                  end) kw.

End Request.

(* ===================================================================== *)
(** * The redirect handler *)
(* ===================================================================== *)

Module Redirect.
Import Py.

(** [sub in s] for two strings. *)
Fixpoint infix (sub s : string) : bool :=
  String.prefix sub s ||
  match s with
  | EmptyString => false
  | String _ s' => infix sub s'
  end.

(** ['url' in body_args] for what [json.loads] returned; a number, a
    boolean or [None] is not a container. *)
Definition has_url (body_args : value) : result bool :=
  match body_args with
  | VDict kvs => Ok (bool_decide ("url" ∈ dict_keys kvs))
  | VList l => Ok (existsb (fun v => match v with
                                     | VStr s => bool_decide (s = "url")
                                     | _ => false
                                     end) l)
  | VStr s => Ok (infix "url" s)
  | VNone | VBool _ | VInt _ | VFloat _ => Raise TypeError
  end.

(** [body_args['url']]: a list or a string is not indexed by a string. *)
Definition url_of (body_args : value) : result value :=
  match body_args with
  | VDict kvs =>
      match dict_get "url" kvs with
      | Some v => Ok v
      | None => Raise (Error "KeyError")
      end
  | _ => Raise TypeError
  end.

Section Get.
Context `{Builtins}.

(** [RedirectHandler.get] on the [url] query argument, if any, and the
    body: the value handed to [redirect], or the exception. *)
Definition get (url : option string) (body : string) : result value :=
  match url with
  | Some u => Ok (VStr u)
  | None =>
      bind (match json_loads body with
            | Ok v => Ok v
            | Raise JSONDecodeError => Ok (VDict [])
            | Raise e => Raise e
            end) (fun body_args =>
      bind (has_url body_args) (fun present =>
        if negb present then
          Raise (HTTPError 400 (Some "No url argument provided"))
        else
          bind (url_of body_args) (fun u =>
            match u with
            | VNone => Raise (Error "AssertionError")
            | _ => Ok u
            end)))
  end.

End Get.
End Redirect.

(* ===================================================================== *)
(** * The file handler: deletion and the download headers *)
(* ===================================================================== *)

Module FileOps.
Import Py.

(** [s.lstrip(c)] for one character. *)
Fixpoint lstrip (c : ascii) (s : string) : string :=
  match s with
  | EmptyString => EmptyString
  | String c' s' => if decide (c' = c) then lstrip c s' else s
  end.

(** [s.split(sep, maxsplit)] for a one-character separator. *)
Fixpoint split_max (sep : ascii) (maxsplit : nat) (s : string) : list string :=
  match s with
  | EmptyString => [EmptyString]
  | String c s' =>
      match maxsplit with
      | O => [s]
      | S n =>
          if decide (c = sep) then EmptyString :: split_max sep n s'
          else match split_max sep maxsplit s' with
               | h :: t => String c h :: t
               | [] => [String c EmptyString]
               end
      end
  end.

(** [request.path.lstrip("/").split("/", 2)[-1]] *)
Definition delete_target (request_path : string) : string :=
  List.last (split_max "/" 2 (lstrip "/" request_path)) EmptyString.

(** The collaborators of [delete]: the framework's [url_unescape] and the
    file manager's [delete_file], which acts on the files and returns the
    name or raises. *)
Class DeleteEnv := {
  url_unescape : string -> string;
  delete_file : string -> gset string -> gset string * result string }.

(** [FileRequestHandler.delete]: what is handed to [finish], or the
    exception. *)
Definition delete `{DeleteEnv} (request_path : string) (fs : gset string)
    : gset string * result value :=
  let path := url_unescape (delete_target request_path) in
  match delete_file path fs with
  | (fs', Raise (ServerError msg code)) =>
      if decide (code = 403%Z) then
        (fs', Raise (HTTPError 403 (Some "File is loaded, DELETE not permitted")))
      else (fs', Raise (HTTPError code (Some msg)))
  | (fs', Raise e) => (fs', Raise e)
  | (fs', Ok filename) => (fs', Ok (VDict [("result", VStr filename)]))
  end.

(** [os.path.basename(p)]: what follows the last slash. *)
Definition basename (p : string) : string :=
  match rsplit1 "/" p with
  | Some (_, b) => b
  | None => p
  end.

(** [basename.encode("ascii", "replace").decode()] on text kept in UTF-8:
    every character outside ASCII, that is its leading byte with the
    continuation bytes that follow, becomes one question mark. *)
Fixpoint _escape_filename_to_ascii (s : string) : string :=
  match s with
  | EmptyString => EmptyString
  | String c s' =>
      let b := N_of_ascii c in
      if (b <? 128)%N then String c (_escape_filename_to_ascii s')
      else if (b <? 192)%N then _escape_filename_to_ascii s'
      else String "?" (_escape_filename_to_ascii s')
  end.

(** All bytes of the string are ASCII. *)
Fixpoint is_ascii (s : string) : bool :=
  match s with
  | EmptyString => true
  | String c s' => (N_of_ascii c <? 128)%N && is_ascii s'
  end.

(** [set_extra_headers]: the [Content-Disposition] header written for the
    file at [absolute_path]; [quote] is [urllib.parse.quote] with the
    UTF-8 encoding ([_escape_filename_to_utf8]). *)
Definition set_extra_headers (quote : string -> string) (absolute_path : string)
    : string :=
  let name := basename absolute_path in
  "attachment; filename=" +:+ _escape_filename_to_ascii name
    +:+ "; filename*=UTF-8''" +:+ quote name.

End FileOps.

(* ===================================================================== *)
(** * The metadata extractor (metadata.py): what is read of a file *)
(* ===================================================================== *)

Module Metadata.
Import Py.

Definition READ_SIZE : Z := 512 * 1024.

(** [l[i:]], counting a negative [i] from the end. *)
Definition slice_from {A} (i : Z) (l : list A) : list A :=
  if (i <? 0)%Z then drop (Z.to_nat (Z.max 0 (Z.of_nat (length l) + i))) l
  else drop (Z.to_nat i) l.

(** The [header_data] and [footer_data] that [extract_metadata] reads of a
    file, with [read_size] standing for [READ_SIZE].  The file is read as
    text and sought by bytes; it is taken to hold one-byte characters that
    are read as they are (ASCII text without carriage returns), so that
    its size is the number of its characters.  The header is the first
    read; the footer is read after a seek in a large file, pieced together
    from the end of the header and the rest in a middle-sized one, and is
    the header in a small one. *)
Definition read_windows (read_size : Z) (file : list ascii)
    : list ascii * list ascii :=
  let size := Z.of_nat (length file) in
  let header_data := take (Z.to_nat read_size) file in
  let footer_data :=
    if (read_size * 2 <? size)%Z then drop (Z.to_nat (size - read_size)) file
    else if (read_size <? size)%Z then
      let remaining := (size - read_size)%Z in
      slice_from (remaining - read_size) header_data
        ++ drop (Z.to_nat read_size) file
    else header_data in
  (header_data, footer_data).

Definition extract_windows (file : list ascii) : list ascii * list ascii :=
  read_windows READ_SIZE file.

Section Simplify3D.
Context `{Builtins}.

(** [Simplify3D._get_temp_items] on what [re.search] found in the header:
    the text of the match, if any. *)
Definition _get_temp_items (found : option string) : list string :=
  match found with
  | None => []
  | Some group => List.tl (split "," group)
  end.

(** The loop of [_get_first_layer_temp] over [zip(heaters, temps)]. *)
Fixpoint first_layer_temp (heater : string) (heaters temps : list string)
    : option spec_float :=
  match heaters, temps with
  | h :: heaters', temp :: temps' =>
      if decide (h = heater) then py_float temp
      else first_layer_temp heater heaters' temps'
  | _, _ => None
  end.

Definition _get_first_layer_temp (heater : string)
    (names setpoints : option string) : option spec_float :=
  first_layer_temp heater (_get_temp_items names) (_get_temp_items setpoints).

End Simplify3D.
End Metadata.

(* ===================================================================== *)
(** * The application: the other registrations *)
(* ===================================================================== *)

Module AppExt.
Import Py App.

Section AppExt.
Context {Callback T : Type}.
Context `{Builtins} `{@APITransport Callback T} `{Router.PathMatches}.
Variable default_status_code : Z.

Local Abbreviation MoonrakerApp := (@MoonrakerApp Callback T).

(** [d[name] = t] on the transports, kept in insertion order. *)
Fixpoint set_transport (name : string) (t : T) (ts : list (string * T))
    : list (string * T) :=
  match ts with
  | [] => [(name, t)]
  | (n, t') :: rest =>
      if decide (n = name) then (name, t) :: rest
      else (n, t') :: set_transport name t rest
  end.

Definition register_api_transport (name : string) (transport : T)
    (app : MoonrakerApp) : MoonrakerApp * gmap string (@APIDefinition Callback) :=
  (with_transports (set_transport name transport (api_transports app)) app,
   api_cache app).

(** [s[-1]] of a string that is not empty. *)
Fixpoint last_char (s : string) : option ascii :=
  match s with
  | EmptyString => None
  | String c EmptyString => Some c
  | String _ s' => last_char s'
  end.

(** The pattern [register_static_file_handler] routes, when it routes one;
    [isfile] and [isdir] are what [os.path.isfile] and [os.path.isdir]
    say of [file_path]. *)
Definition static_pattern (pattern : string) (isfile isdir force : bool)
    : result (option string) :=
  match pattern with
  | EmptyString => Raise IndexError
  | String c _ =>
      let pattern :=
        if decide (c <> "/"%char) then "/server/files/" +:+ pattern
        else pattern in
      if isfile || force then Ok (Some (pattern +:+ "()"))
      else if isdir then
        let pattern :=
          if decide (last_char pattern <> Some "/"%char) then pattern +:+ "/"
          else pattern in
        Ok (Some (pattern +:+ "(.*)"))
      else Ok None
  end.

Definition register_static_file_handler (pattern file_path : string)
    (isfile isdir force : bool) (app : MoonrakerApp)
    : MoonrakerApp * option exn :=
  match static_pattern pattern isfile isdir force with
  | Raise e => (app, Some e)
  | Ok None => (app, None)
  | Ok (Some pattern) =>
      let '(r, e) :=
        Router.add_handler pattern FileRequestHandler
          (Some (StaticParams file_path)) (mutable_router app) in
      (with_router r app, e)
  end.

Definition register_upload_handler (max_upload_size : Z) (pattern : string)
    (app : MoonrakerApp) : MoonrakerApp * option exn :=
  let '(r, e) :=
    Router.add_handler pattern FileUploadHandler
      (Some (UploadParams max_upload_size)) (mutable_router app) in
  (with_router r app, e).

(** A call made by [__init__]: its exception ends the construction. *)
Definition or_raise (out : MoonrakerApp * option exn) : result MoonrakerApp :=
  match out with
  | (_, Some e) => Raise e
  | (app, None) => Ok app
  end.

(** The application as [__init__] leaves it: the websocket manager as its
    one transport and the static handlers of the two log files. *)
Definition init (wsm : T) (logfile : option string) : result MoonrakerApp :=
  let app :=
    {| api_cache := ∅; registered_base_handlers := [];
       mutable_router := Router.init;
       api_transports := [("websocket", wsm)] |} in
  bind (match logfile with
        | Some path =>
            if decide (path = "") then Ok app
            else or_raise (register_static_file_handler "moonraker.log" path
                             false false true app)
        | None => Ok app
        end)
       (fun app =>
          or_raise (register_static_file_handler "klippy.log" "/tmp/klippy.log"
                      false false true app)).

(** The applications reached through the registrations and removals,
    whether they raised or not. *)
Inductive reachable : MoonrakerApp -> Prop :=
| reach_init wsm logfile app : init wsm logfile = Ok app -> reachable app
| reach_transport name t app :
    reachable app -> reachable (register_api_transport name t app).1
| reach_remote ep app :
    reachable app ->
    reachable (register_remote_handler default_status_code ep app).1
| reach_local u ms cb trs wrap app :
    reachable app ->
    reachable (register_local_handler default_status_code u ms cb trs wrap app).1
| reach_static pattern path isfile isdir force app :
    reachable app ->
    reachable (register_static_file_handler pattern path isfile isdir force app).1
| reach_upload size pattern app :
    reachable app -> reachable (register_upload_handler size pattern app).1
| reach_remove ep app :
    reachable app -> reachable (remove_handler ep app).1.

(** What every definition of the registry satisfies, under its key and in
    its application. *)
Definition well_formed (app : MoonrakerApp) (key : string)
    (d : @APIDefinition Callback) : Prop :=
  endpoint d = key /\ key <> "" /\
  startswith (uri d) "/" = true /\
  match callback d with
  | None =>
      (key ∉ RESERVED_ENDPOINTS) /\
      uri d = uri_of key true /\
      request_methods d = ["GET"; "POST"] /\
      jrpc_methods d = [replace "/" "." (tail (uri d))] /\
      (Router.pattern_error (uri d) = None ->
       uri d ∈ registered_base_handlers app)
  | Some _ =>
      uri d = uri_of key false /\
      request_methods d <> [] /\
      length (jrpc_methods d) = length (request_methods d) /\
      (Router.pattern_error key = None ->
       key ∈ registered_base_handlers app)
  end.

Definition invariant (app : MoonrakerApp) : Prop :=
  Router.reachable (mutable_router app) /\
  forall key d, api_cache app !! key = Some d -> well_formed app key d.

End AppExt.
End AppExt.

(* ===================================================================== *)
(** * The access log *)
(* ===================================================================== *)

Module AccessLog.

Inductive log_method := access_info | access_warning | access_error.

(** [MoonrakerApp.log_request]: the method a finished request is logged
    with, if it is logged; [debug] is [server.is_debug_enabled()] and
    [status_code] is [handler.get_status()]. *)
Definition log_request (debug : bool) (status_code : Z) : option log_method :=
  if negb debug && bool_decide (status_code ∈ [200; 204; 206; 304]%Z) then None
  else if (status_code <? 400)%Z then Some access_info
  else if (status_code <? 500)%Z then Some access_warning
  else Some access_error.

End AccessLog.

(* ===================================================================== *)
(** * Further concrete inputs *)
(* ===================================================================== *)

Module MoreExamples.
Import Py Examples.

(** A route table with one rule. *)
Definition one_rule : @Router.MutableRouter string nat :=
  (@Router.add_handler string nat regex "/server/info" "info" None
     Router.init).1.

(** A route table whose first rule matches every path under [/a/]. *)
Definition wide_first : @Router.MutableRouter string nat :=
  (@Router.add_handler string nat regex "/a/(.*)" "wide" None Router.init).1.

(** [add_handler("/a/b", ...)] twice on it. *)
Definition wide_first_twice : @Router.MutableRouter string nat :=
  (@Router.add_handler string nat regex "/a/b" "new" None
     (@Router.add_handler string nat regex "/a/b" "old" None wide_first).1).1.

(** What [__init__] returns for a log file, and the application it
    leaves. *)
Definition start : result (@App.MoonrakerApp string transport) :=
  @AppExt.init string transport regex
    {| handlers := []; remove_fails := false |} (Some "/tmp/moonraker.log").

Definition started : @App.MoonrakerApp string transport :=
  match start with
  | Ok app => app
  | Raise _ => fresh_app
  end.

(** The application after [register_remote_handler("info")]. *)
Definition started_with_info : @App.MoonrakerApp string transport :=
  (@App.register_remote_handler string transport builtins recording regex 400
     "info" started).1.

(** [?token:int=1&name=q] with the JSON body [{"token": "x"}], on a route
    that captured [name] and left the group [other] out. *)
Definition three_sources : Dispatch.DynamicRequestHandler :=
  {| Dispatch.request :=
       {| Dispatch.arguments := [("token:int", "1"); ("name", "q")];
          Dispatch.argument_errors := [];
          Dispatch.content_type := Some "application/json";
          Dispatch.body := token_body |};
     Dispatch.path_kwargs := [("name", Some "p"); ("other", None)];
     Dispatch.need_object_parser := false |}.

(** [?a:b:str=v] *)
Definition odd_hint := query [("a:b:str", "v")].

(** A request for [hi] without a [Range] header. *)
Definition unranged : Files.FileRequest :=
  {| Files.validate_absolute_path := Ok (Some "/gcodes/hi.gcode");
     Files.not_modified := false;
     Files.request_range := None; Files.content := hi;
     Files.include_body := true |}.

(** [Range: bytes=1-] on [hi]. *)
Definition hi_from_1 := ranged hi (Some 1%Z, None).

(** A file manager that deletes the files it has and refuses the others,
    with paths that need no unescaping. *)
Definition files_env : FileOps.DeleteEnv :=
  {| FileOps.url_unescape := fun s => s;
     FileOps.delete_file := fun p fs =>
       if decide (p ∈ fs) then (fs ∖ {[p]}, Ok p)
       else (fs, Raise (ServerError "File does not exist" 404)) |}.

End MoreExamples.

(* ===================================================================== *)
(** * Properties *)
(* ===================================================================== *)

Section RouterFacts.
Import Py Router.
Context {Target Params : Type} `{PathMatches}.
Variable path_matches : string -> string -> bool.

Local Abbreviation Rule := (@Rule Target Params).
Local Abbreviation MutableRouter := (@MutableRouter Target Params).

Implicit Types (r : MutableRouter) (x y : Rule) (l : list Rule) (p : string).

Lemma fmap_NoDup_inj {B} (f : Rule -> B) l x y :
  NoDup (f <$> l) -> x ∈ l -> y ∈ l -> f x = f y -> x = y.
Proof.
  induction l as [|z l IH]; intros Hnd Hx Hy Hf.
  - by apply not_elem_of_nil in Hx.
  - rewrite fmap_cons in Hnd. apply NoDup_cons in Hnd as [Hz Hnd].
    apply elem_of_cons in Hx as [->|Hx]; apply elem_of_cons in Hy as [->|Hy];
      try done.
    + exfalso. apply Hz. rewrite Hf. by apply list_elem_of_fmap_2.
    + exfalso. apply Hz. rewrite <- Hf. by apply list_elem_of_fmap_2.
    + by apply IH.
Qed.

Lemma filter_keeps_all (P : Rule -> Prop) `{forall x, Decision (P x)} l :
  (forall x, x ∈ l -> P x) -> filter P l = l.
Proof.
  induction l as [|z l IH]; intros Hall; [done|].
  rewrite filter_cons_True by (apply Hall, elem_of_cons; by left).
  f_equal. apply IH. intros x Hx. apply Hall, elem_of_cons. by right.
Qed.

Lemma filter_drops_all (P : Rule -> Prop) `{forall x, Decision (P x)} l :
  (forall x, x ∈ l -> ~ P x) -> filter P l = [].
Proof.
  induction l as [|z l IH]; intros Hall; [done|].
  rewrite filter_cons_False by (apply Hall, elem_of_cons; by left).
  apply IH. intros x Hx. apply Hall, elem_of_cons. by right.
Qed.

(** On a list without two rules of one pattern or one identity, removing
    a rule object is filtering its pattern out. *)
Lemma list_remove_filter l x :
  NoDup (pattern <$> l) -> NoDup (rule_id <$> l) -> x ∈ l ->
  list_remove (rule_id x) l = Some (filter (fun y => pattern y <> pattern x) l).
Proof.
  induction l as [|z l IH]; intros Hp Hi Hx.
  - by apply not_elem_of_nil in Hx.
  - simpl. pose proof Hp as Hp'. pose proof Hi as Hi'.
    rewrite fmap_cons in Hp'. apply NoDup_cons in Hp' as [Hzp Hpl].
    rewrite fmap_cons in Hi'. apply NoDup_cons in Hi' as [Hzi Hil].
    destruct (decide (rule_id z = rule_id x)) as [Heq|Hne].
    + assert (z = x) as ->.
      { apply (fmap_NoDup_inj rule_id (z :: l)); [done| |done|done].
        apply elem_of_cons; by left. }
      rewrite filter_cons_False by (intros Hn; by apply Hn).
      f_equal. symmetry. apply filter_keeps_all. intros y Hy Hpat.
      apply Hzp. rewrite <- Hpat. by apply list_elem_of_fmap_2.
    + apply elem_of_cons in Hx as [->|Hx]; [done|].
      rewrite filter_cons_True.
      * rewrite IH by done. done.
      * intros Hpat. apply Hzp. rewrite Hpat. by apply list_elem_of_fmap_2.
Qed.

Lemma consistent_init : consistent (@init Target Params).
Proof.
  split; simpl.
  - intros p x. rewrite lookup_empty. split; [done|].
    intros [Hx _]. by apply not_elem_of_nil in Hx.
  - constructor.
  - constructor.
  - intros x Hx. by apply not_elem_of_nil in Hx.
Qed.

(** In a consistent table, [remove_handler] drops the rule of the pattern
    from the index and from the list, and logs nothing. *)
Lemma remove_handler_consistent_eq p r :
  consistent r ->
  remove_handler p r =
    {| pattern_to_rule := delete p (pattern_to_rule r);
       rules := filter (fun y => pattern y <> p) (rules r);
       next_rule := next_rule r; router_log := router_log r |}.
Proof.
  intros [Hidx Hpat Hids Hfresh]. unfold remove_handler.
  destruct (pattern_to_rule r !! p) as [x|] eqn:Hp.
  - apply Hidx in Hp as [Hx <-].
    rewrite list_remove_filter by done. done.
  - rewrite delete_id by done.
    rewrite filter_keeps_all; [by destruct r|].
    intros y Hy Hyp. assert (pattern_to_rule r !! p = Some y) as Hs
      by (by apply Hidx). congruence.
Qed.

Lemma remove_handler_consistent p r :
  consistent r -> consistent (remove_handler p r).
Proof.
  intros Hc. rewrite remove_handler_consistent_eq by done.
  destruct Hc as [Hidx Hpat Hids Hfresh]. split; simpl.
  - intros q x. rewrite list_elem_of_filter.
    destruct (decide (p = q)) as [->|Hne].
    + rewrite lookup_delete_eq. split; [done|]. intros [[Hn _] He]. done.
    + rewrite lookup_delete_ne by done. rewrite Hidx.
      split.
      * intros [Hx <-]. split; [split|]; congruence.
      * intros [[_ Hx] <-]. done.
  - apply NoDup_fmap_2_strong; [|apply NoDup_filter; by eapply NoDup_fmap_1].
    intros x y [_ Hx]%list_elem_of_filter [_ Hy]%list_elem_of_filter.
    by apply (fmap_NoDup_inj pattern (rules r)).
  - apply NoDup_fmap_2_strong; [|apply NoDup_filter; by eapply NoDup_fmap_1].
    intros x y [_ Hx]%list_elem_of_filter [_ Hy]%list_elem_of_filter.
    by apply (fmap_NoDup_inj rule_id (rules r)).
  - intros x [_ Hx]%list_elem_of_filter. by apply Hfresh.
Qed.

(** In a consistent table, [add_handler] with a pattern that compiles
    leaves the rules of the other patterns in place and appends the new
    rule. *)
Lemma add_handler_consistent_eq p t ps r :
  consistent r -> pattern_error p = None ->
  add_handler p t ps r =
    ({| pattern_to_rule := <[p := added_rule p t ps r]> (pattern_to_rule r);
        rules := filter (fun y => pattern y <> p) (rules r)
                   ++ [added_rule p t ps r];
        next_rule := S (next_rule r); router_log := router_log r |}, None).
Proof.
  intros Hc Hp. unfold add_handler. rewrite Hp.
  unfold has_rule, added_rule. case_bool_decide as Hin.
  - rewrite remove_handler_consistent_eq by done. simpl.
    by rewrite insert_delete_eq.
  - rewrite filter_keeps_all; [done|].
    intros y Hy Hyp. apply Hin. exists y. by apply (cons_index r Hc).
Qed.

(** With a pattern that does not compile, [add_handler] ends with the
    exception after the removal. *)
Lemma add_handler_raise_eq p t ps r e :
  pattern_error p = Some e ->
  add_handler p t ps r = (remove_handler p r, Some e).
Proof.
  intros Hp. unfold add_handler. rewrite Hp. f_equal.
  unfold has_rule, remove_handler. case_bool_decide as Hin; [done|].
  destruct (pattern_to_rule r !! p) eqn:Hl; [|done].
  exfalso. apply Hin. by eexists.
Qed.

Lemma add_handler_consistent p t ps r :
  consistent r -> consistent (add_handler p t ps r).1.
Proof.
  intros Hc. destruct (pattern_error p) as [e|] eqn:Hp.
  { rewrite (add_handler_raise_eq p t ps r e) by done.
    by apply remove_handler_consistent. }
  rewrite add_handler_consistent_eq by done. cbn [fst].
  pose proof (remove_handler_consistent p r Hc) as Hr.
  rewrite remove_handler_consistent_eq in Hr by done.
  destruct Hr as [Hidx Hpat Hids Hfresh]. simpl in *.
  split; simpl.
  - intros q x. rewrite elem_of_app, list_elem_of_singleton.
    destruct (decide (p = q)) as [->|Hne].
    + rewrite lookup_insert_eq. split.
      * intros [= <-]. split; [by right|done].
      * intros [[Hx| ->] Hq]; [|done].
        apply list_elem_of_filter in Hx as [Hx _]. done.
    + rewrite lookup_insert_ne by done. rewrite <- lookup_delete_ne with (i := p) by done.
      rewrite Hidx. split.
      * intros [Hx <-]. split; [by left|done].
      * intros [[Hx|Hx] Hq]; [done|]. subst x. simpl in Hq. done.
  - rewrite fmap_app. apply NoDup_app. split; [done|]. split; [|apply NoDup_singleton].
    intros q Hq [= ->]%list_elem_of_singleton. simpl in Hq.
    apply list_elem_of_fmap in Hq as (y & Hy & [Hne _]%list_elem_of_filter). done.
  - rewrite fmap_app. apply NoDup_app. split; [done|]. split; [|apply NoDup_singleton].
    intros q Hq [= ->]%list_elem_of_singleton. simpl in Hq.
    apply list_elem_of_fmap in Hq as (y & Hy & Hin). apply Hfresh in Hin. lia.
  - intros x [Hx| ->%list_elem_of_singleton]%elem_of_app; simpl; [|lia].
    apply Hfresh in Hx. lia.
Qed.

Lemma reachable_consistent r : reachable r -> consistent r.
Proof.
  induction 1; auto using consistent_init, add_handler_consistent,
    remove_handler_consistent.
Qed.

(** Every pattern that has a rule in a reachable table compiles. *)
Lemma reachable_accepted r p :
  reachable r -> has_rule p r = true -> pattern_error p = None.
Proof.
  intros Hr. revert p.
  induction Hr as [|p0 t ps r Hr IH|p0 r Hr IH]; intros p.
  - unfold has_rule. simpl. rewrite lookup_empty.
    intros [? ?]%bool_decide_eq_true. done.
  - pose proof (reachable_consistent r Hr) as Hc.
    destruct (pattern_error p0) as [e|] eqn:Hp0.
    + rewrite (add_handler_raise_eq p0 t ps r e) by done. cbn [fst].
      rewrite remove_handler_consistent_eq by done.
      unfold has_rule. simpl. intros [x Hx]%bool_decide_eq_true.
      apply lookup_delete_Some in Hx as [_ Hx]. apply IH.
      unfold has_rule. apply bool_decide_eq_true. by exists x.
    + rewrite add_handler_consistent_eq by done. cbn [fst].
      unfold has_rule. simpl. intros [x Hx]%bool_decide_eq_true.
      destruct (decide (p0 = p)) as [<-|Hne]; [done|].
      rewrite lookup_insert_ne in Hx by done. apply IH.
      unfold has_rule. apply bool_decide_eq_true. by exists x.
  - pose proof (reachable_consistent r Hr) as Hc.
    rewrite remove_handler_consistent_eq by done.
    unfold has_rule. simpl. intros [x Hx]%bool_decide_eq_true.
    apply lookup_delete_Some in Hx as [_ Hx]. apply IH.
    unfold has_rule. apply bool_decide_eq_true. by exists x.
Qed.

(** In a reachable table a pattern that does not compile has no rule, so
    [add_handler] raises and leaves the table as it was. *)
Lemma add_handler_rejects p t ps r e :
  reachable r -> pattern_error p = Some e ->
  add_handler p t ps r = (r, Some e).
Proof.
  intros Hr Hp. rewrite (add_handler_raise_eq p t ps r e) by done. f_equal.
  unfold remove_handler.
  destruct (pattern_to_rule r !! p) as [x|] eqn:Hl; [|done].
  assert (pattern_error p = None) as Hn; [|congruence].
  apply (reachable_accepted r); [done|].
  unfold has_rule. apply bool_decide_eq_true. by exists x.
Qed.

(** The rules after two successive registrations of one pattern. *)
Lemma add_handler_twice_rules p t1 ps1 t2 ps2 r :
  consistent r -> pattern_error p = None ->
  rules (add_handler p t2 ps2 (add_handler p t1 ps1 r).1).1 =
    filter (fun y => pattern y <> p) (rules r)
      ++ [added_rule p t2 ps2 (add_handler p t1 ps1 r).1].
Proof.
  intros Hc Hp.
  rewrite (add_handler_consistent_eq p t2 ps2)
    by (try done; by apply add_handler_consistent).
  cbn [rules fst]. f_equal.
  rewrite (add_handler_consistent_eq p t1 ps1) by done. cbn [rules fst].
  rewrite filter_app, filter_cons_False by (simpl; intros Hn; by apply Hn).
  rewrite filter_nil, app_nil_r.
  apply filter_keeps_all. by intros x [Hx _]%list_elem_of_filter.
Qed.

(** C4, as the code has it.  For a pattern the framework compiles, after
    two successive [add_handler] calls with it, neither of which raises,
    the rule list holds exactly one rule for the pattern, the rule of the
    second call; the index points to it; the rule of the first call is
    gone; a lookup of a path the pattern matches always resolves, never to
    the first rule, and to the second rule exactly when no rule of another
    pattern matches the path: the rules of the other patterns precede the
    new one and win; and no state of the table, before, between or after
    the calls, or after the removal inside the second call, has two rules
    of one pattern.  For a pattern the framework does not compile the call
    raises and leaves the table as it was. *)
Theorem add_handler_twice_last_wins p t1 ps1 t2 ps2 r :
  reachable r ->
  (pattern_error p = None ->
   let r1 := (add_handler p t1 ps1 r).1 in
   let r2 := (add_handler p t2 ps2 r1).1 in
   let first := added_rule p t1 ps1 r in
   let second := added_rule p t2 ps2 r1 in
   (add_handler p t1 ps1 r).2 = None /\ (add_handler p t2 ps2 r1).2 = None /\
   rules_for p r2 = [second] /\
   target second = t2 /\ target_params second = ps2 /\
   pattern_to_rule r2 !! p = Some second /\
   first ∈ rules r1 /\ (first ∉ rules r2) /\
   (forall path, path_matches p path = true ->
      exists x, find_handler path_matches path r2 = Some x /\ x <> first /\
                (pattern x = p -> x = second)) /\
   (forall path, path_matches p path = true ->
      (find_handler path_matches path r2 = Some second <->
       forall y, y ∈ rules r2 -> pattern y <> p ->
                 path_matches (pattern y) path = false)) /\
   NoDup (pattern <$> rules r) /\ NoDup (pattern <$> rules r1) /\
   NoDup (pattern <$> rules (remove_handler p r1)) /\
   NoDup (pattern <$> rules r2)) /\
  (forall e, pattern_error p = Some e ->
             add_handler p t1 ps1 r = (r, Some e)).
Proof.
  intros Hr. split; [|intros e He; by apply add_handler_rejects].
  intros Hp r1 r2 first second.
  pose proof (reachable_consistent r Hr) as Hc.
  pose proof (add_handler_consistent p t1 ps1 r Hc) as Hc1.
  pose proof (add_handler_consistent p t2 ps2 r1 Hc1) as Hc2.
  assert (rules r2 = filter (fun y => pattern y <> p) (rules r) ++ [second])
    as Hrules by by apply add_handler_twice_rules.
  assert (rules r1 = filter (fun y => pattern y <> p) (rules r) ++ [first])
    as Hrules1.
  { subst r1. by rewrite (add_handler_consistent_eq p t1 ps1) by done. }
  assert (rule_id first < rule_id second) as Hlt.
  { subst first second r1. rewrite (add_handler_consistent_eq p t1 ps1) by done.
    simpl. lia. }
  assert (first ∉ rules r2) as Hgone.
  { rewrite Hrules. intros [Hin|Hin]%elem_of_app.
    - apply list_elem_of_filter in Hin as [Hne _]. by apply Hne.
    - apply list_elem_of_singleton in Hin. rewrite Hin in Hlt. lia. }
  assert (rules_for p r2 = [second]) as Hone.
  { unfold rules_for. rewrite Hrules, filter_app.
    rewrite filter_drops_all.
    - by rewrite filter_cons_True, filter_nil by done.
    - intros x [Hx _]%list_elem_of_filter. done. }
  assert (forall x, x ∈ rules r2 -> pattern x = p -> x = second) as Honly.
  { intros x Hx Hpx.
    assert (x ∈ rules_for p r2) as Hin by by apply list_elem_of_filter.
    rewrite Hone in Hin. by apply list_elem_of_singleton in Hin. }
  assert (second ∈ rules r2) as Hsec.
  { rewrite Hrules. apply elem_of_app. right. by apply list_elem_of_singleton. }
  split; [by rewrite (add_handler_consistent_eq p t1 ps1)|].
  split; [subst r2; by rewrite (add_handler_consistent_eq p t2 ps2)|].
  repeat split; try done.
  - rewrite (cons_index r2 Hc2). done.
  - rewrite Hrules1. apply elem_of_app. right. by apply list_elem_of_singleton.
  - intros path Hm. unfold find_handler.
    destruct (list_find (fun x => path_matches (pattern x) path = true) (rules r2))
      as [[i x]|] eqn:Hf.
    + apply list_find_Some in Hf as (Hi & Hx & _).
      apply list_elem_of_lookup_2 in Hi.
      exists x. simpl. repeat split; [|by apply Honly]. by intros ->.
    + exfalso. apply list_find_None in Hf.
      rewrite Forall_forall in Hf. by apply (Hf second).
  - unfold find_handler.
    destruct (list_find (fun x => path_matches (pattern x) path = true) (rules r2))
      as [[i x]|] eqn:Hf; [|done].
    simpl. intros [= ->] y Hy Hyp.
    apply list_find_Some in Hf as (Hi & _ & Hbefore).
    assert (i = length (filter (fun y => pattern y <> p) (rules r))) as ->.
    { eapply NoDup_lookup; [eapply NoDup_fmap_1, (cons_patterns r2 Hc2)|exact Hi|].
      rewrite Hrules. by rewrite list_lookup_middle. }
    rewrite Hrules in Hy. apply elem_of_app in Hy as [Hy|Hy].
    + apply list_elem_of_lookup in Hy as [j Hj].
      pose proof (lookup_lt_Some _ _ _ Hj) as Hjlt.
      destruct (path_matches (pattern y) path) eqn:Hmy; [|done].
      exfalso. apply (Hbefore j y); [|done|done].
      rewrite Hrules. by apply lookup_app_l_Some.
    + apply list_elem_of_singleton in Hy. subst y. done.
  - intros Hothers. unfold find_handler.
    destruct (list_find (fun x => path_matches (pattern x) path = true) (rules r2))
      as [[i x]|] eqn:Hf.
    + apply list_find_Some in Hf as (Hi & Hx & _).
      apply list_elem_of_lookup_2 in Hi. simpl. f_equal.
      apply Honly; [done|]. destruct (decide (pattern x = p)) as [|Hne]; [done|].
      rewrite (Hothers x Hi Hne) in Hx. done.
    + exfalso. apply list_find_None in Hf.
      rewrite Forall_forall in Hf. by apply (Hf second).
  - apply (cons_patterns r Hc).
  - apply (cons_patterns r1 Hc1).
  - apply (cons_patterns _ (remove_handler_consistent p r1 Hc1)).
  - apply (cons_patterns r2 Hc2).
Qed.

End RouterFacts.

Section PyFacts.
Import Py.

Lemma dict_get_set_eq k v d : dict_get k (dict_set k v d) = Some v.
Proof.
  induction d as [|[k' v'] d IH]; simpl.
  - by rewrite decide_True.
  - destruct (decide (k' = k)) as [->|Hne]; simpl.
    + by rewrite decide_True.
    + by rewrite decide_False.
Qed.

Lemma dict_get_set_ne k k' v d :
  k <> k' -> dict_get k' (dict_set k v d) = dict_get k' d.
Proof.
  intros Hne. induction d as [|[k0 v0] d IH]; simpl.
  - by rewrite decide_False.
  - destruct (decide (k0 = k)) as [->|Hk]; simpl.
    + by rewrite !decide_False.
    + destruct (decide (k0 = k')); [done|apply IH].
Qed.

Lemma dict_get_Some_keys k v d : dict_get k d = Some v -> k ∈ dict_keys d.
Proof.
  induction d as [|[k' v'] d IH]; simpl; [done|].
  destruct (decide (k' = k)) as [->|Hne]; intros Hg.
  - apply elem_of_cons. by left.
  - apply elem_of_cons. right. by apply IH.
Qed.

Lemma dict_get_None_keys k d : dict_get k d = None <-> k ∉ dict_keys d.
Proof.
  induction d as [|[k' v'] d IH]; simpl.
  - split; [intros _; apply not_elem_of_nil|done].
  - rewrite not_elem_of_cons. destruct (decide (k' = k)) as [->|Hne].
    + split; [done|]. intros [Hk _]. done.
    + rewrite IH. split; [|by intros [_ Hk]]. intros Hk. split; [congruence|done].
Qed.

Lemma rsplit1_app sep name hint :
  rsplit1 sep hint = None ->
  rsplit1 sep (name +:+ String sep hint) = Some (name, hint).
Proof.
  intros Hh. induction name as [|c name IH]; simpl.
  - by rewrite Hh, decide_True.
  - by rewrite IH.
Qed.

Lemma rsplit1_Some sep s a b :
  rsplit1 sep s = Some (a, b) -> s = a +:+ String sep b /\ rsplit1 sep b = None.
Proof.
  revert a. induction s as [|c s IH]; intros a; simpl; [done|].
  destruct (rsplit1 sep s) as [[a' b']|] eqn:Hr.
  - intros [= <- <-]. destruct (IH a' eq_refl) as [-> Hb]. done.
  - destruct (decide (c = sep)) as [->|]; [|done]. by intros [= <- <-].
Qed.

Lemma split_nonempty sep s : split sep s <> [].
Proof.
  destruct s as [|c s]; simpl; [done|].
  destruct (decide (c = sep)); [done|]. by destruct (split sep s).
Qed.

(** [split] cuts at every separator and at nothing else. *)
Lemma join_split sep s : join (String sep EmptyString) (split sep s) = s.
Proof.
  induction s as [|c s IH]; [done|]. simpl.
  pose proof (split_nonempty sep s) as Hs.
  destruct (split sep s) as [|h t]; [done|]. clear Hs.
  unfold join in *.
  destruct (decide (c = sep)) as [->|Hne]; simpl in *.
  - by rewrite IH.
  - destruct t; simpl in *; by rewrite <- IH.
Qed.

Lemma split_no_sep sep s :
  Forall (fun piece => has_char sep piece = false) (split sep s).
Proof.
  induction s as [|c s IH]; simpl; [by repeat constructor|].
  pose proof (split_nonempty sep s) as Hs.
  destruct (decide (c = sep)) as [->|Hne].
  - by constructor.
  - destruct (split sep s) as [|h t]; [done|].
    apply Forall_cons in IH as [Hh Ht]. constructor; [|done].
    simpl. by rewrite bool_decide_eq_false_2.
Qed.

End PyFacts.

Section DispatchFacts.
Import Py Dispatch.
Context `{Builtins} `{ServerErrorClass}.

Lemma dict_keys_set k k' v d :
  k' ∈ dict_keys (dict_set k v d) <-> k' = k \/ k' ∈ dict_keys d.
Proof.
  destruct (decide (k' ∈ dict_keys d)) as [Hin|Hout];
    destruct (decide (k' = k)) as [->|Hne].
  - split; [by left|]. intros _.
    eapply dict_get_Some_keys, dict_get_set_eq.
  - split; [by right|]. intros _.
    destruct (dict_get k' (dict_set k v d)) eqn:Hg;
      [by eapply dict_get_Some_keys|].
    rewrite dict_get_set_ne in Hg by done. by apply dict_get_None_keys in Hg.
  - split; [by left|]. intros _.
    eapply dict_get_Some_keys, dict_get_set_eq.
  - split; [|by intros [|]]. intros Hk. exfalso.
    apply dict_get_None_keys in Hout.
    rewrite <- (dict_get_set_ne k k' v) in Hout by done.
    by apply dict_get_None_keys in Hout.
Qed.

Lemma excluded_no_colon k : k ∈ EXCLUDED_ARGS -> rsplit1 ":" k = None.
Proof.
  unfold EXCLUDED_ARGS. rewrite !elem_of_cons, elem_of_nil.
  intros [->|[->|[->|[->|[]]]]]; reflexivity.
Qed.

Lemma arg_name_hinted name hint :
  rsplit1 ":" hint = None -> arg_name (name +:+ ":" +:+ hint) = Some name.
Proof.
  intros Hh. unfold arg_name.
  change (name +:+ ":" +:+ hint) with (name +:+ String ":" hint).
  rewrite decide_False.
  - by rewrite rsplit1_app.
  - intros Hin%excluded_no_colon. by rewrite rsplit1_app in Hin.
Qed.

(** A stored reserved name can only come from a hinted key. *)
Lemma arg_name_reserved key k :
  arg_name key = Some k -> k ∈ EXCLUDED_ARGS ->
  exists hint, key = k +:+ ":" +:+ hint.
Proof.
  unfold arg_name. case_decide as Hex; [done|].
  destruct (rsplit1 ":" key) as [[name hint]|] eqn:Hr.
  - intros [= ->] _. apply rsplit1_Some in Hr as [-> _]. by exists hint.
  - intros [= ->] Hk. done.
Qed.

Lemma default_step_get args kv name :
  arg_name kv.1 <> Some name ->
  dict_get name (default_step args kv) = dict_get name args.
Proof.
  destruct kv as [key val]. unfold default_step, arg_name. simpl.
  case_decide; [done|].
  destruct (rsplit1 ":" key) as [[n hint]|]; intros Hne;
    apply dict_get_set_ne; congruence.
Qed.

Lemma default_fold_get l args name :
  Forall (fun kv => arg_name kv.1 <> Some name) l ->
  dict_get name (fold_left default_step l args) = dict_get name args.
Proof.
  revert args. induction l as [|kv l IH]; intros args Hall; [done|].
  apply Forall_cons in Hall as [Hkv Hl]. simpl.
  rewrite IH by done. by apply default_step_get.
Qed.

Lemma default_fold_keys l args k :
  k ∈ dict_keys (fold_left default_step l args) ->
  k ∈ dict_keys args \/ exists key val, (key, val) ∈ l /\ arg_name key = Some k.
Proof.
  revert args. induction l as [|[key val] l IH]; intros args; simpl; [by left|].
  intros [Hk|(key' & val' & Hin & Hn)]%IH.
  - unfold default_step in Hk.
    destruct (decide (key ∈ EXCLUDED_ARGS)) as [Hex|Hex]; [by left|].
    destruct (rsplit1 ":" key) as [[n hint]|] eqn:Hr;
      apply dict_keys_set in Hk as [->|Hk]; try by left.
    + right. exists key, val. split; [apply elem_of_cons; by left|].
      unfold arg_name. by rewrite decide_False, Hr.
    + right. exists key, val. split; [apply elem_of_cons; by left|].
      unfold arg_name. by rewrite decide_False, Hr.
  - right. exists key', val'. split; [apply elem_of_cons; by right|done].
Qed.

Lemma object_fold_keys l args k :
  k ∈ dict_keys (fold_left object_step l args) ->
  k ∈ dict_keys args \/ ((k ∉ EXCLUDED_ARGS) /\ k ∈ l.*1).
Proof.
  revert args. induction l as [|[key val] l IH]; intros args; simpl; [by left|].
  intros [Hk|[Hne Hin]]%IH.
  - unfold object_step in Hk.
    destruct (decide (key ∈ EXCLUDED_ARGS)) as [Hex|Hex]; [by left|].
    destruct (decide (val = ""));
      apply dict_keys_set in Hk as [->|Hk]; try (by left);
      right; (split; [done|apply elem_of_cons; by left]).
  - right. split; [done|apply elem_of_cons; by right].
Qed.

Lemma object_fold_get l args key val :
  NoDup l.*1 -> (key, val) ∈ l -> key ∉ EXCLUDED_ARGS ->
  dict_get key (fold_left object_step l args) =
    Some (if decide (val = "") then VNone
          else VList (VStr <$> split "," val)).
Proof.
  revert args. induction l as [|[k0 v0] l IH]; intros args Hnd Hin Hex.
  - by apply not_elem_of_nil in Hin.
  - rewrite fmap_cons in Hnd. apply NoDup_cons in Hnd as [Hk0 Hnd].
    simpl in Hk0. cbn [fold_left].
    apply elem_of_cons in Hin as [[= -> ->]|Hin]; [|by apply IH].
    assert (dict_get k0 (fold_left object_step l
              (object_step args (k0, v0))) =
            dict_get k0 (object_step args (k0, v0))) as ->.
    { clear IH Hnd. revert Hk0. generalize (object_step args (k0, v0)).
      induction l as [|[k1 v1] l IHl]; intros d Hk0; [done|]. simpl.
      rewrite fmap_cons, not_elem_of_cons in Hk0. destruct Hk0 as [Hne Hk0].
      simpl in Hne. rewrite IHl by done. unfold object_step.
      repeat case_decide; try done; by rewrite dict_get_set_ne. }
    unfold object_step. rewrite decide_False by done.
    case_decide; by rewrite dict_get_set_eq.
Qed.

Lemma hint_no_colon hint :
  hint ∈ ["int"; "float"; "bool"; "json"] -> rsplit1 ":" hint = None.
Proof.
  rewrite !elem_of_cons, elem_of_nil.
  intros [->|[->|[->|[->|[]]]]]; reflexivity.
Qed.

(** C8: a query key [<name>:<hint>] with a hint of the table is stored
    under [<name>] with the value its converter returns ([int], [float],
    the comparison of the lowered text with [true], [json.loads]); when
    the converter raises, the string itself is stored; the parser is a
    total function, so nothing is raised either way.  The key is the
    last one of the request stored under [<name>]. *)
Theorem default_parser_type_hint h pre post name hint val :
  arguments (request h) = pre ++ (name +:+ ":" +:+ hint, val) :: post ->
  hint ∈ ["int"; "float"; "bool"; "json"] ->
  Forall (fun kv => arg_name kv.1 <> Some name) post ->
  dict_get name (_default_parser h) = Some (_convert_type val hint) /\
  (hint = "int" ->
     _convert_type val hint =
       match py_int val with Some z => VInt z | None => VStr val end) /\
  (hint = "float" ->
     _convert_type val hint =
       match py_float val with Some f => VFloat f | None => VStr val end) /\
  (hint = "bool" ->
     _convert_type val hint = VBool (bool_decide (str_lower val = "true"))) /\
  (hint = "json" ->
     _convert_type val hint =
       match json_loads val with Ok v => v | Raise _ => VStr val end).
Proof.
  intros Hargs Hhint Hpost. split.
  - unfold _default_parser. rewrite Hargs, fold_left_app. cbn [fold_left].
    rewrite default_fold_get by done.
    unfold default_step.
    pose proof (arg_name_hinted name hint (hint_no_colon hint Hhint)) as Hn.
    unfold arg_name in Hn. case_decide; [done|].
    change (name +:+ ":" +:+ hint) with (name +:+ String ":" hint).
    rewrite rsplit1_app by by apply hint_no_colon.
    apply dict_get_set_eq.
  - unfold _convert_type, type_funcs.
    repeat split; intros ->; simpl; repeat case_match; congruence.
Qed.

(** C9: in object mode the parser returns a mapping whose only key is
    [objects]; under it every query key outside the excluded ones, and no
    other key, is mapped to [None] when its value is the empty string and
    otherwise to the list of the pieces of the value between its commas. *)
Theorem object_parser_shape h :
  NoDup (arguments (request h)).*1 ->
  need_object_parser h = true ->
  _parse_query h = [("objects", VDict (object_args h))] /\
  (forall key val,
     (key, val) ∈ arguments (request h) -> key ∉ EXCLUDED_ARGS ->
     dict_get key (object_args h) =
       Some (if decide (val = "") then VNone
             else VList (VStr <$> split "," val))) /\
  (forall key, key ∈ dict_keys (object_args h) ->
     (key ∉ EXCLUDED_ARGS) /\ key ∈ (arguments (request h)).*1) /\
  (forall val, join "," (split "," val) = val /\
     Forall (fun piece => has_char "," piece = false) (split "," val)).
Proof.
  intros Hnd Hmode. split; [|split; [|split]].
  - unfold _parse_query. by rewrite Hmode.
  - intros key val Hin Hex. by apply object_fold_get.
  - intros key [Hk|Hk]%object_fold_keys; [|done].
    by apply not_elem_of_nil in Hk.
  - intros val. split; [apply join_split|apply split_no_sep].
Qed.

Lemma path_fold_keys kw args k :
  k ∈ dict_keys (fold_left path_step kw args) ->
  k ∈ dict_keys args \/ exists v, (k, Some v) ∈ kw.
Proof.
  revert args. induction kw as [|[k0 [v0|]] kw IH]; intros args; simpl;
    [by left| |].
  - intros [Hk|[v Hv]]%IH.
    + unfold path_step in Hk. simpl in Hk.
      apply dict_keys_set in Hk as [->|Hk]; [|by left].
      right. exists v0. apply elem_of_cons. by left.
    + right. exists v. apply elem_of_cons. by right.
  - intros [Hk|[v Hv]]%IH; [by left|].
    right. exists v. apply elem_of_cons. by right.
Qed.

Lemma dict_update_keys d m k :
  k ∈ dict_keys (dict_update d m) <-> k ∈ dict_keys d \/ k ∈ dict_keys m.
Proof.
  unfold dict_update. revert d.
  induction m as [|[k0 v0] m IH]; intros d; simpl.
  - split; [by left|]. intros [|Hk]; [done|]. by apply not_elem_of_nil in Hk.
  - rewrite IH, dict_keys_set.
    change (dict_keys ((k0, v0) :: m)) with (k0 :: dict_keys m).
    rewrite elem_of_cons. tauto.
Qed.

(** C1, as the code has it: the reserved keys are filtered out of the
    query arguments only.  A query argument whose key is a reserved key
    adds nothing in either parser, and the mapping nested under [objects]
    never holds one.  A reserved key is in the mapping [parse_args]
    returns only when a path-captured parameter of that name is set, or
    the JSON body is an object with that key (or is not an object), or, in
    default mode, a query key carries the reserved name before a hint. *)
Theorem parse_args_reserved_origin h args k :
  parse_args h = Ok args ->
  k ∈ EXCLUDED_ARGS ->
  (forall a v, default_step a (k, v) = a /\ object_step a (k, v) = a) /\
  (k ∉ dict_keys (object_args h)) /\
  (k ∈ dict_keys args ->
   (exists v, (k, Some v) ∈ path_kwargs h) \/
   (is_json h = true /\
    exists kvs, json_loads (body (request h)) = Ok (VDict kvs) /\
                k ∈ dict_keys kvs) \/
   (is_json h = true /\
    exists x, json_loads (body (request h)) = Ok x /\
              ((exists s, x = VStr s) \/ (exists l, x = VList l))) \/
   (need_object_parser h = false /\
    exists hint val, (k +:+ ":" +:+ hint, val) ∈ arguments (request h))).
Proof.
  intros Hp Hk. split.
  { intros a v. unfold default_step, object_step. by rewrite !decide_True. }
  split.
  { intros [Hin|[Hne _]]%object_fold_keys; [|done].
    by apply not_elem_of_nil in Hin. }
  intros Hin. unfold parse_args, bind in Hp.
  destruct (_parse_query_raises h); [done|].
  assert (k ∈ dict_keys (_parse_query h) ->
          need_object_parser h = false /\
          exists hint val, (k +:+ ":" +:+ hint, val) ∈ arguments (request h))
    as Hquery.
  { unfold _parse_query. destruct (need_object_parser h).
    - unfold _object_parser, dict_keys. simpl.
      intros ->%list_elem_of_singleton. exfalso. revert Hk.
      unfold EXCLUDED_ARGS. rewrite !elem_of_cons, elem_of_nil.
      intros [?|[?|[?|[?|[]]]]]; done.
    - intros [Hnil|(key & val & Hkv & Hname)]%default_fold_keys.
      + by apply not_elem_of_nil in Hnil.
      + split; [done|]. destruct (arg_name_reserved key k Hname Hk) as [hint ->].
        by exists hint, val. }
  destruct (is_json h) eqn:Hj.
  - destruct (json_loads (body (request h))) as [loaded|e] eqn:Hl.
    + destruct loaded as [| | | |str|l|kvs]; simpl in Hp; try done.
      * right. right. left. split; [done|]. exists (VStr str). eauto.
      * right. right. left. split; [done|]. exists (VList l). eauto.
      * injection Hp as <-.
        apply path_fold_keys in Hin as [Hin|Hin]; [|by left].
        apply dict_update_keys in Hin as [Hin|Hin].
        -- right. right. right. by apply Hquery.
        -- right. left. split; [done|]. by exists kvs.
    + destruct e; try done. injection Hp as <-.
      apply path_fold_keys in Hin as [Hin|Hin]; [|by left].
      right. right. right. by apply Hquery.
  - injection Hp as <-.
    apply path_fold_keys in Hin as [Hin|Hin]; [|by left].
    right. right. right. by apply Hquery.
Qed.

End DispatchFacts.

Section FilesFacts.
Import Py Files.

(** A read loop that is given the number of bytes to deliver, all of them
    in the file, delivers exactly them and ends normally. *)
Lemma read_chunks_exact fuel file pos r :
  (0 <= r)%Z -> pos + Z.to_nat r <= length file -> Z.to_nat r < fuel ->
  exists chunks,
    read_chunks fuel file pos (Some r) = Some (chunks, None) /\
    concat chunks = take (Z.to_nat r) (drop pos file).
Proof.
  revert pos r. induction fuel as [|fuel IH]; intros pos r Hr Hlen Hfuel; [lia|].
  cbn [read_chunks].
  set (cs := if (r <? 64 * 1024)%Z then r else (64 * 1024)%Z).
  assert (0 <= cs <= r)%Z as Hcs by (subst cs; case_match; lia).
  assert (file_read cs pos file = Ok (take (Z.to_nat cs) (drop pos file)))
    as Hread.
  { unfold file_read. destruct (Z.ltb_spec cs (-1)); [lia|].
    destruct (Z.ltb_spec cs 0); [lia|done]. }
  rewrite Hread.
  assert (length (take (Z.to_nat cs) (drop pos file)) = Z.to_nat cs) as Hl.
  { rewrite length_take, length_drop. lia. }
  destruct (take (Z.to_nat cs) (drop pos file)) as [|b chunk] eqn:Hchunk.
  - simpl in Hl. assert (r = 0%Z) as ->.
    { subst cs. case_match; lia. }
    exists []. split; [by rewrite decide_True|done].
  - destruct (IH (pos + length (b :: chunk)) (r - Z.of_nat (length (b :: chunk)))%Z)
      as (chunks & Hrec & Hcat); [lia|lia|simpl in *; lia|].
    cbn [fmap option_fmap option_map]. rewrite Hrec.
    exists ((b :: chunk) :: chunks). split; [done|].
    cbn [concat]. rewrite Hcat, !Hl, <- Hchunk.
    replace (Z.to_nat (r - Z.of_nat (Z.to_nat cs))) with (Z.to_nat r - Z.to_nat cs) by lia.
    rewrite <- drop_drop, take_take_drop. f_equal. lia.
Qed.

Lemma get_content_whole file a :
  a = None \/ a = Some 0%Z ->
  exists chunks,
    get_content_nonblock file a (Some (Z.of_nat (length file))) = Some (chunks, None) /\
    concat chunks = file.
Proof.
  intros Ha. unfold get_content_nonblock.
  assert (match a with Some s => Z.to_nat s | None => 0 end = 0) as ->
    by by destruct Ha as [->| ->].
  assert (or_else a 0 = 0%Z) as -> by by destruct Ha as [->| ->].
  cbn [fmap option_fmap option_map]. rewrite Z.sub_0_r.
  destruct (read_chunks_exact (S (length file)) file 0 (Z.of_nat (length file)))
    as (chunks & Hrun & Hcat); [lia|lia|lia|].
  exists chunks. split; [done|].
  rewrite Hcat, Nat2Z.id, drop_0. apply take_ge. lia.
Qed.

(** C5, for a file that is not empty: a range that spans the whole
    resource is answered with status 200, no [Content-Range], the length
    of the file as [Content-Length], and, unless the body is left out, the
    whole content in chunks. *)
Theorem whole_range_served_as_200 q range :
  path_valid q = true -> not_modified q = false ->
  request_range q = Some range ->
  spans_whole (Z.of_nat (length (content q))) range ->
  (0 < Z.of_nat (length (content q)))%Z ->
  exists chunks,
    concat chunks = content q /\
    get q = Some {| status := 200; content_type := None;
                    content_range := None;
                    content_length := Some (Z.of_nat (length (content q)));
                    written := if include_body q then chunks else [];
                    raised := None |}.
Proof.
  intros Hv Hm Hr [Hstart Hend] Hsize. destruct range as [start end_].
  simpl in Hstart, Hend.
  destruct (get_content_whole (content q) _ Hstart) as (chunks & Hrun & Hcat).
  exists chunks. split; [done|].
  unfold get. unfold path_valid in Hv.
  destruct (validate_absolute_path q) as [[abs|]|err]; try done.
  rewrite Hm, Hr.
  set (size := Z.of_nat (length (content q))) in *.
  set (a := adjust_start size start) in *.
  assert (not_satisfiable size a end_ = false) as ->.
  { unfold not_satisfiable.
    destruct Hstart as [->| ->]; destruct Hend as [->|(e & -> & He)]; simpl;
      repeat (apply orb_false_intro); try done; lia. }
  set (end2 := match end_ with
               | Some e => Some (if (size <? e)%Z then size else e)
               | None => None end).
  assert (end2 = None \/ end2 = Some size) as Hend2.
  { subst end2. destruct Hend as [->|(e & -> & He)]; [by left|right].
    f_equal. case_match; lia. }
  assert (or_else end2 size = size) as Hoe.
  { destruct Hend2 as [->| ->]; simpl; [done|]. case_match; lia. }
  assert (or_else a 0 = 0%Z) as Hoa by by destruct Hstart as [->| ->].
  rewrite Hoe, Hoa. rewrite decide_False by lia.
  unfold send. fold size.
  destruct Hstart as [->| ->]; destruct Hend2 as [->| ->]; fold size in Hrun;
    rewrite ?Z.sub_0_r; cbn [content_length status content_type
      content_range written raised initial]; rewrite Hrun;
    by destruct (include_body q).
Qed.

(** C6: a start at or beyond the size once adjusted, an exclusive end at
    or before the start (a last byte before the first), or an end of zero
    (the suffix of length zero) is answered with status 416, the header
    [Content-Range: bytes */<size>] and nothing written. *)
Theorem unsatisfiable_range_is_416 q start end_ :
  path_valid q = true -> not_modified q = false ->
  request_range q = Some (start, end_) ->
  ((exists s, adjust_start (Z.of_nat (length (content q))) start = Some s /\
              (Z.of_nat (length (content q)) <= s)%Z) \/
   (exists s e, adjust_start (Z.of_nat (length (content q))) start = Some s /\
                end_ = Some e /\ (e <= s)%Z) \/
   end_ = Some 0%Z) ->
  get q = Some {| status := 416; content_type := Some "text/plain";
                  content_range :=
                    Some ("bytes */" +:+ str_of_Z (Z.of_nat (length (content q))));
                  content_length := None; written := []; raised := None |}.
Proof.
  intros Hv Hm Hr Hbad. unfold get. unfold path_valid in Hv.
  destruct (validate_absolute_path q) as [[abs|]|err]; try done.
  rewrite Hm, Hr.
  assert (not_satisfiable (Z.of_nat (length (content q)))
            (adjust_start (Z.of_nat (length (content q))) start) end_ = true)
    as ->; [|done].
  unfold not_satisfiable.
  destruct Hbad as [(s & -> & Hs)|[(s & e & -> & -> & He)| ->]].
  - apply orb_true_intro. left. apply orb_true_intro. left. lia.
  - apply orb_true_intro. left. apply orb_true_intro. right. lia.
  - apply orb_true_intro. by right.
Qed.

End FilesFacts.

Section UploadFacts.
Import Py Upload.
Context `{Builtins} `{FileManager}.

Lemma append_assoc (a b c : string) : (a +:+ b) +:+ c = a +:+ b +:+ c.
Proof.
  induction a as [|x a IH]; [done|].
  change (String x ((a +:+ b) +:+ c) = String x (a +:+ b +:+ c)). by f_equal.
Qed.

Lemma append_empty_r (a : string) : a +:+ "" = a.
Proof.
  induction a as [|x a IH]; [done|].
  change (String x (a +:+ "") = String x a). by f_equal.
Qed.

Lemma mismatch_message_contains recd calc :
  contains recd (mismatch_message recd calc) /\
  contains calc (mismatch_message recd calc).
Proof.
  unfold contains, mismatch_message. split.
  - by exists "File checksum mismatch: expected ", (", calculated " +:+ calc).
  - exists ("File checksum mismatch: expected " +:+ recd +:+ ", calculated "), "".
    by rewrite append_empty_r, !append_assoc.
Qed.

Lemma os_remove_gone p fs : (os_remove p fs).1 = fs ∖ {[p]}.
Proof.
  unfold os_remove. case_decide as Hin; simpl; [done|].
  apply set_eq. intros x. rewrite elem_of_difference, elem_of_singleton.
  split; [|by intros [? _]]. intros Hx. split; [done|]. by intros ->.
Qed.

Lemma add_field_error name val a e :
  add_field name val a = Raise e -> e = UnicodeDecodeError.
Proof.
  unfold add_field, bind, decode. case_decide; [done|].
  destruct (utf8_from 0 128 191 val); [done|]. by intros [= <-].
Qed.

Lemma form_args_error t e :
  form_args_of t = Raise e -> e = UnicodeDecodeError.
Proof.
  unfold form_args_of, bind.
  destruct (add_field "root" (root t) []) as [a1|e1] eqn:H1;
    [|intros [= <-]; by eapply add_field_error].
  destruct (add_field "print" (print t) a1) as [a2|e2] eqn:H2;
    [|intros [= <-]; by eapply add_field_error].
  destruct (add_field "path" (path t) a2) as [a3|e3] eqn:H3;
    [done|intros [= <-]; by eapply add_field_error].
Qed.

(** The arguments of [finalize_upload] always name the temporary file. *)
Lemma form_args_tmp_file t form_args :
  form_args_of t = Ok form_args ->
  dict_get "tmp_file_path" form_args = Some (VStr (filename t)).
Proof.
  unfold form_args_of, bind.
  destruct (add_field "root" (root t) []) as [a1|]; [|done].
  destruct (add_field "print" (print t) a1) as [a2|]; [|done].
  destruct (add_field "path" (path t) a2) as [a3|]; [|done].
  intros [= <-]. apply dict_get_set_eq.
Qed.

(** Whether a field is taken into the arguments or ends [post]. *)
Lemma add_field_cases name val a :
  ((val = "" \/ decode val = Ok val) /\ exists a', add_field name val a = Ok a') \/
  (~ (val = "" \/ decode val = Ok val) /\
   add_field name val a = Raise UnicodeDecodeError).
Proof.
  unfold add_field, decode, bind. case_decide as Hv.
  - left. split; [by left|by eexists].
  - destruct (utf8_from 0 128 191 val).
    + left. split; [by right|by eexists].
    + right. split; [|done]. by intros [|].
Qed.


(** Every way out of [post]: a field that does not decode (nothing is
    removed and [finalize_upload] is not called), the checksum mismatch
    (the temporary file is removed), or the call of [finalize_upload]. *)
Lemma post_exit_paths t fs :
  post t fs = (fs, Raise UnicodeDecodeError) \/
  (exists msg, post t fs = (fs ∖ {[filename t]}, Raise (ServerError msg 422))) \/
  (exists form_args,
      form_args_of t = Ok form_args /\
      dict_get "tmp_file_path" form_args = Some (VStr (filename t)) /\
      post t fs =
        match finalize_upload form_args fs with
        | (fs', Raise (ServerError msg code)) =>
            (fs', Raise (HTTPError code (Some msg)))
        | other => other
        end).
Proof.
  assert (hand_over t fs = (fs, Raise UnicodeDecodeError) \/
          exists form_args,
            form_args_of t = Ok form_args /\
            dict_get "tmp_file_path" form_args = Some (VStr (filename t)) /\
            hand_over t fs =
              match finalize_upload form_args fs with
              | (fs', Raise (ServerError msg code)) =>
                  (fs', Raise (HTTPError code (Some msg)))
              | other => other
              end) as Hhand.
  { unfold hand_over. destruct (form_args_of t) as [fa|e] eqn:Hfa.
    - right. exists fa. split; [done|]. split; [|done].
      by apply form_args_tmp_file.
    - left. by rewrite (form_args_error t e Hfa). }
  unfold post. case_decide as Hc.
  - destruct Hhand as [Hh|Hh]; [by left|right; by right].
  - unfold decode. destruct (utf8_from 0 128 191 (checksum t)).
    + case_decide.
      * right. left. eexists. by rewrite os_remove_gone.
      * destruct Hhand as [Hh|Hh]; [by left|right; by right].
    + by left.
Qed.

(** C2 at its failing input: with a checksum field that is not UTF-8 text
    (the single byte 0xff) [post] ends with the decoding error, whatever
    the file manager is: nothing is removed and [finalize_upload] is not
    called, so the temporary file, neither handed over nor deleted,
    stays. *)
Theorem undecodable_checksum_leaves_temp_file fs :
  let t := Examples.upload_not_text in
  post t ({[filename t]} ∪ fs) = ({[filename t]} ∪ fs, Raise UnicodeDecodeError) /\
  filename t ∈ (post t ({[filename t]} ∪ fs)).1.
Proof.
  intros t.
  assert (post t ({[filename t]} ∪ fs)
          = ({[filename t]} ∪ fs, Raise UnicodeDecodeError)) as Hpost
    by reflexivity.
  split; [done|]. rewrite Hpost. simpl.
  apply elem_of_union. left. by apply elem_of_singleton.
Qed.

End UploadFacts.

Section AppFacts.
Import Py App.
Context {Callback T : Type} `{Builtins} `{@APITransport Callback T}.
Context `{Router.PathMatches}.
Variable default_status_code : Z.

Local Abbreviation MoonrakerApp := (@MoonrakerApp Callback T).
Local Abbreviation APIDefinition := (@APIDefinition Callback).

Implicit Types (app : MoonrakerApp) (ts : list (string * T)).

(** When no hook raises, every transport goes through the hook. *)
Lemma for_each_transport_all hook ts :
  Forall (fun nt => (hook nt.2).2 = None) ts ->
  for_each_transport hook (fun _ => true) ts =
    ((fun nt => (nt.1, (hook nt.2).1)) <$> ts, None).
Proof.
  induction ts as [|[name t] ts IH]; intros Hall; [done|].
  apply Forall_cons in Hall as [Ht Hts]. simpl in *.
  destruct (hook t) as [t' e]. simpl in Ht. subst e.
  by rewrite IH.
Qed.

(** When a hook raises, the exception ends the loop: the transports
    before the failing one went through the hook, those after it are as
    they were. *)
Lemma for_each_transport_raise hook ts1 name t e ts2 :
  Forall (fun nt => (hook nt.2).2 = None) ts1 ->
  (hook t).2 = Some e ->
  for_each_transport hook (fun _ => true) (ts1 ++ (name, t) :: ts2) =
    (((fun nt => (nt.1, (hook nt.2).1)) <$> ts1) ++ (name, (hook t).1) :: ts2,
     Some e).
Proof.
  intros Hall He. induction ts1 as [|[n1 t1] ts1 IH]; simpl.
  - destruct (hook t) as [t' e']. simpl in He. by subst e'.
  - apply Forall_cons in Hall as [Ht Hts]. simpl in Ht.
    destruct (hook t1) as [t1' e1]. simpl in Ht. subst e1.
    by rewrite IH.
Qed.

(** C3, as the code has it: [remove_handler] pops the definition, removes
    the route rule of its uri, then calls the removal hook of the
    transports in order; an exception of a hook is the outcome of
    [remove_handler], and the transports after the one that raised are
    left as they were; when no hook raises all of them are called. *)
Theorem remove_handler_fan_out ep api_def app :
  api_cache app !! ep = Some api_def ->
  let out := remove_handler ep app in
  api_cache out.1 = delete ep (api_cache app) /\
  mutable_router out.1 = Router.remove_handler (uri api_def) (mutable_router app) /\
  registered_base_handlers out.1 = registered_base_handlers app /\
  (Forall (fun nt => (remove_api_handler api_def nt.2).2 = None)
          (api_transports app) ->
   out.2 = None /\
   api_transports out.1 =
     (fun nt => (nt.1, (remove_api_handler api_def nt.2).1)) <$> api_transports app) /\
  (forall ts1 name t e ts2,
     api_transports app = ts1 ++ (name, t) :: ts2 ->
     Forall (fun nt => (remove_api_handler api_def nt.2).2 = None) ts1 ->
     (remove_api_handler api_def t).2 = Some e ->
     out.2 = Some e /\
     api_transports out.1 =
       ((fun nt => (nt.1, (remove_api_handler api_def nt.2).1)) <$> ts1)
         ++ (name, (remove_api_handler api_def t).1) :: ts2).
Proof.
  intros Hc out. subst out. unfold remove_handler. rewrite Hc.
  cbn [api_transports with_router with_cache].
  destruct (for_each_transport (remove_api_handler api_def) (fun _ => true)
              (api_transports app)) as [ts' e'] eqn:Hloop.
  cbn [fst snd with_transports with_router with_cache api_cache
       mutable_router registered_base_handlers api_transports].
  split; [done|]. split; [done|]. split; [done|]. split.
  - intros Hall. rewrite for_each_transport_all in Hloop by done.
    by injection Hloop as <- <-.
  - intros ts1 name t e ts2 Hts Hall He.
    rewrite Hts, (for_each_transport_raise _ _ _ _ e) in Hloop by done.
    by injection Hloop as <- <-.
Qed.

(** The definition [_create_api_definition] builds for a remote
    endpoint. *)
Lemma create_remote_definition ep app :
  ep <> "" -> api_cache app !! ep = None ->
  _create_api_definition default_status_code ep [] None ALL_TRANSPORTS app =
    let api_def :=
      {| endpoint := ep; uri := uri_of ep true;
         jrpc_methods := [replace "/" "." (tail (uri_of ep true))];
         request_methods := ["GET"; "POST"];
         supported_transports := ALL_TRANSPORTS;
         callback := None;
         need_object_parser := startswith ep "objects/" |} in
    (with_cache (<[ep := api_def]> (api_cache app)) app, Ok api_def).
Proof.
  intros Hne Hc. unfold _create_api_definition. rewrite Hc.
  by rewrite decide_False.
Qed.

(** C10, as the code has it: [register_local_handler] with a uri that is
    already among the base handlers changes nothing; with the uri of
    its endpoint already among the base handlers,
    [register_remote_handler] changes nothing but the cache, where it
    adds the definition of the endpoint when the endpoint has none, and
    changes nothing at all when the endpoint has one. *)
Theorem duplicate_uri_registration app :
  (forall u request_methods (cb : Callback) transports wrap_result,
     u ∈ registered_base_handlers app ->
     register_local_handler default_status_code u request_methods cb
       transports wrap_result app = (app, None)) /\
  (forall ep,
     ep ∉ RESERVED_ENDPOINTS -> ep <> "" ->
     api_cache app !! ep = None ->
     uri_of ep true ∈ registered_base_handlers app ->
     exists api_def : APIDefinition,
       endpoint api_def = ep /\ uri api_def = uri_of ep true /\
       register_remote_handler default_status_code ep app =
         (with_cache (<[ep := api_def]> (api_cache app)) app, None)) /\
  (forall ep api_def,
     api_cache app !! ep = Some api_def ->
     uri api_def ∈ registered_base_handlers app ->
     register_remote_handler default_status_code ep app = (app, None)).
Proof.
  repeat split.
  - intros u ms cb trs wrap Hin. unfold register_local_handler.
    by rewrite decide_True.
  - intros ep Hres Hne Hc Hdup. eexists. split; [|split]; cycle 2.
    + unfold register_remote_handler. rewrite decide_False by done.
      rewrite create_remote_definition by done. cbn zeta.
      cbn [uri with_cache registered_base_handlers].
      rewrite decide_True by done. reflexivity.
    + done.
    + done.
  - intros ep api_def Hc Hdup. unfold register_remote_handler.
    case_decide; [done|]. unfold _create_api_definition. rewrite Hc.
    by rewrite decide_True.
Qed.

End AppFacts.

(* ===================================================================== *)
(** * The worked examples *)
(* ===================================================================== *)

Section Worked.
Import Py Examples MoreExamples.

#[local] Existing Instance Examples.builtins.
#[local] Existing Instance Examples.recording.
#[local] Existing Instance Examples.moving_manager.
#[local] Existing Instance Examples.regex.
#[local] Existing Instance Examples.server_error.

(** ** The route table *)

Lemma add_handler_twice_last_wins_witness :
  Router.reachable (@Router.init string nat) /\
  Router.pattern_error "/server/info" = None /\
  Router.rules_for "/server/info"
    (Router.add_handler "/server/info" "new" None
       (Router.add_handler "/server/info" "old" None
          (@Router.init string nat)).1).1
  = [Router.mkRule 1 "/server/info" "new" None].
Proof.
  split; [apply Router.reach_init|]. split; [reflexivity|].
  exact (proj1 (proj2 (proj2 (proj1
           (add_handler_twice_last_wins matches "/server/info"
              "old" None "new" None (@Router.init string nat)
              Router.reach_init) eq_refl)))).
Defined.

(** C4 as stated does not hold: in a table whose first rule matches every
    path under [/a/], after two registrations of [/a/b] the lookup of
    [/a/b], which the pattern matches, resolves to the first rule of the
    table and not to the target of the second call. *)
Lemma earlier_overlapping_rule_wins :
  Router.reachable wide_first /\
  Router.pattern_error "/a/b" = None /\
  matches "/a/b" "/a/b" = true /\
  Router.rules_for "/a/b" wide_first_twice = [Router.mkRule 2 "/a/b" "new" None] /\
  Router.find_handler matches "/a/b" wide_first_twice =
    Some (Router.mkRule 0 "/a/(.*)" "wide" None) /\
  ~ (forall (path_matches : string -> string -> bool) p t1 ps1 t2 ps2
            (r : @Router.MutableRouter string nat) path,
       Router.reachable r -> Router.pattern_error p = None ->
       path_matches p path = true ->
       Router.target <$>
         Router.find_handler path_matches path
           (Router.add_handler p t2 ps2 (Router.add_handler p t1 ps1 r).1).1
         = Some t2).
Proof.
  assert (Router.reachable wide_first) as Hr
    by apply Router.reach_add, Router.reach_init.
  split; [exact Hr|]. split; [reflexivity|]. split; [reflexivity|].
  split; [reflexivity|]. split; [reflexivity|].
  intros Hclaim.
  specialize (Hclaim matches "/a/b" "old" None "new" None wide_first "/a/b"
                Hr eq_refl eq_refl).
  discriminate Hclaim.
Qed.

(** ** Argument parsing *)

Example count_int_5 : Dispatch._default_parser count_5 = [("count", VInt 5)].
Proof. reflexivity. Qed.

Example count_int_abc :
  Dispatch._default_parser count_abc = [("count", VStr "abc")].
Proof. reflexivity. Qed.

Lemma default_parser_type_hint_witness :
  Dispatch.arguments (Dispatch.request count_5)
    = [] ++ ("count" +:+ ":" +:+ "int", "5") :: [] /\
  "int" ∈ ["int"; "float"; "bool"; "json"] /\
  Forall (fun kv : string * string => Dispatch.arg_name kv.1 <> Some "count") [] /\
  dict_get "count" (Dispatch._default_parser count_5) = Some (VInt 5).
Proof.
  assert ("int" ∈ ["int"; "float"; "bool"; "json"]) as Hhint by constructor.
  split; [reflexivity|]. split; [exact Hhint|]. split; [constructor|].
  exact (proj1 (default_parser_type_hint count_5 [] [] "count" "int" "5"
                  eq_refl Hhint (Forall_nil_2 _))).
Defined.

Lemma object_parser_shape_witness :
  NoDup (Dispatch.arguments (Dispatch.request objects_query)).*1 /\
  Dispatch.need_object_parser objects_query = true /\
  Dispatch._parse_query objects_query =
    [("objects", VDict [("toolhead", VList [VStr "position"; VStr "status"]);
                        ("extruder", VNone)])].
Proof.
  assert (NoDup (Dispatch.arguments (Dispatch.request objects_query)).*1) as Hnd.
  { apply (@bool_decide_unpack _ (NoDup_dec _)). vm_compute. exact I. }
  split; [exact Hnd|]. split; [reflexivity|].
  exact (proj1 (object_parser_shape objects_query Hnd eq_refl)).
Defined.

(** C1 as stated does not hold: a reserved key that comes in the JSON
    body, or as a path-captured parameter, is in the mapping
    [parse_args] returns. *)
Lemma parse_args_keeps_reserved_key :
  "token" ∈ Dispatch.EXCLUDED_ARGS /\
  Dispatch.parse_args token_in_body
    = Ok [("name", VStr "x"); ("token", VStr "x")] /\
  Dispatch.parse_args token_in_path = Ok [("token", VStr "abc")] /\
  ~ (forall (B : Builtins) h args k,
       Dispatch.parse_args h = Ok args -> k ∈ Dispatch.EXCLUDED_ARGS ->
       k ∉ dict_keys args).
Proof.
  assert ("token" ∈ Dispatch.EXCLUDED_ARGS) as Hk by (do 1 constructor; constructor).
  split; [exact Hk|]. split; [reflexivity|]. split; [reflexivity|].
  intros Hclaim.
  apply (Hclaim builtins token_in_path [("token", VStr "abc")] "token" eq_refl Hk).
  constructor.
Qed.

Lemma parse_args_reserved_origin_witness :
  Dispatch.parse_args token_in_body
    = Ok [("name", VStr "x"); ("token", VStr "x")] /\
  "token" ∈ Dispatch.EXCLUDED_ARGS /\
  ("token" ∉ dict_keys (Dispatch.object_args token_in_body)).
Proof.
  assert ("token" ∈ Dispatch.EXCLUDED_ARGS) as Hk by (do 1 constructor; constructor).
  split; [reflexivity|]. split; [exact Hk|].
  exact (proj1 (proj2 (parse_args_reserved_origin token_in_body
                  [("name", VStr "x"); ("token", VStr "x")] "token" eq_refl Hk))).
Defined.

(** ** Byte ranges *)

(** C5 as stated does not hold for an empty file: [Range: bytes=0-]
    spans the whole of it and is answered with 416. *)
Lemma empty_file_whole_range_is_416 :
  Files.spans_whole 0 (Some 0%Z, None) /\
  Files.get empty_from_0 =
    Some {| Files.status := 416; Files.content_type := Some "text/plain";
            Files.content_range := Some "bytes */0";
            Files.content_length := None; Files.written := [];
            Files.raised := None |}.
Proof. split; [split; [by right|by left]|reflexivity]. Qed.

Lemma whole_range_served_as_200_witness :
  Files.path_valid hi_from_0 = true /\
  Files.not_modified hi_from_0 = false /\
  Files.request_range hi_from_0 = Some (Some 0%Z, None) /\
  Files.spans_whole 2 (Some 0%Z, None) /\
  (0 < 2)%Z /\
  exists chunks,
    concat chunks = hi /\
    Files.get hi_from_0 =
      Some {| Files.status := 200; Files.content_type := None;
              Files.content_range := None;
              Files.content_length := Some 2%Z;
              Files.written := chunks; Files.raised := None |}.
Proof.
  assert (Files.spans_whole 2 (Some 0%Z, None)) as Hs
    by (split; [right; reflexivity|left; reflexivity]).
  split; [reflexivity|]. split; [reflexivity|]. split; [reflexivity|].
  split; [exact Hs|]. split; [lia|].
  exact (whole_range_served_as_200 hi_from_0 (Some 0%Z, None)
           eq_refl eq_refl eq_refl Hs eq_refl).
Defined.

(** [Range: bytes=-0], the suffix of length zero, parses to [(None, 0)]. *)
Example zero_length_suffix_is_416 :
  Files.get (ranged hi (None, Some 0%Z)) =
    Some {| Files.status := 416; Files.content_type := Some "text/plain";
            Files.content_range := Some "bytes */2";
            Files.content_length := None; Files.written := [];
            Files.raised := None |}.
Proof. reflexivity. Qed.

(** [Range: bytes=1-] on the two bytes is partial content. *)
Example last_byte_is_206 :
  Files.get (ranged hi (Some 1%Z, None)) =
    Some {| Files.status := 206; Files.content_type := None;
            Files.content_range := Some "bytes 1-1/2";
            Files.content_length := Some 1%Z;
            Files.written := [[Byte.x69]]; Files.raised := None |}.
Proof. reflexivity. Qed.

Lemma unsatisfiable_range_is_416_witness :
  Files.path_valid hi_from_2 = true /\
  Files.not_modified hi_from_2 = false /\
  Files.request_range hi_from_2 = Some (Some 2%Z, Some 13%Z) /\
  Files.get hi_from_2 =
    Some {| Files.status := 416; Files.content_type := Some "text/plain";
            Files.content_range := Some "bytes */2";
            Files.content_length := None; Files.written := [];
            Files.raised := None |}.
Proof.
  split; [reflexivity|]. split; [reflexivity|]. split; [reflexivity|].
  apply (unsatisfiable_range_is_416 hi_from_2 (Some 2%Z) (Some 13%Z)
           eq_refl eq_refl eq_refl).
  left. exists 2%Z. split; [reflexivity|simpl; lia].
Defined.

(** ** Uploads *)



(** ** The application *)

(** C3 as stated does not hold: the removal hook of the first transport
    raises, the exception is the outcome of [remove_handler], and the
    second transport, whose hook would have dropped the endpoint, still
    serves it. *)
Lemma remove_handler_hook_exception_propagates :
  App.api_transports app_with_info =
    [("websocket", {| handlers := ["info"]; remove_fails := true |});
     ("mqtt", {| handlers := ["info"]; remove_fails := false |})] /\
  (App.remove_handler "info" app_with_info).2 = Some (Error "KeyError") /\
  App.api_transports (App.remove_handler "info" app_with_info).1 =
    [("websocket", {| handlers := ["info"]; remove_fails := true |});
     ("mqtt", {| handlers := ["info"]; remove_fails := false |})] /\
  App.api_cache (App.remove_handler "info" app_with_info).1 !! "info" = None.
Proof. repeat split; reflexivity. Qed.

Lemma remove_handler_fan_out_witness :
  (exists api_def, App.api_cache app_with_info !! "info" = Some api_def) /\
  App.api_cache (App.remove_handler "info" app_with_info).1 =
    delete "info" (App.api_cache app_with_info).
Proof.
  split; [eexists; reflexivity|].
  refine (proj1 (remove_handler_fan_out "info" _ app_with_info _)).
  reflexivity.
Defined.

(** C10 as stated does not hold: registering the remote endpoint a
    second time finds its uri among the base handlers and its definition
    in the cache, and adds nothing to the cache. *)
Lemma register_remote_twice_adds_nothing :
  "/printer/info" ∈ App.registered_base_handlers app_with_info /\
  App.register_remote_handler 400 "info" app_with_info = (app_with_info, None) /\
  App.api_cache (App.register_remote_handler 400 "info" app_with_info).1 =
    App.api_cache app_with_info.
Proof. split; [constructor|]. split; reflexivity. Qed.

Lemma duplicate_uri_registration_witness :
  "/printer/info" ∈ App.registered_base_handlers app_with_local /\
  App.register_local_handler 400 "/printer/info" ["GET"; "POST"] "other"
    App.ALL_TRANSPORTS true app_with_local = (app_with_local, None) /\
  exists api_def,
    App.endpoint api_def = "info" /\ App.uri api_def = "/printer/info" /\
    App.register_remote_handler 400 "info" app_with_local =
      (App.with_cache (<["info" := api_def]> (App.api_cache app_with_local))
         app_with_local, None).
Proof.
  assert ("/printer/info" ∈ App.registered_base_handlers app_with_local) as Hin
    by constructor.
  split; [exact Hin|]. split.
  - exact (proj1 (duplicate_uri_registration 400 app_with_local)
             "/printer/info" ["GET"; "POST"] "other" App.ALL_TRANSPORTS true Hin).
  - refine (proj1 (proj2 (duplicate_uri_registration 400 app_with_local))
              "info" _ _ _ Hin).
    + unfold App.RESERVED_ENDPOINTS. rewrite !not_elem_of_cons.
      repeat split; try discriminate. apply not_elem_of_nil.
    + discriminate.
    + reflexivity.
Defined.

End Worked.


(* ===================================================================== *)
(** * Further properties of the route table *)
(* ===================================================================== *)

Section RouterMore.
Import Py Router.
Context {Target Params : Type} `{PathMatches}.

Local Abbreviation Rule := (@Rule Target Params).
Local Abbreviation MutableRouter := (@MutableRouter Target Params).

Implicit Types (r : MutableRouter) (x y : Rule) (p q : string).

Lemma has_rule_spec p r :
  consistent r ->
  has_rule p r = true <-> exists x, x ∈ rules r /\ pattern x = p.
Proof.
  intros Hc. unfold has_rule. rewrite bool_decide_eq_true. split.
  - intros [x Hx]. exists x. by apply (cons_index r Hc).
  - intros (x & Hx & Hp). exists x. by apply (cons_index r Hc).
Qed.

(** X1: in a table driven through its operations, [remove_handler] drops
    the rule of the pattern and nothing else: the pattern has no rule any
    more, the rules of the other patterns stay in their order, and nothing
    is logged. *)
Theorem remove_handler_drops_only_the_pattern p r :
  reachable r ->
  has_rule p (remove_handler p r) = false /\
  rules (remove_handler p r) = filter (fun y => pattern y <> p) (rules r) /\
  (forall q, q <> p -> has_rule q (remove_handler p r) = has_rule q r) /\
  router_log (remove_handler p r) = router_log r.
Proof.
  intros Hr. pose proof (reachable_consistent r Hr) as Hc.
  rewrite remove_handler_consistent_eq by done.
  split; [|split; [done|split; [|done]]].
  - unfold has_rule. simpl. rewrite lookup_delete_eq.
    apply bool_decide_eq_false. by intros [? ?].
  - intros q Hq. unfold has_rule. simpl. by rewrite lookup_delete_ne.
Qed.

(** X2: [add_handler] with a pattern the framework compiles raises
    nothing and puts the rule of the pattern last: the rules of the other
    patterns keep their order in front of it, so a pattern that is
    registered again moves behind the patterns registered since; the new
    rule is a fresh one, equal to no rule of the table before the call.
    With a pattern the framework does not compile it raises the
    framework's exception and leaves the table as it was. *)
Theorem add_handler_appends p t ps r :
  reachable r ->
  (pattern_error p = None ->
   (add_handler p t ps r).2 = None /\
   rules (add_handler p t ps r).1 =
     filter (fun y => pattern y <> p) (rules r) ++ [added_rule p t ps r] /\
   has_rule p (add_handler p t ps r).1 = true /\
   (forall q, q <> p -> has_rule q (add_handler p t ps r).1 = has_rule q r) /\
   (added_rule p t ps r ∉ rules r)) /\
  (forall e, pattern_error p = Some e ->
     add_handler p t ps r = (r, Some e) /\ has_rule p r = false).
Proof.
  intros Hr. pose proof (reachable_consistent r Hr) as Hc. split.
  - intros Hp. rewrite add_handler_consistent_eq by done. cbn [rules fst snd].
    split; [done|]. split; [done|]. split; [|split].
    + unfold has_rule. simpl. rewrite lookup_insert_eq.
      by apply bool_decide_eq_true.
    + intros q Hq. unfold has_rule. simpl. by rewrite lookup_insert_ne.
    + intros Hin. apply (cons_fresh r Hc) in Hin. simpl in Hin. lia.
  - intros e He. split; [by apply add_handler_rejects|].
    destruct (has_rule p r) eqn:Hh; [|done].
    apply (reachable_accepted r p Hr) in Hh. congruence.
Qed.

(** X3: registering a pattern and removing it again leaves the index and
    the rule list as a removal alone leaves them, and as they were when the
    pattern had no rule. *)
Theorem add_then_remove_handler p t ps r :
  reachable r ->
  let r' := remove_handler p (add_handler p t ps r).1 in
  pattern_to_rule r' = pattern_to_rule (remove_handler p r) /\
  rules r' = rules (remove_handler p r) /\
  (has_rule p r = false ->
   pattern_to_rule r' = pattern_to_rule r /\ rules r' = rules r).
Proof.
  intros Hr r'. subst r'.
  pose proof (reachable_consistent r Hr) as Hc.
  pose proof (add_handler_consistent p t ps r Hc) as Hc1.
  assert (has_rule p r = false ->
          pattern_to_rule (remove_handler p r) = pattern_to_rule r /\
          rules (remove_handler p r) = rules r) as Hsame.
  { intros Hno. unfold has_rule in Hno. apply bool_decide_eq_false in Hno.
    unfold remove_handler.
    destruct (pattern_to_rule r !! p) eqn:Hl; [|done]. exfalso. by apply Hno. }
  assert (pattern_to_rule (remove_handler p (add_handler p t ps r).1) =
            pattern_to_rule (remove_handler p r) /\
          rules (remove_handler p (add_handler p t ps r).1) =
            rules (remove_handler p r)) as [Hidx Hrules].
  { rewrite (remove_handler_consistent_eq p (add_handler p t ps r).1) by done.
    rewrite (remove_handler_consistent_eq p r) by done.
    destruct (pattern_error p) as [e|] eqn:Hp.
    - rewrite (add_handler_raise_eq p t ps r e) by done.
      rewrite remove_handler_consistent_eq by done. cbn [fst pattern_to_rule rules].
      split.
      + apply map_eq. intros q. destruct (decide (p = q)) as [->|Hne].
        * by rewrite !lookup_delete_eq.
        * by rewrite !lookup_delete_ne.
      + apply filter_keeps_all. by intros x [Hx _]%list_elem_of_filter.
    - rewrite add_handler_consistent_eq by done. cbn [fst pattern_to_rule rules].
      split; [by rewrite delete_insert_eq|].
      rewrite filter_app, filter_cons_False by (simpl; intros Hn; by apply Hn).
      rewrite filter_nil, app_nil_r.
      apply filter_keeps_all. by intros x [Hx _]%list_elem_of_filter. }
  split; [done|]. split; [done|].
  intros Hno. rewrite Hidx, Hrules. by apply Hsame.
Qed.

(** X4: in a table driven through its operations the removal from the rule
    list never fails, so nothing is ever logged; [has_rule] holds exactly
    for the patterns of the rules in the list, every rule of the list is
    the one the index holds for its pattern, and no rule is listed twice. *)
Theorem reachable_router_agrees r :
  reachable r ->
  router_log r = [] /\
  (forall p, has_rule p r = true <-> exists x, x ∈ rules r /\ pattern x = p) /\
  (forall x, x ∈ rules r -> pattern_to_rule r !! pattern x = Some x) /\
  NoDup (rules r).
Proof.
  intros Hr. split; [|split; [|split]].
  - induction Hr as [|p t ps r Hr IH|p r Hr IH]; [done| |].
    + destruct (pattern_error p) as [e|] eqn:Hp.
      * rewrite (add_handler_raise_eq p t ps r e) by done. cbn [fst].
        rewrite remove_handler_consistent_eq by by apply reachable_consistent.
        done.
      * rewrite add_handler_consistent_eq
          by (try done; by apply reachable_consistent).
        done.
    + rewrite remove_handler_consistent_eq by by apply reachable_consistent. done.
  - intros p. by apply has_rule_spec, reachable_consistent.
  - intros x Hx. by apply (cons_index r (reachable_consistent r Hr)).
  - eapply NoDup_fmap_1, (cons_patterns r). by apply reachable_consistent.
Qed.

End RouterMore.

(* ===================================================================== *)
(** * Further properties of the application *)
(* ===================================================================== *)

Section AppMore.
Import Py App AppExt.
Context {Callback T : Type} `{Builtins} `{@APITransport Callback T}.
Context `{Router.PathMatches}.
Variable default_status_code : Z.

Local Abbreviation MoonrakerApp := (@MoonrakerApp Callback T).
Local Abbreviation APIDefinition := (@APIDefinition Callback).
Local Abbreviation create := (_create_api_definition default_status_code).
Local Abbreviation register_remote := (register_remote_handler default_status_code).
Local Abbreviation register_local := (register_local_handler default_status_code).

Implicit Types (app : MoonrakerApp) (d : APIDefinition) (ep : string).

Lemma uri_of_slash ep b : ep <> "" -> startswith (uri_of ep b) "/" = true.
Proof.
  intros Hne. unfold uri_of.
  destruct (startswith ep "/") eqn:Hs; [done|]. by destruct b.
Qed.

Lemma local_jrpc_length u ms :
  length (local_jrpc_methods u ms) = if decide (1 < length ms) then length ms else 1.
Proof.
  unfold local_jrpc_methods. case_decide; [by rewrite length_fmap|done].
Qed.

(** The three ways [_create_api_definition] ends: with the cached
    definition, with an exception and nothing changed, or with a new
    definition added to the cache. *)
Lemma create_cases ep ms (cb : option Callback) trs app :
  (exists d, api_cache app !! ep = Some d /\ create ep ms cb trs app = (app, Ok d)) \/
  (api_cache app !! ep = None /\
   exists e, create ep ms cb trs app = (app, Raise e) /\
             (ep = "" \/ (is_Some cb /\ ms = []))) \/
  (api_cache app !! ep = None /\ ep <> "" /\
   exists d,
     create ep ms cb trs app = (with_cache (<[ep := d]> (api_cache app)) app, Ok d) /\
     endpoint d = ep /\ callback d = cb /\ supported_transports d = trs /\
     need_object_parser d = startswith ep "objects/" /\
     match cb with
     | None =>
         uri d = uri_of ep true /\ request_methods d = ["GET"; "POST"] /\
         jrpc_methods d = [replace "/" "." (tail (uri d))]
     | Some _ =>
         uri d = uri_of ep false /\ request_methods d = ms /\ ms <> [] /\
         jrpc_methods d = local_jrpc_methods (uri d) ms /\
         length (jrpc_methods d) = length ms
     end).
Proof.
  unfold _create_api_definition.
  destruct (api_cache app !! ep) as [d|] eqn:Hc; [left; by exists d|right].
  case_decide as Hne; [left; split; [done|eexists; split; [done|by left]]|].
  destruct cb as [cb|]; simpl.
  - case_bool_decide as Hlen; simpl.
    + right. split; [done|]. split; [done|]. eexists. split; [done|]. simpl.
      repeat split; try done.
      intros ->. rewrite local_jrpc_length in Hlen. simpl in Hlen. lia.
    + left. split; [done|]. eexists. split; [done|]. right. split; [done|].
      rewrite local_jrpc_length in Hlen.
      destruct (decide (1 < length ms)) as [Hlong|Hshort]; [done|].
      destruct ms as [|m [|m' ms]]; [done| |]; simpl in *; [done|lia].
  - right. split; [done|]. split; [done|]. eexists. split; [done|]. done.
Qed.

(** X5: the definition of a local endpoint that is new and not empty.
    Its creation fails, with the server's error and nothing changed, when
    no request method is given; otherwise the definition is added to the
    registry with the request methods given, one JSON-RPC method name for
    each of them, and the endpoint, put under [/server/] unless it starts
    with a slash, as its uri. *)
Theorem local_definition_method_names ep ms (cb : Callback) trs app :
  api_cache app !! ep = None -> ep <> "" ->
  (ms = [] ->
   exists msg, create ep ms (Some cb) trs app
               = (app, Raise (ServerError msg default_status_code))) /\
  (ms <> [] ->
   exists d,
     create ep ms (Some cb) trs app
       = (with_cache (<[ep := d]> (api_cache app)) app, Ok d) /\
     request_methods d = ms /\
     length (jrpc_methods d) = length ms /\
     uri d = uri_of ep false /\ startswith (uri d) "/" = true).
Proof.
  intros Hc Hne. split.
  - intros ->. unfold _create_api_definition. rewrite Hc.
    rewrite decide_False by done. simpl. by eexists.
  - intros Hms.
    destruct (create_cases ep ms (Some cb) trs app)
      as [(d & Hd & _)|[(_ & e & _ & [Hemp|[_ Hemp]])|(_ & _ & d & Hd & _ & _ & _ & _ & Hu & Hr & _ & _ & Hl)]].
    + congruence.
    + done.
    + done.
    + exists d. repeat split; try done. rewrite Hu. by apply uri_of_slash.
Qed.

(** The exception of [add_handler] is the one of the pattern. *)
Lemma add_handler_outcome {Target Params} p (t : Target) (ps : option Params) r :
  (Router.add_handler p t ps r).2 = Router.pattern_error p.
Proof. unfold Router.add_handler. by destruct (Router.pattern_error p). Qed.

Lemma with_router_same app : with_router (mutable_router app) app = app.
Proof. by destruct app. Qed.

(** What [register_remote_handler] leaves behind, whatever its hooks do
    and whether the route table raises or not. *)
Lemma register_remote_cases ep app :
  let app' := (register_remote ep app).1 in
  (register_remote ep app = (app, None) \/
   (ep = "" /\ api_cache app !! ep = None /\
    exists e, register_remote ep app = (app, Some e)) \/
   exists d,
     (ep ∉ RESERVED_ENDPOINTS) /\
     (create ep [] None ALL_TRANSPORTS app).2 = Ok d /\
     api_cache app' = api_cache (create ep [] None ALL_TRANSPORTS app).1 /\
     api_cache app' !! ep = Some d /\
     ((uri d ∈ registered_base_handlers app /\
       register_remote ep app = ((create ep [] None ALL_TRANSPORTS app).1, None)) \/
      ((uri d ∉ registered_base_handlers app) /\
       mutable_router app' =
         (Router.add_handler (uri d) DynamicRequestHandler
            (Some (RemoteParams (request_methods d) (endpoint d)
                     (need_object_parser d)))
            (mutable_router app)).1 /\
       ((exists e, Router.pattern_error (uri d) = Some e /\
                   registered_base_handlers app' = registered_base_handlers app /\
                   api_transports app' = api_transports app /\
                   (register_remote ep app).2 = Some e) \/
        (Router.pattern_error (uri d) = None /\
         (registered_base_handlers app' = registered_base_handlers app ++ [uri d]) /\
         (api_transports app', (register_remote ep app).2) =
           for_each_transport (register_api_handler d) (fun _ => true)
             (api_transports app)))))).
Proof.
  intros app'. subst app'. unfold register_remote_handler.
  case_decide as Hres; [by left|].
  assert (forall app0 d,
    registered_base_handlers app0 = registered_base_handlers app ->
    mutable_router app0 = mutable_router app ->
    api_transports app0 = api_transports app ->
    uri d ∉ registered_base_handlers app ->
    let out :=
      match Router.add_handler (uri d) DynamicRequestHandler
              (Some (RemoteParams (request_methods d) (endpoint d)
                       (need_object_parser d))) (mutable_router app0) with
      | (r, Some e) => (with_router r app0, Some e)
      | (r, None) =>
          let app1 := with_router r app0 in
          let app2 := with_base_handlers
                        (registered_base_handlers app1 ++ [uri d]) app1 in
          let '(ts, e) := for_each_transport (register_api_handler d)
                            (fun _ => true) (api_transports app2) in
          (with_transports ts app2, e)
      end in
    api_cache out.1 = api_cache app0 /\
    mutable_router out.1 =
      (Router.add_handler (uri d) DynamicRequestHandler
         (Some (RemoteParams (request_methods d) (endpoint d)
                  (need_object_parser d))) (mutable_router app)).1 /\
    ((exists e, Router.pattern_error (uri d) = Some e /\
                registered_base_handlers out.1 = registered_base_handlers app /\
                api_transports out.1 = api_transports app /\
                out.2 = Some e) \/
     (Router.pattern_error (uri d) = None /\
      (registered_base_handlers out.1 = registered_base_handlers app ++ [uri d]) /\
      (api_transports out.1, out.2) =
        for_each_transport (register_api_handler d) (fun _ => true)
          (api_transports app)))) as Hadd.
  { intros app0 d Hreg Hrt Hts Hnew out. subst out. rewrite Hrt.
    pose proof (add_handler_outcome (uri d) DynamicRequestHandler
                  (Some (RemoteParams (request_methods d) (endpoint d)
                           (need_object_parser d))) (mutable_router app)) as Hout.
    destruct (Router.add_handler _ _ _ _) as [r [e|]]; simpl in Hout.
    - simpl. split; [done|]. split; [done|]. left. by exists e.
    - cbn [api_transports with_base_handlers with_router with_cache
           mutable_router registered_base_handlers].
      rewrite Hts, Hreg.
      destruct (for_each_transport _ _ _) as [ts e] eqn:Hloop. simpl.
      split; [done|]. split; [done|]. right. done. }
  destruct (create_cases ep [] None ALL_TRANSPORTS app)
    as [(d & Hd & ->)|[(Hnone & e & -> & [Hemp|[[? [=]] _]])|(Hnone & _ & d & -> & _)]].
  - right. right. exists d. split; [done|]. split; [done|].
    case_decide as Hdup.
    + split; [done|]. split; [done|]. by left.
    + destruct (Hadd app d eq_refl eq_refl eq_refl Hdup) as (Hc & Hr & Hrest).
      cbv zeta in Hc, Hr, Hrest.
      split; [by rewrite Hc|]. split; [by rewrite Hc|]. right.
      split; [done|]. split; [done|]. done.
  - right. left. split; [done|]. split; [done|]. by exists e.
  - right. right. exists d. split; [done|]. split; [done|].
    cbn [registered_base_handlers with_cache]. case_decide as Hdup.
    + simpl. split; [done|]. split; [by rewrite lookup_insert_eq|]. by left.
    + destruct (Hadd (with_cache (<[ep := d]> (api_cache app)) app) d
                  eq_refl eq_refl eq_refl Hdup) as (Hc & Hr & Hrest).
      cbv zeta in Hc, Hr, Hrest.
      split; [by rewrite Hc|]. split; [by rewrite Hc; simpl; rewrite lookup_insert_eq|].
      right. split; [done|]. split; [done|]. done.
Qed.

(** What [register_local_handler] leaves behind, whatever its hooks do
    and whether the route table raises or not. *)
Lemma register_local_cases u ms (cb : Callback) trs wrap app :
  let app' := (register_local u ms cb trs wrap app).1 in
  (u ∈ registered_base_handlers app /\
   register_local u ms cb trs wrap app = (app, None)) \/
  ((u ∉ registered_base_handlers app) /\
   exists e, register_local u ms cb trs wrap app = (app, Some e)) \/
  ((u ∉ registered_base_handlers app) /\
   exists d,
     (create u ms (Some cb) trs app).2 = Ok d /\
     api_cache app' = api_cache (create u ms (Some cb) trs app).1 /\
     api_cache app' !! u = Some d /\
     mutable_router app' =
       (if decide ("http" ∈ trs) then
          (Router.add_handler u DynamicRequestHandler
             (Some (LocalParams ms cb wrap false)) (mutable_router app)).1
        else mutable_router app) /\
     ((exists e, "http" ∈ trs /\ Router.pattern_error u = Some e /\
                 registered_base_handlers app' = registered_base_handlers app /\
                 api_transports app' = api_transports app /\
                 (register_local u ms cb trs wrap app).2 = Some e) \/
      (("http" ∉ trs \/ Router.pattern_error u = None) /\
       (registered_base_handlers app' = registered_base_handlers app ++ [u]) /\
       (api_transports app', (register_local u ms cb trs wrap app).2) =
         for_each_transport (register_api_handler d)
           (fun name => bool_decide (name ∈ trs)) (api_transports app)))).
Proof.
  intros app'. subst app'. unfold register_local_handler.
  case_decide as Hdup; [by left|right].
  assert (forall app0 d,
    registered_base_handlers app0 = registered_base_handlers app ->
    mutable_router app0 = mutable_router app ->
    api_transports app0 = api_transports app ->
    let out :=
      (let '(r, added) :=
         if decide ("http" ∈ trs) then
           Router.add_handler u DynamicRequestHandler
             (Some (LocalParams ms cb wrap false)) (mutable_router app0)
         else (mutable_router app0, None) in
       match added with
       | Some e => (with_router r app0, Some e)
       | None =>
           let app1 := with_router r app0 in
           let app2 := with_base_handlers
                         (registered_base_handlers app1 ++ [u]) app1 in
           let '(ts, e) := for_each_transport (register_api_handler d)
                             (fun name => bool_decide (name ∈ trs))
                             (api_transports app2) in
           (with_transports ts app2, e)
       end) in
    api_cache out.1 = api_cache app0 /\
    mutable_router out.1 =
      (if decide ("http" ∈ trs) then
         (Router.add_handler u DynamicRequestHandler
            (Some (LocalParams ms cb wrap false)) (mutable_router app)).1
       else mutable_router app) /\
    ((exists e, "http" ∈ trs /\ Router.pattern_error u = Some e /\
                registered_base_handlers out.1 = registered_base_handlers app /\
                api_transports out.1 = api_transports app /\
                out.2 = Some e) \/
     (("http" ∉ trs \/ Router.pattern_error u = None) /\
      (registered_base_handlers out.1 = registered_base_handlers app ++ [u]) /\
      (api_transports out.1, out.2) =
        for_each_transport (register_api_handler d)
          (fun name => bool_decide (name ∈ trs)) (api_transports app)))) as Hadd.
  { intros app0 d Hreg Hrt Hts out. subst out. rewrite Hrt.
    destruct (decide ("http" ∈ trs)) as [Hhttp|Hhttp].
    - pose proof (add_handler_outcome u DynamicRequestHandler
                    (Some (LocalParams ms cb wrap false)) (mutable_router app))
        as Hout.
      destruct (Router.add_handler _ _ _ _) as [r [e|]]; simpl in Hout.
      + simpl. split; [done|]. split; [done|]. left. by exists e.
      + cbn [api_transports with_base_handlers with_router with_cache
             mutable_router registered_base_handlers].
        rewrite Hts, Hreg.
        destruct (for_each_transport _ _ _) as [ts e] eqn:Hloop. simpl.
        split; [done|]. split; [done|]. right. split; [by right|done].
    - cbn [api_transports with_base_handlers with_router with_cache
           mutable_router registered_base_handlers].
      rewrite Hts, Hreg.
      destruct (for_each_transport _ _ _) as [ts e] eqn:Hloop. simpl.
      split; [done|]. split; [done|]. right. split; [by left|done]. }
  destruct (create_cases u ms (Some cb) trs app)
    as [(d & Hd & ->)|[(_ & e & -> & _)|(Hnone & _ & d & -> & _)]].
  - right. split; [done|]. exists d. split; [done|].
    destruct (Hadd app d eq_refl eq_refl eq_refl) as (Hc & Hr & Hrest).
    cbv zeta in Hc, Hr, Hrest.
    split; [by rewrite Hc|]. split; [by rewrite Hc|]. done.
  - left. split; [done|]. by exists e.
  - right. split; [done|]. exists d. split; [done|].
    destruct (Hadd (with_cache (<[u := d]> (api_cache app)) app) d
                eq_refl eq_refl eq_refl) as (Hc & Hr & Hrest).
    cbv zeta in Hc, Hr, Hrest.
    split; [by rewrite Hc|].
    split; [by rewrite Hc; simpl; rewrite lookup_insert_eq|]. done.
Qed.

Lemma well_formed_mono app app' key d :
  well_formed app key d ->
  (forall u, u ∈ registered_base_handlers app -> u ∈ registered_base_handlers app') ->
  well_formed app' key d.
Proof.
  intros (He & Hk & Hs & Hm) Hsub. split; [done|]. split; [done|]. split; [done|].
  destruct (callback d).
  - destruct Hm as (? & ? & ? & Hin). repeat split; try done.
    intros Hp. by apply Hsub, Hin.
  - destruct Hm as (? & ? & ? & ? & Hin). repeat split; try done.
    intros Hp. by apply Hsub, Hin.
Qed.

(** The cache after [_create_api_definition]: the definitions it had, and
    under the endpoint possibly a new one. *)
Lemma create_cache ep ms (cb : option Callback) trs app key d :
  api_cache (create ep ms cb trs app).1 !! key = Some d ->
  api_cache app !! key = Some d \/
  (key = ep /\ api_cache app !! ep = None /\ ep <> "" /\
   (create ep ms cb trs app).2 = Ok d /\ endpoint d = ep /\ callback d = cb /\
   match cb with
   | None =>
       uri d = uri_of ep true /\ request_methods d = ["GET"; "POST"] /\
       jrpc_methods d = [replace "/" "." (tail (uri d))]
   | Some _ =>
       uri d = uri_of ep false /\ request_methods d <> [] /\
       length (jrpc_methods d) = length (request_methods d)
   end).
Proof.
  destruct (create_cases ep ms cb trs app)
    as [(d' & Hd & ->)|[(_ & e & -> & _)|(Hnone & Hne & d' & -> & He & Hcb & _ & _ & Hm)]];
    [by left|by left|].
  simpl. destruct (decide (ep = key)) as [<-|Hk].
  - rewrite lookup_insert_eq. intros [= <-]. right.
    repeat split; try done.
    destruct cb; [|done]. destruct Hm as (? & -> & ? & ? & ?). done.
  - rewrite lookup_insert_ne by done. by left.
Qed.

Lemma create_registered ep ms (cb : option Callback) trs app :
  registered_base_handlers (create ep ms cb trs app).1 =
    registered_base_handlers app.
Proof.
  destruct (create_cases ep ms cb trs app)
    as [(d' & _ & ->)|[(_ & e & -> & _)|(_ & _ & d' & -> & _)]]; done.
Qed.

(** [register_static_file_handler] touches the route table only. *)
Lemma static_effects pattern path isfile isdir force app :
  let app' := (register_static_file_handler pattern path isfile isdir force app).1 in
  api_cache app' = api_cache app /\
  registered_base_handlers app' = registered_base_handlers app /\
  (Router.reachable (mutable_router app) -> Router.reachable (mutable_router app')).
Proof.
  intros app'. subst app'. unfold register_static_file_handler.
  destruct (static_pattern pattern isfile isdir force) as [[pat|]|e]; simpl;
    [|done|done].
  pose proof (Router.reach_add pat FileRequestHandler (Some (StaticParams path))
                (mutable_router app)) as Hreach.
  destruct (Router.add_handler _ _ _ _) as [r e]. simpl in *. done.
Qed.

(** The invariant holds in every reachable application. *)
Lemma reachable_invariant app :
  reachable default_status_code app -> invariant app.
Proof.
  induction 1 as [wsm logfile app Hinit|name t app Hr [IHr IHc]|ep app Hr [IHr IHc]
                 |u ms cb trs wrap app Hr [IHr IHc]
                 |pattern path isfile isdir force app Hr [IHr IHc]
                 |size pattern app Hr [IHr IHc]|ep app Hr [IHr IHc]].
  - assert (forall pattern path app0 app1,
              invariant app0 ->
              or_raise (register_static_file_handler pattern path
                          false false true app0) = Ok app1 ->
              invariant app1) as Hstep.
    { intros pattern path app0 app1 [Hrt Hwf] Hok.
      destruct (static_effects pattern path false false true app0)
        as (Hc & Hreg & Hreach).
      unfold or_raise in Hok.
      destruct (register_static_file_handler _ _ _ _ _ app0) as [app2 [e|]];
        [done|]. injection Hok as <-. simpl in *.
      split; [by apply Hreach|]. intros key d. rewrite Hc. intros Hd.
      eapply well_formed_mono; [by apply Hwf|]. by rewrite Hreg. }
    assert (invariant
              ({| api_cache := ∅; registered_base_handlers := [];
                  mutable_router := Router.init;
                  api_transports := [("websocket", wsm)] |} : MoonrakerApp))
      as Hempty.
    { split; [constructor|]. intros key d. simpl. by rewrite lookup_empty. }
    unfold init, bind in Hinit.
    destruct logfile as [path|].
    + destruct (decide (path = "")); [by eapply Hstep|].
      destruct (or_raise (register_static_file_handler "moonraker.log" _ _ _ _ _))
        as [app0|e] eqn:H0'; [|done].
      eapply Hstep; [|done]. by eapply Hstep.
    + by eapply Hstep.
  - split; [done|]. intros key d Hd. eapply well_formed_mono; [by apply IHc|done].
  - pose proof (register_remote_cases ep app) as Hcases. cbv zeta in Hcases.
    destruct Hcases as [->|[(_ & _ & e & ->)|(d & Hres & Hok & Hcache & Hd & Hrest)]];
      [done|done|].
    assert (forall u, u ∈ registered_base_handlers app ->
                      u ∈ registered_base_handlers (register_remote ep app).1)
      as Hsub.
    { destruct Hrest as [[_ ->]|(_ & _ & [(e & _ & -> & _)|(_ & -> & _)])]; intros u Hu.
      - cbn [fst]. by rewrite create_registered.
      - done.
      - apply elem_of_app. by left. }
    split.
    + destruct Hrest as [[_ ->]|(_ & -> & _)]; [|by constructor].
      destruct (create_cases ep [] None ALL_TRANSPORTS app)
        as [(d' & _ & ->)|[(_ & e & -> & _)|(_ & _ & d' & -> & _)]]; done.
    + intros key d0. rewrite Hcache.
      intros [Hold|(-> & Hnone & Hne & Hok' & He & Hcb & Hu & Hm & Hj)]%create_cache.
      * eapply well_formed_mono; [by apply IHc|done].
      * assert (d0 = d) as -> by congruence.
        split; [done|]. split; [done|]. split; [rewrite Hu; by apply uri_of_slash|].
        rewrite Hcb. repeat split; try done. intros Hpat.
        destruct Hrest as [[Hin Heq]|(_ & _ & [(e & Hbad & _)|(_ & -> & _)])].
        -- rewrite Heq. cbn [fst]. by rewrite create_registered.
        -- congruence.
        -- apply elem_of_app. right. by apply list_elem_of_singleton.
  - pose proof (register_local_cases u ms cb trs wrap app) as Hcases.
    cbv zeta in Hcases.
    destruct Hcases as [[_ ->]|[[_ [e ->]]|(Hnew & d & Hok & Hcache & Hd & Hrt & Hrest)]];
      [done|done|].
    assert (forall v, v ∈ registered_base_handlers app ->
                      v ∈ registered_base_handlers (register_local u ms cb trs wrap app).1)
      as Hsub.
    { destruct Hrest as [(e & _ & _ & -> & _)|(_ & -> & _)]; intros v Hv; [done|].
      apply elem_of_app. by left. }
    split.
    + rewrite Hrt. case_decide; [by constructor|done].
    + intros key d0. rewrite Hcache.
      intros [Hold|(-> & Hnone & Hne & Hok' & He & Hcb & Hu & Hm & Hj)]%create_cache.
      * eapply well_formed_mono; [by apply IHc|done].
      * split; [done|]. split; [done|]. split; [rewrite Hu; by apply uri_of_slash|].
        rewrite Hcb. repeat split; try done. intros Hpat.
        destruct Hrest as [(e & _ & Hbad & _)|(_ & -> & _)]; [congruence|].
        apply elem_of_app. right. by apply list_elem_of_singleton.
  - destruct (static_effects pattern path isfile isdir force app)
      as (Hc & Hreg & Hreach).
    split; [by apply Hreach|]. intros key d. rewrite Hc. intros Hd.
    eapply well_formed_mono; [by apply IHc|]. by rewrite Hreg.
  - unfold register_upload_handler.
    pose proof (Router.reach_add pattern FileUploadHandler
                  (Some (UploadParams size)) (mutable_router app) IHr) as Hreach.
    destruct (Router.add_handler _ _ _ _) as [r e]. simpl in *.
    split; [done|]. intros key d Hd.
    eapply well_formed_mono; [by apply IHc|done].
  - unfold remove_handler. destruct (api_cache app !! ep) as [d|] eqn:Hep; [|done].
    cbn [api_transports with_router with_cache].
    destruct (for_each_transport _ _ _) as [ts e]. simpl. split; [by constructor|].
    intros key d0 Hd0. simpl in Hd0. apply lookup_delete_Some in Hd0 as [_ Hd0].
    eapply well_formed_mono; [by apply IHc|done].
Qed.

(** X6: every application reached from [__init__] through the
    registrations and removals, whether they raised or not, has a route
    table reached through its own operations, and every definition of its
    registry is kept under its endpoint, which is not empty, has a uri
    that starts with a slash, and is either remote, for an endpoint that
    is not reserved, accepting GET and POST through one JSON-RPC method,
    with its uri among the base handlers unless the framework does not
    compile the uri as a pattern, or local, with as many JSON-RPC methods
    as request methods, at least one, and its key among the base handlers
    unless the framework does not compile the key as a pattern. *)
Theorem reachable_app_invariant app :
  reachable default_status_code app -> invariant app.
Proof. apply reachable_invariant. Qed.

(** X7: registering a remote endpoint a second time leaves the
    application as the first registration left it, also when a hook of a
    transport raised during the first; the second call raises nothing,
    unless the uri of the endpoint's definition is a pattern the framework
    does not compile: then the first call has raised the framework's
    exception and the second raises it again. *)
Theorem register_remote_handler_idempotent ep app :
  ep <> "" \/ is_Some (api_cache app !! ep) ->
  let out1 := register_remote_handler default_status_code ep app in
  let out2 := register_remote_handler default_status_code ep out1.1 in
  out2.1 = out1.1 /\
  (out2.2 = None \/
   exists d e,
     api_cache out1.1 !! ep = Some d /\
     Router.pattern_error (uri d) = Some e /\
     out1.2 = Some e /\ out2.2 = Some e).
Proof.
  intros Hep out1 out2. subst out1 out2.
  assert (forall app1 d,
            api_cache app1 !! ep = Some d -> uri d ∈ registered_base_handlers app1 ->
            register_remote ep app1 = (app1, None)) as Hnoop.
  { intros app1 d Hd Hin. unfold register_remote_handler.
    case_decide; [done|]. unfold _create_api_definition. rewrite Hd.
    by rewrite decide_True. }
  pose proof (register_remote_cases ep app) as Hcases. cbv zeta in Hcases.
  destruct Hcases as [Heq|[(-> & Hnone & _)|(d & Hres & Hok & Hcache & Hd & Hrest)]].
  - rewrite Heq. simpl. rewrite Heq. split; [done|by left].
  - destruct Hep as [Hne|[d Hd]]; [done|congruence].
  - destruct Hrest as [[Hin Heq]|(Hnew & Hrt & [(e & Hbad & Hreg & Hts & Hout)|(Hgood & Hreg & _)])].
    + rewrite (Hnoop _ d Hd); [split; [done|by left]|].
      rewrite Heq. cbn [fst]. by rewrite create_registered.
    + set (app1 := (register_remote ep app).1) in *.
      assert (uri d ∉ registered_base_handlers app1) as Hnew1 by by rewrite Hreg.
      assert (Router.has_rule (uri d) (mutable_router app1) = false) as Hno.
      { rewrite Hrt. unfold Router.add_handler. rewrite Hbad. cbn [fst].
        unfold Router.has_rule at 1.
        destruct (Router.has_rule (uri d) (mutable_router app)) eqn:Hh.
        - apply bool_decide_eq_false. unfold Router.remove_handler.
          destruct (Router.pattern_to_rule (mutable_router app) !! uri d) eqn:Hl.
          + destruct (Router.list_remove _ _); simpl; rewrite lookup_delete_eq;
              by intros [? ?].
          + rewrite Hl. by intros [? ?].
        - done. }
      assert (register_remote ep app1 = (app1, Some e)) as Heq2.
      { unfold register_remote_handler. rewrite decide_False by done.
        unfold _create_api_definition. rewrite Hd.
        rewrite decide_False by done.
        unfold Router.add_handler. rewrite Hno, Hbad.
        by rewrite with_router_same. }
      rewrite Heq2. split; [done|]. right. by exists d, e.
    + rewrite (Hnoop _ d Hd); [split; [done|by left]|].
      rewrite Hreg. apply elem_of_app. right. by apply list_elem_of_singleton.
Qed.

Lemma replace_no_char a b s : a <> b -> has_char a (replace a b s) = false.
Proof.
  intros Hab. induction s as [|c s IH]; [done|]. simpl.
  rewrite IH, orb_false_r. apply bool_decide_eq_false.
  case_decide; [by intros ->|done].
Qed.

(** X8: once [remove_handler] has removed an endpoint, registering it
    again does not bring its route back.  For a remote endpoint the new
    registration puts a definition into the cache and changes nothing
    else: the route table stays without a rule for the uri and no
    transport is notified; it returns at the test of the base handlers,
    raising nothing, when the framework compiles the uri as a pattern, and
    otherwise it raises nothing or the framework's exception for the uri.
    For a local endpoint whose key the framework compiles it does nothing
    at all.  The uri was never taken off the base handlers. *)
Theorem removed_endpoint_stays_unrouted ep d app :
  reachable default_status_code app ->
  api_cache app !! ep = Some d ->
  let app1 := (remove_handler ep app).1 in
  registered_base_handlers app1 = registered_base_handlers app /\
  (callback d = None ->
   exists d',
     (register_remote ep app1).1 =
       with_cache (<[ep := d']> (api_cache app1)) app1 /\
     (Router.pattern_error (uri d) = None ->
      register_remote ep app1 =
        (with_cache (<[ep := d']> (api_cache app1)) app1, None)) /\
     ((register_remote ep app1).2 = None \/
      (register_remote ep app1).2 = Router.pattern_error (uri d)) /\
     uri d' = uri d /\
     Router.has_rule (uri d) (mutable_router app1) = false) /\
  (is_Some (callback d) -> Router.pattern_error ep = None ->
   forall ms (cb : Callback) trs wrap,
     register_local ep ms cb trs wrap app1 = (app1, None)).
Proof.
  intros Hr Hd app1.
  destruct (reachable_invariant app Hr) as [Hrt Hwf].
  destruct (Hwf ep d Hd) as (He & Hne & Hs & Hm).
  assert (registered_base_handlers app1 = registered_base_handlers app
          /\ api_cache app1 = delete ep (api_cache app)
          /\ mutable_router app1 = Router.remove_handler (uri d) (mutable_router app))
    as (Hreg & Hcache & Hrouter).
  { subst app1. unfold remove_handler. rewrite Hd.
    cbn [api_transports with_router with_cache].
    by destruct (for_each_transport _ _ _). }
  split; [done|]. split.
  - intros Hcb. rewrite Hcb in Hm. destruct Hm as (Hres & Hu & _ & _ & Hin).
    assert (Router.has_rule (uri d) (mutable_router app1) = false) as Hno.
    { rewrite Hrouter.
      rewrite remove_handler_consistent_eq by by apply reachable_consistent.
      unfold Router.has_rule. simpl. rewrite lookup_delete_eq.
      apply bool_decide_eq_false. by intros [? ?]. }
    assert (exists d',
              uri d' = uri d /\
              register_remote ep app1 =
                (with_cache (<[ep := d']> (api_cache app1)) app1,
                 if decide (uri d ∈ registered_base_handlers app1) then None
                 else Router.pattern_error (uri d))) as (d' & Hd' & Hout).
    { eexists. split; cycle 1.
      - unfold register_remote_handler. rewrite decide_False by done.
        rewrite create_remote_definition
          by (try done; rewrite Hcache; apply lookup_delete_eq).
        cbv zeta. cbn [uri with_cache registered_base_handlers].
        rewrite <- Hu.
        destruct (decide (uri d ∈ registered_base_handlers app1)) as [Hdup|Hdup];
          [reflexivity|].
        destruct (Router.pattern_error (uri d)) as [e|] eqn:Hp.
        + unfold Router.add_handler. cbn [mutable_router with_cache].
          rewrite Hno, Hp. reflexivity.
        + exfalso. apply Hdup. rewrite Hreg. by apply Hin.
      - done. }
    exists d'. rewrite Hout. cbn [fst snd].
    split; [done|]. split; [|split; [|done]].
    + intros Hp. rewrite decide_True; [done|]. rewrite Hreg. by apply Hin.
    + case_decide; [by left|by right].
  - intros [cb0 Hcb] Hp ms cb trs wrap. rewrite Hcb in Hm.
    destruct Hm as (_ & _ & _ & Hin).
    unfold register_local_handler. rewrite decide_True; [done|].
    rewrite Hreg. by apply Hin.
Qed.

(** X9: the registration of a remote endpoint that is new, not reserved
    and written without a leading slash: its definition, with the uri
    [/printer/<endpoint>], GET and POST, and the one JSON-RPC method name
    [printer.<endpoint with dots for slashes>], which holds no slash, is
    put into the cache.  When the framework compiles the uri as a pattern,
    the uri joins the base handlers, the route table gets a rule for it,
    and the transports are notified in order.  When it does not,
    [add_handler] raises its exception, which is the outcome: the
    definition stays in the cache, the route table, the base handlers and
    the transports are as they were. *)
Theorem register_new_remote_endpoint ep app :
  ep ∉ RESERVED_ENDPOINTS -> ep <> "" -> startswith ep "/" = false ->
  api_cache app !! ep = None ->
  ("/printer/" +:+ ep) ∉ registered_base_handlers app ->
  Router.reachable (mutable_router app) ->
  let out := register_remote ep app in
  exists d,
    api_cache out.1 = <[ep := d]> (api_cache app) /\
    endpoint d = ep /\ uri d = "/printer/" +:+ ep /\
    request_methods d = ["GET"; "POST"] /\
    jrpc_methods d = ["printer." +:+ replace "/" "." ep] /\
    has_char "/" ("printer." +:+ replace "/" "." ep) = false /\
    need_object_parser d = startswith ep "objects/" /\
    (Router.pattern_error ("/printer/" +:+ ep) = None ->
     registered_base_handlers out.1 =
       registered_base_handlers app ++ ["/printer/" +:+ ep] /\
     mutable_router out.1 =
       (Router.add_handler (uri d) DynamicRequestHandler
          (Some (RemoteParams ["GET"; "POST"] ep (startswith ep "objects/")))
          (mutable_router app)).1 /\
     Router.has_rule ("/printer/" +:+ ep) (mutable_router out.1) = true /\
     (api_transports out.1, out.2) =
       for_each_transport (register_api_handler d) (fun _ => true)
         (api_transports app)) /\
    (forall e, Router.pattern_error ("/printer/" +:+ ep) = Some e ->
     out.2 = Some e /\
     registered_base_handlers out.1 = registered_base_handlers app /\
     mutable_router out.1 = mutable_router app /\
     api_transports out.1 = api_transports app /\
     Router.has_rule ("/printer/" +:+ ep) (mutable_router out.1) = false).
Proof.
  intros Hres Hne Hslash Hc Hnew Hrt out. subst out.
  assert (has_char "/" ("printer." +:+ replace "/" "." ep) = false) as Hdots.
  { change (has_char "/" ("printer." +:+ replace "/" "." ep))
      with (has_char "/" (replace "/" "." ep)). by apply replace_no_char. }
  unfold register_remote_handler. rewrite decide_False by done.
  rewrite create_remote_definition by done. cbv zeta.
  assert (uri_of ep true = "/printer/" +:+ ep) as Hu
    by (unfold uri_of; by rewrite Hslash).
  cbn [uri endpoint request_methods need_object_parser with_cache
       registered_base_handlers mutable_router]. rewrite Hu.
  rewrite decide_False by done.
  destruct (Router.pattern_error ("/printer/" +:+ ep)) as [e|] eqn:Hp.
  - rewrite (add_handler_rejects _ _ _ _ e) by done.
    eexists. cbn [fst snd api_cache with_transports with_base_handlers with_router
                  with_cache registered_base_handlers mutable_router uri endpoint
                  request_methods jrpc_methods need_object_parser api_transports].
    split; [reflexivity|]. repeat split; try done.
    destruct (Router.has_rule ("/printer/" +:+ ep) (mutable_router app)) eqn:Hh;
      [|done].
    apply (reachable_accepted _ _ Hrt) in Hh. congruence.
  - rewrite add_handler_consistent_eq
      by (try done; by apply reachable_consistent).
    cbn [api_transports with_base_handlers with_router with_cache
         mutable_router registered_base_handlers].
    destruct (for_each_transport _ _ _) as [ts e] eqn:Hloop.
    eexists. cbn [fst snd api_cache with_transports with_base_handlers with_router
                  with_cache registered_base_handlers mutable_router uri endpoint
                  request_methods jrpc_methods need_object_parser api_transports].
    split; [reflexivity|]. repeat split; try done.
    + cbn [uri].
      by rewrite add_handler_consistent_eq
        by (try done; by apply reachable_consistent).
    + unfold Router.has_rule. simpl. rewrite lookup_insert_eq.
      by apply bool_decide_eq_true.
Qed.

Lemma last_char_app_slash s : last_char (s +:+ "/") = Some "/"%char.
Proof.
  induction s as [|c s IH]; [done|].
  change (String c s +:+ "/") with (String c (s +:+ "/")). simpl.
  destruct (s +:+ "/") eqn:Hs; [by destruct s|done].
Qed.

(** X10: the pattern [register_static_file_handler] routes always starts
    with a slash, patterns written without one being put under
    [/server/files/], and ends with a capture: the empty one for a file or
    a forced registration, the capture of any text after a slash for a
    directory.  The pattern goes to [add_handler], whose table and whose
    exception, the one of the framework for a pattern it does not compile,
    are the outcome; a path that is neither a file nor a directory,
    unforced, changes nothing; an empty pattern raises. *)
Theorem static_pattern_shape pattern path isfile isdir force app :
  pattern <> "" ->
  let base := if startswith pattern "/" then pattern
              else "/server/files/" +:+ pattern in
  startswith base "/" = true /\
  (isfile || force = true ->
   static_pattern pattern isfile isdir force = Ok (Some (base +:+ "()"))) /\
  (isfile || force = false -> isdir = true ->
   exists dir, static_pattern pattern isfile isdir force = Ok (Some (dir +:+ "(.*)")) /\
               last_char dir = Some "/"%char /\
               (dir = base \/ dir = base +:+ "/")) /\
  (isfile || force = false -> isdir = false ->
   register_static_file_handler pattern path isfile isdir force app = (app, None)) /\
  (forall pat, static_pattern pattern isfile isdir force = Ok (Some pat) ->
     register_static_file_handler pattern path isfile isdir force app =
       (with_router
          (Router.add_handler pat FileRequestHandler
             (Some (StaticParams path)) (mutable_router app)).1 app,
        Router.pattern_error pat)) /\
  register_static_file_handler "" path isfile isdir force app = (app, Some IndexError).
Proof.
  intros Hne base. destruct pattern as [|c rest]; [done|].
  assert ((if decide (c <> "/"%char) then "/server/files/" +:+ String c rest
           else String c rest) = base) as Hbase.
  { subst base. unfold startswith. cbn [String.prefix].
    destruct (ascii_dec "/" c) as [<-|Hc].
    - rewrite decide_False by (intros Hn; by apply Hn). by destruct rest.
    - rewrite decide_True; [done|]. by intros ->. }
  split; [|split; [|split; [|split; [|split]]]].
  - subst base. by destruct (startswith (String c rest) "/") eqn:Hs.
  - intros Hf. unfold static_pattern. by rewrite Hbase, Hf.
  - intros Hf Hd. unfold static_pattern. rewrite Hbase, Hf, Hd.
    destruct (decide (last_char base <> Some "/"%char)) as [Hl|Hl].
    + eexists. split; [done|]. split; [apply last_char_app_slash|by right].
    + eexists. split; [done|]. split; [|by left].
      destruct (last_char base) as [c'|] eqn:Hlc.
      * destruct (decide (c' = "/"%char)) as [->|Hc']; [done|].
        exfalso. apply Hl. congruence.
      * exfalso. by apply Hl.
  - intros Hf Hd. unfold register_static_file_handler, static_pattern.
    by rewrite Hf, Hd.
  - intros pat Hp. unfold register_static_file_handler. rewrite Hp.
    rewrite <- (add_handler_outcome pat FileRequestHandler
                  (Some (StaticParams path)) (mutable_router app)).
    by destruct (Router.add_handler _ _ _ _).
  - done.
Qed.

End AppMore.

(* ===================================================================== *)
(** * The upload handler: the arguments of the hand-over *)
(* ===================================================================== *)

Section UploadMore.
Import Py Upload.
Context `{Builtins} `{FileManager}.

Lemma add_field_Ok name val a a' :
  add_field name val a = Ok a' ->
  a' = if decide (val = "") then a else dict_set name (VStr val) a.
Proof.
  unfold add_field, decode, bind. case_decide; [congruence|].
  destruct (utf8_from 0 128 191 val); [congruence|done].
Qed.

(** X11: the arguments [post] hands to [finalize_upload].  They hold the
    path of the temporary file and the name the file part carried, each
    of the fields [root], [print] and [path] exactly when it is not
    empty, with its text, and no other key: the checksum is not passed
    on. *)
Theorem form_args_fields t form_args :
  form_args_of t = Ok form_args ->
  dict_get "tmp_file_path" form_args = Some (VStr (filename t)) /\
  dict_get "filename" form_args =
    Some (match multipart_filename t with
          | Some n => VStr n | None => VNone end) /\
  dict_get "root" form_args =
    (if decide (root t = "") then None else Some (VStr (root t))) /\
  dict_get "print" form_args =
    (if decide (print t = "") then None else Some (VStr (print t))) /\
  dict_get "path" form_args =
    (if decide (path t = "") then None else Some (VStr (path t))) /\
  dict_get "checksum" form_args = None /\
  (forall k, k ∈ dict_keys form_args ->
             k ∈ ["root"; "print"; "path"; "filename"; "tmp_file_path"]).
Proof.
  unfold form_args_of, bind.
  destruct (add_field "root" (root t) []) as [a1|] eqn:H1; [|done].
  destruct (add_field "print" (print t) a1) as [a2|] eqn:H2; [|done].
  destruct (add_field "path" (path t) a2) as [a3|] eqn:H3; [|done].
  apply add_field_Ok in H1, H2, H3. intros [= <-]. subst a3 a2 a1.
  destruct (decide (root t = "")), (decide (print t = "")),
    (decide (path t = ""));
    (repeat split; try reflexivity;
     intros k Hk; cbv beta iota in Hk;
     repeat (apply dict_keys_set in Hk as [-> |Hk]);
     rewrite ?elem_of_cons; try tauto; by apply elem_of_nil in Hk).
Qed.

End UploadMore.

(* ===================================================================== *)
(** * The dynamic request handler: the merge and the request itself *)
(* ===================================================================== *)

Section DispatchMore.
Import Py Dispatch Request.
Context `{Builtins} `{ServerErrorClass} {W : Type} `{Backend W}.

Lemma dict_update_get k d m :
  dict_get k (dict_update d m) =
    match assoc_last k m with Some v => Some v | None => dict_get k d end.
Proof.
  unfold dict_update. revert d.
  induction m as [|[k0 v0] m IH]; intros d; [done|].
  cbn [fold_left assoc_last fst snd]. rewrite IH.
  destruct (assoc_last k m); [done|].
  destruct (decide (k0 = k)) as [->|Hne].
  - apply dict_get_set_eq.
  - by apply dict_get_set_ne.
Qed.

Lemma path_fold_get k kw args :
  dict_get k (fold_left path_step kw args) =
    match assoc_last k (path_values kw) with
    | Some v => Some (VStr v)
    | None => dict_get k args
    end.
Proof.
  revert args. induction kw as [|[k0 [v0|]] kw IH]; intros args; [done| |].
  - cbn [fold_left]. rewrite IH. unfold path_values. cbn [omap list_omap snd fst].
    cbn [assoc_last]. fold (path_values kw).
    destruct (assoc_last k (path_values kw)); [done|].
    unfold path_step. cbn [snd fst].
    destruct (decide (k0 = k)) as [->|Hne].
    + apply dict_get_set_eq.
    + by apply dict_get_set_ne.
  - cbn [fold_left]. by rewrite IH.
Qed.

Lemma rsplit1_no_sep sep s : has_char sep s = false -> rsplit1 sep s = None.
Proof.
  induction s as [|c s IH]; [done|]. simpl.
  intros [Hc Hs]%orb_false_elim. rewrite IH by done.
  apply bool_decide_eq_false in Hc. by rewrite decide_False.
Qed.

(** When [_parse_query] raises: some query key outside the excluded ones
    is one [get_argument] raises for. *)
Lemma parse_query_raises_spec h :
  _parse_query_raises h = true <->
  exists key val,
    (key, val) ∈ arguments (request h) /\ (key ∉ EXCLUDED_ARGS) /\
    is_Some (get_argument_error key (argument_errors (request h))).
Proof.
  unfold _parse_query_raises. rewrite existsb_exists. split.
  - intros ([key val] & Hin & Hb). apply andb_prop in Hb as [Hex Herr].
    apply bool_decide_eq_true in Hex, Herr.
    exists key, val. split; [by apply list_elem_of_In|done].
  - intros (key & val & Hin & Hex & Herr). exists (key, val).
    split; [by apply list_elem_of_In|].
    apply andb_true_intro. split; by apply bool_decide_eq_true.
Qed.

(** X12: the precedence of the three sources of arguments.  When
    [get_argument] raises for a query key outside the excluded ones,
    [parse_args] raises the server's error, whatever the body and the path
    hold.  Otherwise, when the body is not JSON, is malformed JSON or is
    a JSON object, [parse_args] returns, and under every key it holds the
    path-captured value when the route captured one, else the value of the
    last entry of that key in the JSON object, else what the query parser
    stored. *)
Theorem parse_args_precedence h kvs :
  body_mapping h = Some kvs ->
  (_parse_query_raises h = true <->
   exists key val,
     (key, val) ∈ arguments (request h) /\ (key ∉ EXCLUDED_ARGS) /\
     is_Some (get_argument_error key (argument_errors (request h)))) /\
  (_parse_query_raises h = true ->
   parse_args h =
     Raise (ServerError
              "Error Parsing Request Arguments. Is the Content-Type correct?"
              error_status_code)) /\
  (_parse_query_raises h = false ->
   exists args,
     parse_args h = Ok args /\
     forall k,
       dict_get k args =
         match assoc_last k (path_values (path_kwargs h)) with
         | Some v => Some (VStr v)
         | None =>
             match assoc_last k kvs with
             | Some v => Some v
             | None => dict_get k (_parse_query h)
             end
         end).
Proof.
  intros Hb. split; [apply parse_query_raises_spec|]. split.
  { intros Hr. unfold parse_args. by rewrite Hr. }
  intros Hr. unfold body_mapping in Hb. unfold parse_args. rewrite Hr.
  destruct (is_json h).
  - destruct (json_loads (body (request h))) as [loaded|e].
    + destruct loaded; try done. injection Hb as ->.
      eexists. split; [done|]. intros k.
      by rewrite path_fold_get, dict_update_get.
    + destruct e; try done. injection Hb as <-.
      eexists. split; [done|]. intros k. by rewrite path_fold_get.
  - injection Hb as <-. eexists. split; [done|]. intros k.
    by rewrite path_fold_get.
Qed.

(** X13: a query key whose text after the last colon is not a hint of the
    table is stored under the text before that colon, which may itself
    hold colons, with its string unconverted. *)
Theorem default_parser_unknown_hint h pre post name hint val :
  arguments (request h) = pre ++ (name +:+ ":" +:+ hint, val) :: post ->
  has_char ":" hint = false ->
  hint ∉ ["int"; "float"; "bool"; "json"] ->
  Forall (fun kv => arg_name kv.1 <> Some name) post ->
  dict_get name (_default_parser h) = Some (VStr val).
Proof.
  intros Hargs Hcolon%rsplit1_no_sep Hhint Hpost.
  unfold _default_parser. rewrite Hargs, fold_left_app. cbn [fold_left].
  rewrite default_fold_get by done. unfold default_step.
  pose proof (arg_name_hinted name hint Hcolon) as Hn.
  unfold arg_name in Hn. case_decide; [done|].
  change (name +:+ ":" +:+ hint) with (name +:+ String ":" hint).
  rewrite rsplit1_app by done. rewrite dict_get_set_eq. f_equal.
  unfold _convert_type, type_funcs.
  rewrite !not_elem_of_cons in Hhint. destruct Hhint as (?&?&?&?&_).
  by rewrite !decide_False.
Qed.

(** X14: the outcomes of a request in the order the handler meets them.
    A method outside the handler's methods is refused with 405 whatever
    the request holds.  With an allowed method, the exception that
    [get_argument] raises for [connection_id], when the request has this
    key, ends the request as it is; then the server's error of
    [parse_args] for a query key that [get_argument] raises for, which is
    not turned into an HTTP error; then, for a JSON body that is a number,
    a boolean or [null], a [TypeError]; all of these before the callback
    is consulted.  An error of the server raised by the callback becomes
    an HTTP error with the same status code and its message; and a result
    is handed over, wrapped under [result] when asked. *)
Theorem process_http_request_outcomes h methods wrap method :
  (method ∉ methods ->
   _process_http_request h methods wrap method = Raise (HTTPError 405 None)) /\
  (forall e,
     get_associated_websocket h = Raise e <->
     is_Some (get_argument "connection_id" (arguments (request h))) /\
     get_argument_error "connection_id" (argument_errors (request h)) = Some e) /\
  (method ∈ methods ->
   forall e, get_associated_websocket h = Raise e ->
     _process_http_request h methods wrap method = Raise e) /\
  (method ∈ methods ->
   forall conn, get_associated_websocket h = Ok conn ->
     (_parse_query_raises h = true ->
      _process_http_request h methods wrap method =
        Raise (ServerError
                 "Error Parsing Request Arguments. Is the Content-Type correct?"
                 error_status_code)) /\
     (_parse_query_raises h = false -> is_json h = true ->
      forall v, json_loads (body (request h)) = Ok v ->
        match v with VNone | VBool _ | VInt _ | VFloat _ => True | _ => False end ->
        parse_args h = Raise TypeError /\
        _process_http_request h methods wrap method = Raise TypeError) /\
     (forall args, parse_args h = Ok args ->
        (forall msg code,
           do_request args conn = Raise (ServerError msg code) ->
           _process_http_request h methods wrap method =
             Raise (HTTPError code (Some msg))) /\
        (forall res,
           do_request args conn = Ok res ->
           _process_http_request h methods wrap method =
             Ok (if wrap then VDict [("result", res)] else res)))).
Proof.
  unfold _process_http_request. split; [|split; [|split]].
  - intros Hm. by rewrite decide_False.
  - intros e. unfold get_associated_websocket.
    destruct (get_argument "connection_id" (arguments (request h))) as [c|].
    + destruct (get_argument_error _ _) as [e'|].
      * split; [intros [= ->]; split; [by eexists|done]|by intros [_ [= ->]]].
      * split; [by destruct (py_int c)|by intros [_ ?]].
    + split; [done|]. by intros [[? ?] _].
  - intros Hm e He. rewrite decide_True by done. by rewrite He.
  - intros Hm conn Hconn. rewrite decide_True by done. rewrite Hconn.
    split; [|split].
    + intros Hr. unfold parse_args. by rewrite Hr.
    + intros Hr Hj v Hv Hscalar.
      assert (parse_args h = Raise TypeError) as ->; [|done].
      unfold parse_args. rewrite Hr, Hj, Hv. by destruct v.
    + intros args Hargs. rewrite Hargs.
      split; [intros msg code ->|intros res ->]; done.
Qed.

End DispatchMore.

(* ===================================================================== *)
(** * The file handler: every request and every satisfiable range *)
(* ===================================================================== *)

Section FilesMore.
Import Py Files.

Lemma file_read_length n pos file chunk :
  file_read n pos file = Ok chunk -> length chunk <= length file - pos.
Proof.
  unfold file_read. destruct (n <? -1)%Z; [done|].
  destruct (n <? 0)%Z; intros [= <-];
    rewrite ?length_take, length_drop; lia.
Qed.

Lemma file_read_at_most n pos file chunk :
  (0 <= n)%Z -> file_read n pos file = Ok chunk -> length chunk <= Z.to_nat n.
Proof.
  intros Hn. unfold file_read.
  destruct (Z.ltb_spec n (-1)); [done|].
  destruct (Z.ltb_spec n 0); [lia|].
  intros [= <-]. rewrite length_take. lia.
Qed.

(** The read loop ends: every turn that goes on has read a byte. *)
Lemma read_chunks_total fuel file pos remaining :
  length file - pos < fuel ->
  exists out, read_chunks fuel file pos remaining = Some out.
Proof.
  revert pos remaining.
  induction fuel as [|fuel IH]; intros pos remaining Hfuel; [lia|].
  cbn [read_chunks].
  set (cs := match remaining with
             | Some r => if (r <? 64 * 1024)%Z then r else (64 * 1024)%Z
             | None => (64 * 1024)%Z
             end).
  destruct (file_read cs pos file) as [[|b chunk]|e] eqn:Hread;
    [by eexists| |by eexists].
  apply file_read_length in Hread. simpl in Hread.
  destruct (IH (pos + length (b :: chunk))
              ((fun r => r - Z.of_nat (length (b :: chunk)))%Z <$> remaining))
    as [[chunks ok] ->]; [simpl; lia|]. by eexists.
Qed.

(** The loop ends with the exception of [read] or with the one of its
    assertion, if with any. *)
Lemma read_chunks_exn fuel file pos remaining chunks e :
  read_chunks fuel file pos remaining = Some (chunks, Some e) ->
  e = ValueError \/ e = Error "AssertionError".
Proof.
  revert pos remaining chunks.
  induction fuel as [|fuel IH]; intros pos remaining chunks; [done|].
  cbn [read_chunks].
  set (cs := match remaining with
             | Some r => if (r <? 64 * 1024)%Z then r else (64 * 1024)%Z
             | None => (64 * 1024)%Z
             end).
  destruct (file_read cs pos file) as [[|b chunk]|e'] eqn:Hread.
  - destruct remaining as [r|]; [|done].
    destruct (decide (r = 0%Z)); [done|]. intros [= _ <-]. by right.
  - destruct (read_chunks fuel file _ _) as [[chunks' e']|] eqn:Hrec; [|done].
    intros [= _ ->]. by eapply IH.
  - intros [= _ ->]. left. unfold file_read in Hread.
    destruct (cs <? -1)%Z; [by injection Hread as <-|].
    by destruct (cs <? 0)%Z.
Qed.

(** No chunk is empty, none is longer than 64 KiB. *)
Lemma read_chunks_bounded fuel file pos remaining chunks ok :
  (forall r, remaining = Some r -> (0 <= r)%Z) ->
  read_chunks fuel file pos remaining = Some (chunks, ok) ->
  Forall (fun c => c <> [] /\ (Z.of_nat (length c) <= 65536)%Z) chunks.
Proof.
  revert pos remaining chunks.
  induction fuel as [|fuel IH]; intros pos remaining chunks Hrem; [done|].
  cbn [read_chunks].
  set (cs := match remaining with
             | Some r => if (r <? 64 * 1024)%Z then r else (64 * 1024)%Z
             | None => (64 * 1024)%Z
             end).
  assert (0 <= cs <= 65536)%Z as Hcs.
  { subst cs. destruct remaining as [r|]; [|lia].
    specialize (Hrem r eq_refl). case_match; lia. }
  assert (forall r, remaining = Some r -> (cs <= r)%Z) as Hle.
  { intros r ->. subst cs. case_match; lia. }
  destruct (file_read cs pos file) as [[|b chunk]|e] eqn:Hchunk.
  - intros [= <- _]. constructor.
  - apply file_read_at_most in Hchunk as Hlen; [|lia].
    destruct (read_chunks fuel file _ _) as [[chunks' ok']|] eqn:Hrec; [|done].
    intros [= <- <-]. constructor.
    + split; [done|]. lia.
    + eapply IH; [|exact Hrec]. intros r' Hr'.
      destruct remaining as [r|]; [|done]. cbn in Hr'. injection Hr' as <-.
      specialize (Hle r eq_refl). cbn [length] in *. lia.
  - intros [= <- _]. constructor.
Qed.

Lemma get_content_total file start end_ :
  exists out, get_content_nonblock file start end_ = Some out.
Proof. unfold get_content_nonblock. apply read_chunks_total. lia. Qed.

(** What [send] adds to a response: the length, and the body if asked. *)
Lemma send_headers q r start end_ :
  exists r',
    send q r start end_ = Some r' /\
    status r' = status r /\ content_type r' = content_type r /\
    content_range r' = content_range r /\
    content_length r' =
      Some (match start, end_ with
            | Some s, Some e => e - s
            | None, Some e => e
            | Some s, None => Z.of_nat (length (content q)) - s
            | None, None => Z.of_nat (length (content q))
            end)%Z /\
    (include_body q = false -> written r' = written r /\ raised r' = raised r) /\
    (forall e, raised r = None -> raised r' = Some e ->
       include_body q = true /\ (e = ValueError \/ e = Error "AssertionError")).
Proof.
  unfold send.
  destruct (include_body q) eqn:Hbody.
  - destruct start as [s|], end_ as [e|];
      match goal with
      | |- context [get_content_nonblock ?f ?a ?b] =>
          destruct (get_content_total f a b) as [[chunks ok] Hrun]
      end; rewrite Hrun;
      (eexists; split; [reflexivity|]);
      cbn [status content_type content_range content_length written raised];
      (do 5 (split; [done|]));
      intros e0 _ ->; (split; [done|]);
      unfold get_content_nonblock in Hrun; by eapply read_chunks_exn.
  - destruct start as [s|], end_ as [e|];
      (eexists; split; [reflexivity|]);
      cbn [status content_type content_range content_length written raised];
      (do 5 (split; [done|]));
      by intros e0 ->.
Qed.

(** A range of [b - a] bytes from [a] that lies in the file. *)
Lemma get_content_exact file start a b :
  (0 <= a <= b)%Z -> (b <= Z.of_nat (length file))%Z ->
  start = Some a \/ (start = None /\ a = 0%Z) ->
  exists chunks,
    get_content_nonblock file start (Some b) = Some (chunks, None) /\
    concat chunks = take (Z.to_nat (b - a)) (drop (Z.to_nat a) file) /\
    Forall (fun c => c <> [] /\ (Z.of_nat (length c) <= 65536)%Z) chunks.
Proof.
  intros Ha Hb Hstart. unfold get_content_nonblock.
  assert (match start with Some s => Z.to_nat s | None => 0 end = Z.to_nat a)
    as -> by by destruct Hstart as [->|[-> ->]].
  assert (or_else start 0 = a) as ->.
  { destruct Hstart as [->|[-> ->]]; [|done]. simpl. case_match; lia. }
  cbn [fmap option_fmap option_map].
  destruct (read_chunks_exact (S (length file)) file (Z.to_nat a) (b - a)%Z)
    as (chunks & Hrun & Hcat); [lia|lia|lia|].
  exists chunks. split; [done|]. split; [done|].
  eapply read_chunks_bounded; [|exact Hrun]. intros r [= <-]. lia.
Qed.

(** X15: [get] answers every request: the read loop ends, whatever the
    range.  When [validate_absolute_path] raises, [get] ends with its
    exception and has set and written nothing; when it returns no path,
    [get] returns at once; for a path that was validated the status is
    one of 200, 206, 304 and 416.  Nothing is written when the body is
    not asked for, and an exception other than the one of
    [validate_absolute_path] arises only while the body is streamed: the
    [ValueError] of [read] or the failed assertion of the read loop. *)
Theorem get_always_answers q :
  exists r,
    get q = Some r /\
    match validate_absolute_path q with
    | Raise e =>
        r = {| status := status initial; content_type := None;
               content_range := None; content_length := None;
               written := []; raised := Some e |}
    | Ok None => r = initial
    | Ok (Some _) => status r ∈ [200; 206; 304; 416]%Z
    end /\
    (include_body q = false -> written r = []) /\
    (forall e, raised r = Some e ->
       validate_absolute_path q = Raise e \/
       (path_valid q = true /\ include_body q = true /\
        (e = ValueError \/ e = Error "AssertionError"))).
Proof.
  unfold get, path_valid.
  destruct (validate_absolute_path q) as [[abs|]|err].
  3:{ eexists. split; [done|]. split; [done|]. split; [done|].
      intros e [= ->]. by left. }
  2:{ eexists. split; [done|]. split; [done|]. split; done. }
  assert (forall r0 s e,
            status r0 ∈ [200; 206]%Z -> written r0 = [] -> raised r0 = None ->
            exists r, send q r0 s e = Some r /\
              status r ∈ [200; 206; 304; 416]%Z /\
              (include_body q = false -> written r = []) /\
              (forall e0, raised r = Some e0 ->
                 Ok (Some abs) = Raise e0 \/
                 (true = true /\ include_body q = true /\
                  (e0 = ValueError \/ e0 = Error "AssertionError")))) as Hsend.
  { intros r0 s e Hst Hw0 Hr0.
    destruct (send_headers q r0 s e) as (r & -> & Hs & _ & _ & _ & Hw & Hx).
    exists r. split; [done|]. rewrite Hs. split; [|split].
    - revert Hst. rewrite !elem_of_cons. tauto.
    - intros Hb. destruct (Hw Hb) as [-> _]. done.
    - intros e0 He0. right. destruct (Hx e0 Hr0 He0) as [? ?]. done. }
  destruct (not_modified q).
  { eexists. split; [done|]. split; [|split; done]. cbn.
    rewrite !elem_of_cons. tauto. }
  destruct (request_range q) as [[start end_]|].
  - destruct (not_satisfiable _ _ _).
    { eexists. split; [done|]. split; [|split; done]. cbn.
      rewrite !elem_of_cons. tauto. }
    destruct (decide _); apply Hsend; try done; cbn;
      rewrite !elem_of_cons; tauto.
  - apply Hsend; try done. cbn. rewrite !elem_of_cons. tauto.
Qed.

(** X16: a request without a usable [Range] header is answered 200 with
    the size of the file as its length and the file as its body, in
    chunks that are not empty and hold at most 64 KiB each. *)
Theorem no_range_serves_whole_file q :
  path_valid q = true -> not_modified q = false ->
  request_range q = None ->
  exists chunks,
    concat chunks = content q /\
    Forall (fun c => c <> [] /\ (Z.of_nat (length c) <= 65536)%Z) chunks /\
    get q = Some {| status := 200; content_type := None;
                    content_range := None;
                    content_length := Some (Z.of_nat (length (content q)));
                    written := if include_body q then chunks else [];
                    raised := None |}.
Proof.
  intros Hv Hm Hr.
  destruct (get_content_exact (content q) None 0 (Z.of_nat (length (content q))))
    as (chunks & Hrun & Hcat & Hb); [lia|lia|by right|].
  exists chunks. split; [|split; [done|]].
  - rewrite Hcat, Z.sub_0_r, Nat2Z.id, drop_0. apply take_ge. lia.
  - unfold get. unfold path_valid in Hv.
  destruct (validate_absolute_path q) as [[abs|]|err]; try done.
  rewrite Hm, Hr. unfold send.
    rewrite Hrun. by destruct (include_body q).
Qed.

(** X17: a satisfiable range.  With [a] the first byte, once a negative
    start is counted from the end, and [b] the end, capped at the size,
    the response has the length [b - a] and the bytes from [a] up to [b]
    as its body, in chunks that are not empty and hold at most 64 KiB
    each; its status is 200 without a [Content-Range] when these are all
    the bytes of the file, and 206 with the range as [bytes a-(b-1)/size]
    otherwise. *)
Theorem satisfiable_range_served q start end_ :
  path_valid q = true -> not_modified q = false ->
  request_range q = Some (start, end_) ->
  let size := Z.of_nat (length (content q)) in
  let a := default 0%Z (adjust_start size start) in
  let b := match end_ with Some e => Z.min e size | None => size end in
  not_satisfiable size (adjust_start size start) end_ = false ->
  (0 <= b)%Z ->
  exists chunks,
    concat chunks = take (Z.to_nat (b - a)) (drop (Z.to_nat a) (content q)) /\
    Forall (fun c => c <> [] /\ (Z.of_nat (length c) <= 65536)%Z) chunks /\
    get q = Some {| status := if decide (b - a = size)%Z then 200 else 206;
                    content_type := None;
                    content_range :=
                      if decide (b - a = size)%Z then None
                      else Some ("bytes " +:+ str_of_Z a +:+ "-"
                                   +:+ str_of_Z (b - 1) +:+ "/"
                                   +:+ str_of_Z size);
                    content_length := Some (b - a)%Z;
                    written := if include_body q then chunks else [];
                    raised := None |}.
Proof.
  intros Hv Hm Hr size a b Hsat Hb.
  set (st := adjust_start size start) in *.
  assert (st = None \/ exists s, st = Some s /\ (0 <= s)%Z) as Hst.
  { subst st. unfold adjust_start. destruct start as [s|]; [right|by left].
    destruct (s <? 0)%Z eqn:Hneg; (eexists; split; [done|]);
      repeat case_match; lia. }
  assert ((0 <= a <= b)%Z /\ (b <= size)%Z /\ or_else st 0 = a /\
          (st = Some a \/ (st = None /\ a = 0%Z))) as (Hab & Hbs & Hoa & Hsa).
  { subst a b. unfold not_satisfiable in Hsat.
    apply orb_false_elim in Hsat as [Hs1 Hs2].
    destruct Hst as [->|(s & -> & Hs)]; cbn [default id or_else].
    - repeat split; try done; try lia;
        [destruct end_; lia|by right].
    - apply orb_false_elim in Hs1 as [Hs1 Hs3]. apply Z.leb_gt in Hs1.
      assert (forall e, end_ = Some e -> s < e)%Z as He
        by (intros e ->; by apply Z.leb_gt in Hs3).
      repeat split; try lia.
      + destruct end_ as [e|]; [specialize (He e eq_refl)|]; lia.
      + destruct end_; lia.
      + destruct (Z.eqb_spec s 0); lia.
      + by left. }
  set (end2 := match end_ with
               | Some e => Some (if (size <? e)%Z then size else e)
               | None => None end).
  assert (or_else end2 size = b /\ (end2 = None -> b = size) /\
          (forall e, end2 = Some e -> e = b)) as (Hoe & Hnone & Hsome).
  { subst end2 b. destruct end_ as [e|]; [|done]. cbn [or_else].
    split; [|split; [done|]].
    - unfold not_satisfiable in Hsat.
      apply orb_false_elim in Hsat as [_ He].
      repeat case_match; lia.
    - intros e' [= <-]. case_match; lia. }
  destruct (get_content_exact (content q) st a b) as (chunks & Hrun & Hcat & Hbd);
    [done|done|done|].
  exists chunks. split; [done|]. split; [done|].
  unfold get. unfold path_valid in Hv.
  destruct (validate_absolute_path q) as [[abs|]|err]; try done.
  rewrite Hm, Hr. fold size. fold st.
  rewrite Hsat. fold end2. rewrite Hoe, Hoa.
  assert (send q initial st end2 =
          Some {| status := 200; content_type := None; content_range := None;
                  content_length := Some (b - a)%Z;
                  written := if include_body q then chunks else [];
                  raised := None |} /\
          forall cr,
          send q {| status := 206; content_type := None; content_range := cr;
                    content_length := None; written := []; raised := None |}
               st end2 =
          Some {| status := 206; content_type := None; content_range := cr;
                  content_length := Some (b - a)%Z;
                  written := if include_body q then chunks else [];
                  raised := None |}) as [H200 H206].
  { clear Hcat Hbd Hoe Hoa Hab Hbs Hb Hsat Hst. clearbody a b st end2.
    unfold send. fold size.
    destruct Hsa as [->|[-> ->]];
      (destruct end2 as [e|];
         [pose proof (Hsome e eq_refl) as ->
         |pose proof (Hnone eq_refl) as ->]);
      cbn [content_length status content_type content_range written raised
           initial];
      rewrite ?Z.sub_0_r; rewrite Hrun;
      (split; [|intros cr]); by destruct (include_body q). }
  destruct (decide (b - a = size)%Z) as [Heq|Hne].
  - rewrite decide_False by lia. done.
  - rewrite decide_True by lia. unfold _get_content_range.
    rewrite Hoe, Hoa. apply H206.
Qed.

(** X18: for a path that [validate_absolute_path] accepted, a request
    without the body (HEAD) is answered with the status and the three
    headers of the same request with the body, writes nothing and ends
    without an exception. *)
Theorem head_same_headers q :
  path_valid q = true ->
  let q' := {| validate_absolute_path := validate_absolute_path q;
               not_modified := not_modified q;
               request_range := request_range q; content := content q;
               include_body := false |} in
  exists r r',
    get q = Some r /\ get q' = Some r' /\
    status r' = status r /\ content_type r' = content_type r /\
    content_range r' = content_range r /\
    content_length r' = content_length r /\
    written r' = [] /\ raised r' = None.
Proof.
  intros Hv q'. unfold get. subst q'.
  cbn [validate_absolute_path not_modified request_range content include_body].
  unfold path_valid in Hv.
  destruct (validate_absolute_path q) as [[abs|]|err] eqn:Hpath; try done.
  destruct (not_modified q); [by do 2 eexists|].
  assert (forall r0 s e, written r0 = [] -> raised r0 = None ->
    exists r r',
      send q r0 s e = Some r /\
      send {| validate_absolute_path := Ok (Some abs); not_modified := false;
              request_range := request_range q; content := content q;
              include_body := false |} r0 s e = Some r' /\
      status r' = status r /\ content_type r' = content_type r /\
      content_range r' = content_range r /\
      content_length r' = content_length r /\
      written r' = [] /\ raised r' = None) as Hsend.
  { intros r0 s e Hw Hx.
    destruct (send_headers q r0 s e) as (r & -> & Hs & Ht & Hr & Hl & _).
    exists r.
    exists {| status := status r0; content_type := content_type r0;
              content_range := content_range r0;
              content_length := content_length r;
              written := []; raised := None |}.
    split; [done|]. split.
    - unfold send. cbn [include_body content]. rewrite Hl.
      destruct s, e;
        cbn [status content_type content_range content_length written raised];
        by rewrite Hw, Hx.
    - cbn [status content_type content_range content_length written raised].
      by rewrite Hs, Ht, Hr. }
  destruct (request_range q) as [[start end_]|].
  - destruct (not_satisfiable _ _ _); [by do 2 eexists|].
    case_decide; by apply Hsend.
  - by apply Hsend.
Qed.

(** X19: what the access log holds of file requests.  Without the debug
    mode a request is left out of the log exactly when its status is 200,
    204, 206 or 304, and in the debug mode none is; so of the requests for
    a validated path that [get] answers without an exception, those with a
    range that cannot be satisfied are logged, as warnings, and no
    other. *)
Theorem file_requests_in_access_log q :
  (forall code, AccessLog.log_request false code = None <->
                code ∈ [200; 204; 206; 304]%Z) /\
  (forall code, is_Some (AccessLog.log_request true code)) /\
  (path_valid q = true ->
   exists r,
     get q = Some r /\
     (raised r = None ->
      AccessLog.log_request false (status r) =
        if decide (status r = 416%Z) then Some AccessLog.access_warning
        else None)).
Proof.
  split; [|split].
  - intros code. unfold AccessLog.log_request. cbn [negb andb].
    destruct (decide (code ∈ [200; 204; 206; 304]%Z)) as [Hin|Hout].
    + by rewrite bool_decide_eq_true_2.
    + rewrite bool_decide_eq_false_2 by done.
      split; [|done]. by repeat case_match.
  - intros code. unfold AccessLog.log_request. cbn [negb andb].
    repeat case_match; by eexists.
  - intros Hv. unfold get. unfold path_valid in Hv.
    destruct (validate_absolute_path q) as [[abs|]|err]; try done.
    destruct (not_modified q); [eexists; split; [done|]; by intros _|].
    assert (forall r0 s e, status r0 = 200%Z \/ status r0 = 206%Z ->
              exists r, send q r0 s e = Some r /\
                (raised r = None ->
                 AccessLog.log_request false (status r) =
                   if decide (status r = 416%Z)
                   then Some AccessLog.access_warning else None)) as Hsend.
    { intros r0 s e H0.
      destruct (send_headers q r0 s e) as (r & -> & Hs & _).
      exists r. split; [done|]. intros _. rewrite Hs.
      by destruct H0 as [-> | ->]. }
    destruct (request_range q) as [[start end_]|].
    + destruct (not_satisfiable _ _ _); [eexists; split; [done|]; by intros _|].
      case_decide; apply Hsend; [by right|by left].
    + apply Hsend. by left.
Qed.

End FilesMore.

(* ===================================================================== *)
(** * The file handler: deletion and the download header *)
(* ===================================================================== *)

Section FileOpsMore.
Import Py FileOps.
Context `{DeleteEnv}.

Lemma lstrip_app c pre s :
  lstrip c pre = "" -> lstrip c s = s -> lstrip c (pre +:+ s) = s.
Proof.
  intros Hpre Hs. induction pre as [|x pre IH]; [done|].
  simpl in Hpre. destruct (decide (x = c)) as [->|Hne]; [|done].
  change (String c pre +:+ s) with (String c (pre +:+ s)). simpl.
  rewrite decide_True by done. by apply IH.
Qed.

Lemma lstrip_no_sep c a s :
  a <> "" -> has_char c a = false -> lstrip c (a +:+ s) = a +:+ s.
Proof.
  destruct a as [|x a]; [done|]. intros _ [Hx _]%orb_false_elim.
  apply bool_decide_eq_false in Hx.
  change (String x a +:+ s) with (String x (a +:+ s)). simpl.
  by rewrite decide_False.
Qed.

Lemma split_max_cons sep n a s :
  has_char sep a = false ->
  split_max sep (S n) (a +:+ String sep s) = a :: split_max sep n s.
Proof.
  induction a as [|x a IH]; intros Ha.
  - change ("" +:+ String sep s) with (String sep s). simpl.
    by rewrite decide_True.
  - simpl in Ha. apply orb_false_elim in Ha as [Hx Ha].
    apply bool_decide_eq_false in Hx.
    change (String x a +:+ String sep s) with (String x (a +:+ String sep s)).
    cbn [split_max]. rewrite decide_False by done. by rewrite IH.
Qed.

Lemma split_max_no_sep sep n a :
  has_char sep a = false -> split_max sep n a = [a].
Proof.
  induction a as [|x a IH]; intros Ha; [by destruct n|].
  simpl in Ha. apply orb_false_elim in Ha as [Hx Ha].
  apply bool_decide_eq_false in Hx. destruct n as [|n]; [done|].
  cbn [split_max]. rewrite decide_False by done. by rewrite IH.
Qed.

Lemma rsplit1_None_no_sep sep s : rsplit1 sep s = None -> has_char sep s = false.
Proof.
  induction s as [|c s IH]; [done|]. simpl.
  destruct (rsplit1 sep s) as [[a b]|]; [done|].
  destruct (decide (c = sep)) as [->|Hne]; [done|]. intros _.
  rewrite IH by done. rewrite orb_false_r. by apply bool_decide_eq_false.
Qed.

Lemma basename_no_slash p : has_char "/" (basename p) = false.
Proof.
  unfold basename. destruct (rsplit1 "/" p) as [[a b]|] eqn:Hr.
  - apply rsplit1_Some in Hr as [_ Hb]. by apply rsplit1_None_no_sep.
  - by apply rsplit1_None_no_sep.
Qed.

Lemma is_ascii_app a b : is_ascii (a +:+ b) = is_ascii a && is_ascii b.
Proof.
  induction a as [|x a IH]; [done|].
  change (String x a +:+ b) with (String x (a +:+ b)). simpl.
  by rewrite IH, andb_assoc.
Qed.

Lemma escape_is_ascii s : is_ascii (_escape_filename_to_ascii s) = true.
Proof.
  induction s as [|c s IH]; [done|]. cbn [_escape_filename_to_ascii].
  destruct (N_of_ascii c <? 128)%N eqn:Hc; [by simpl; rewrite Hc|].
  by destruct (N_of_ascii c <? 192)%N.
Qed.

Lemma escape_ascii_id s :
  is_ascii s = true -> _escape_filename_to_ascii s = s.
Proof.
  induction s as [|c s IH]; [done|]. simpl.
  intros [Hc Hs]%andb_prop. by rewrite Hc, IH.
Qed.

Lemma escape_no_char c s :
  c <> "?"%char -> has_char c s = false ->
  has_char c (_escape_filename_to_ascii s) = false.
Proof.
  intros Hq. induction s as [|x s IH]; [done|]. simpl.
  intros [Hx Hs]%orb_false_elim.
  destruct (N_of_ascii x <? 128)%N; [by simpl; rewrite Hx, IH|].
  destruct (N_of_ascii x <? 192)%N; [by apply IH|].
  simpl. rewrite IH by done. rewrite orb_false_r.
  apply bool_decide_eq_false. congruence.
Qed.

Lemma escape_length s :
  String.length (_escape_filename_to_ascii s) <= String.length s.
Proof.
  induction s as [|x s IH]; [done|]. simpl.
  destruct (N_of_ascii x <? 128)%N; [simpl; lia|].
  destruct (N_of_ascii x <? 192)%N; simpl; lia.
Qed.

(** X20: the file a DELETE request names.  For a request path of at least
    three segments, whatever the slashes it starts with, the file manager
    is asked to delete the unescaped text after the second segment,
    further slashes included; the files are left as the file manager
    leaves them; its file name is returned under [result]; an error of
    the server it raises becomes an HTTP error with the same status code,
    whose message is replaced for the code 403 only; any other exception
    is raised as it is.  A path of fewer segments names its last one. *)
Theorem delete_names_the_rest slashes a b rest fs :
  lstrip "/" slashes = "" -> a <> "" ->
  has_char "/" a = false -> has_char "/" b = false ->
  let inner := delete_file (url_unescape rest) fs in
  delete_target (slashes +:+ a +:+ "/" +:+ b +:+ "/" +:+ rest) = rest /\
  delete_target (slashes +:+ a +:+ "/" +:+ b) = b /\
  delete_target (slashes +:+ a) = a /\
  delete (slashes +:+ a +:+ "/" +:+ b +:+ "/" +:+ rest) fs =
    (inner.1,
     match inner.2 with
     | Ok filename => Ok (VDict [("result", VStr filename)])
     | Raise (ServerError msg code) =>
         Raise (HTTPError code
                  (Some (if decide (code = 403%Z)
                         then "File is loaded, DELETE not permitted"
                         else msg)))
     | Raise e => Raise e
     end).
Proof.
  intros Hpre Hne Ha Hb inner.
  assert (delete_target (slashes +:+ a +:+ "/" +:+ b +:+ "/" +:+ rest) = rest)
    as Htarget.
  { unfold delete_target.
    rewrite lstrip_app by (try done; by apply lstrip_no_sep).
    change (a +:+ "/" +:+ b +:+ "/" +:+ rest)
      with (a +:+ String "/" (b +:+ String "/" rest)).
    rewrite !split_max_cons by done. by destruct rest. }
  split; [done|]. split; [|split].
  - unfold delete_target.
    rewrite lstrip_app by (try done; by apply lstrip_no_sep).
    change (a +:+ "/" +:+ b) with (a +:+ String "/" b).
    rewrite split_max_cons by done. by rewrite split_max_no_sep.
  - unfold delete_target.
    rewrite <- (append_empty_r a) at 1.
    rewrite lstrip_app by (try done; by apply lstrip_no_sep).
    rewrite append_empty_r. by rewrite split_max_no_sep.
  - unfold delete. rewrite Htarget. subst inner.
    destruct (delete_file (url_unescape rest) fs) as [fs' [name|e]]; [done|].
    destruct e as [msg code|c l| | | | | | |n]; try done.
    cbn [fst snd]. by destruct (decide (code = 403%Z)) as [->|].
Qed.

(** X21: the [Content-Disposition] header of a download.  Its plain
    [filename] is made of the base name of the path, holds ASCII only and
    no slash, is never longer than the base name and is the base name
    itself when the path is ASCII; its [filename*] is the quoted base
    name. *)
Theorem content_disposition_header quote p :
  exists name,
    set_extra_headers quote p =
      "attachment; filename=" +:+ name +:+ "; filename*=UTF-8''"
        +:+ quote (basename p) /\
    is_ascii name = true /\
    has_char "/" name = false /\
    String.length name <= String.length (basename p) /\
    has_char "/" (basename p) = false /\
    (is_ascii p = true -> name = basename p).
Proof.
  exists (_escape_filename_to_ascii (basename p)).
  split; [done|]. split; [apply escape_is_ascii|].
  split; [apply escape_no_char; [done|apply basename_no_slash]|].
  split; [apply escape_length|]. split; [apply basename_no_slash|].
  intros Hp. apply escape_ascii_id. unfold basename.
  destruct (rsplit1 "/" p) as [[a b]|] eqn:Hr; [|done].
  apply rsplit1_Some in Hr as [-> _].
  rewrite is_ascii_app in Hp. apply andb_prop in Hp as [_ Hp].
  by simpl in Hp.
Qed.

End FileOpsMore.

(* ===================================================================== *)
(** * The redirect handler *)
(* ===================================================================== *)

Section RedirectMore.
Import Py Redirect.
Context `{Builtins}.

(** X22: where a redirect takes its target.  A [url] query argument is the
    target whatever the body holds.  Without it the handler returns a
    target exactly when the body is a JSON object with an entry [url]
    that is not [null], and the target is that entry; a body that is
    malformed JSON and an object without the entry are refused with 400. *)
Theorem redirect_url_source body :
  (forall u, get (Some u) body = Ok (VStr u)) /\
  (forall v,
     get None body = Ok v <->
     exists kvs, json_loads body = Ok (VDict kvs) /\
                 dict_get "url" kvs = Some v /\ v <> VNone) /\
  (json_loads body = Raise JSONDecodeError \/
   (exists kvs, json_loads body = Ok (VDict kvs) /\ dict_get "url" kvs = None) ->
   get None body = Raise (HTTPError 400 (Some "No url argument provided"))).
Proof.
  split; [done|]. split.
  - intros v. unfold get, bind. split.
    + destruct (json_loads body) as [x|e].
      * destruct x as [| | | |s|l|kvs]; try done.
        -- simpl. by destruct (negb (infix "url" s)).
        -- simpl. by destruct (negb (existsb _ l)).
        -- simpl. destruct (dict_get "url" kvs) as [u|] eqn:Hu.
           ++ rewrite bool_decide_eq_true_2 by by eapply dict_get_Some_keys.
              simpl. intros Hv. exists kvs. split; [done|].
              destruct u; try done; injection Hv as <-; done.
           ++ apply dict_get_None_keys in Hu.
              by rewrite bool_decide_eq_false_2.
      * by destruct e.
    + intros (kvs & -> & Hu & Hv). simpl.
      rewrite bool_decide_eq_true_2 by by eapply dict_get_Some_keys.
      simpl. rewrite Hu. simpl. by destruct v.
  - unfold get, bind. intros [->|(kvs & -> & Hu)]; [done|]. simpl.
    apply dict_get_None_keys in Hu. by rewrite bool_decide_eq_false_2.
Qed.

End RedirectMore.

(* ===================================================================== *)
(** * The metadata extractor *)
(* ===================================================================== *)

Section MetadataMore.
Import Py Metadata.
Context `{Builtins}.

Lemma read_windows_footer read_size (file : list ascii) :
  (0 < read_size)%Z ->
  let size := Z.of_nat (length file) in
  read_windows read_size file =
    (take (Z.to_nat read_size) file,
     if decide (size = read_size * 2)%Z then file
     else drop (Z.to_nat (size - read_size)) file).
Proof.
  intros Hpos size. unfold read_windows. fold size. f_equal.
  destruct (Z.ltb_spec (read_size * 2) size) as [Hbig|Hbig].
  { by rewrite decide_False by lia. }
  destruct (Z.ltb_spec read_size size) as [Hmid|Hsmall].
  - unfold slice_from. rewrite length_take.
    destruct (Z.ltb_spec (size - read_size - read_size) 0) as [Hneg|Hzero].
    + rewrite decide_False by lia.
      replace (Z.to_nat (Z.max 0 (Z.of_nat (Z.to_nat read_size `min` length file)
                 + (size - read_size - read_size))))
        with (Z.to_nat (size - read_size)) by (subst size; lia).
      rewrite <- (take_drop (Z.to_nat read_size) file) at 3.
      rewrite drop_app_le; [done|]. rewrite length_take. subst size. lia.
    + rewrite decide_True by lia.
      replace (Z.to_nat (size - read_size - read_size)) with 0 by lia.
      rewrite drop_0. apply take_drop.
  - rewrite decide_False by lia.
    replace (Z.to_nat (size - read_size)) with 0 by lia. rewrite drop_0.
    apply take_ge. subst size. lia.
Qed.

(** X23: what [extract_metadata] reads of a file.  The header is its first
    [READ_SIZE] characters.  The footer is its last [READ_SIZE]
    characters, the whole file when it is shorter, with one exception: a
    file of exactly twice [READ_SIZE] characters has the whole file as its
    footer. *)
Theorem footer_window (file : list ascii) :
  let size := Z.of_nat (length file) in
  extract_windows file =
    (take (Z.to_nat READ_SIZE) file,
     if decide (size = READ_SIZE * 2)%Z then file
     else drop (Z.to_nat (size - READ_SIZE)) file).
Proof.
  unfold extract_windows. apply read_windows_footer. by unfold READ_SIZE.
Qed.

(** X24: the first layer temperature of a heater is the number at the
    position, among the setpoints, of the first occurrence of the heater
    among the names; there is none when the heater is not named, when the
    setpoints are fewer, or when the text at that position is not a
    number, even if the heater is named again later. *)
Theorem first_layer_temp_first_match heater names setpoints :
  _get_first_layer_temp heater names setpoints =
    match list_find (fun h => h = heater) (_get_temp_items names) with
    | Some (i, _) =>
        match _get_temp_items setpoints !! i with
        | Some temp => py_float temp
        | None => None
        end
    | None => None
    end.
Proof.
  unfold _get_first_layer_temp.
  generalize (_get_temp_items setpoints) as temps.
  induction (_get_temp_items names) as [|h heaters IH]; intros temps; [done|].
  cbn [first_layer_temp list_find]. destruct temps as [|temp temps].
  - destruct (decide (h = heater)); [done|].
    destruct (list_find _ heaters) as [[i x]|]; done.
  - destruct (decide (h = heater)); [done|]. rewrite IH.
    destruct (list_find _ heaters) as [[i x]|]; done.
Qed.

End MetadataMore.

(* ===================================================================== *)
(** * The further properties on concrete inputs *)
(* ===================================================================== *)

Section MoreWorked.
Import Py Examples MoreExamples.

#[local] Existing Instance Examples.builtins.
#[local] Existing Instance Examples.recording.
#[local] Existing Instance Examples.regex.
#[local] Existing Instance Examples.server_error.
#[local] Existing Instance MoreExamples.files_env.

(** ** The route table *)

Lemma one_rule_reachable : Router.reachable one_rule.
Proof. unfold one_rule. apply Router.reach_add, Router.reach_init. Qed.

Lemma remove_handler_drops_only_the_pattern_witness :
  Router.reachable one_rule /\
  Router.has_rule "/server/info" (Router.remove_handler "/server/info" one_rule)
    = false.
Proof.
  split; [exact one_rule_reachable|].
  exact (proj1 (remove_handler_drops_only_the_pattern
                  "/server/info" one_rule one_rule_reachable)).
Defined.

Lemma add_handler_appends_witness :
  Router.reachable one_rule /\
  Router.pattern_error "/server/info" = None /\
  Router.rules (Router.add_handler "/server/info" "again" None one_rule).1 =
    filter (fun y => Router.pattern y <> "/server/info") (Router.rules one_rule)
      ++ [Router.added_rule "/server/info" "again" None one_rule].
Proof.
  split; [exact one_rule_reachable|]. split; [reflexivity|].
  exact (proj1 (proj2 (proj1 (add_handler_appends "/server/info" "again" None
                                one_rule one_rule_reachable) eq_refl))).
Defined.

Lemma add_then_remove_handler_witness :
  Router.reachable one_rule /\
  Router.rules (Router.remove_handler "/other"
                  (Router.add_handler "/other" "x" None one_rule).1) =
    Router.rules (Router.remove_handler "/other" one_rule).
Proof.
  split; [exact one_rule_reachable|].
  exact (proj1 (proj2 (add_then_remove_handler "/other" "x" None one_rule
                         one_rule_reachable))).
Defined.

Lemma reachable_router_agrees_witness :
  Router.reachable one_rule /\ Router.router_log one_rule = [] /\
  NoDup (Router.rules one_rule).
Proof.
  split; [exact one_rule_reachable|].
  pose proof (reachable_router_agrees one_rule one_rule_reachable)
    as (Hlog & _ & _ & Hnd).
  split; [exact Hlog|exact Hnd].
Defined.

(** ** The application *)

Lemma started_reachable : AppExt.reachable 400 started.
Proof.
  apply AppExt.reach_init
    with (wsm := {| handlers := []; remove_fails := false |})
         (logfile := Some "/tmp/moonraker.log").
  reflexivity.
Qed.

Lemma started_with_info_reachable : AppExt.reachable 400 started_with_info.
Proof. apply AppExt.reach_remote, started_reachable. Qed.

Lemma local_definition_method_names_witness :
  App.api_cache started !! "machine/reboot" = None /\
  "machine/reboot" <> "" /\
  exists d,
    App._create_api_definition 400 "machine/reboot" ["POST"] (Some "cb")
      App.ALL_TRANSPORTS started
    = (App.with_cache (<["machine/reboot" := d]> (App.api_cache started))
         started, Ok d) /\
    App.request_methods d = ["POST"].
Proof.
  split; [reflexivity|]. split; [discriminate|].
  destruct (proj2 (local_definition_method_names 400 "machine/reboot" ["POST"]
                     "cb" App.ALL_TRANSPORTS started eq_refl
                     ltac:(discriminate)) ltac:(discriminate))
    as (d & Hd & Hm & _).
  exists d. split; [exact Hd|exact Hm].
Defined.

Lemma reachable_app_invariant_witness :
  AppExt.reachable 400 started_with_info /\ AppExt.invariant started_with_info.
Proof.
  split; [exact started_with_info_reachable|].
  exact (reachable_app_invariant 400 started_with_info
           started_with_info_reachable).
Defined.

Lemma register_remote_handler_idempotent_witness :
  ("info" <> "" \/ is_Some (App.api_cache started !! "info")) /\
  (App.register_remote_handler 400 "info"
     (App.register_remote_handler 400 "info" started).1).1 =
    (App.register_remote_handler 400 "info" started).1.
Proof.
  assert ("info" <> "" \/ is_Some (App.api_cache started !! "info")) as Hep
    by (left; discriminate).
  split; [exact Hep|].
  exact (proj1 (register_remote_handler_idempotent 400 "info" started Hep)).
Defined.

Lemma removed_endpoint_stays_unrouted_witness :
  AppExt.reachable 400 started_with_info /\
  (exists d, App.api_cache started_with_info !! "info" = Some d) /\
  App.registered_base_handlers (App.remove_handler "info" started_with_info).1 =
    App.registered_base_handlers started_with_info.
Proof.
  split; [exact started_with_info_reachable|].
  split; [eexists; reflexivity|].
  refine (proj1 (removed_endpoint_stays_unrouted 400 "info" _ started_with_info
                   started_with_info_reachable _)).
  reflexivity.
Defined.

(** A remote endpoint whose uri is not a regular expression: registering
    it raises and leaves its definition in the registry, and registering
    it again after its removal raises again. *)
Lemma malformed_endpoint_never_routed :
  let app := (App.register_remote_handler 400 "a(" started).1 in
  (App.register_remote_handler 400 "a(" started).2 = Some (Error "re.error") /\
  is_Some (App.api_cache app !! "a(") /\
  App.registered_base_handlers app = App.registered_base_handlers started /\
  (App.register_remote_handler 400 "a(" (App.remove_handler "a(" app).1).2
    = Some (Error "re.error").
Proof.
  split; [reflexivity|]. split; [eexists; reflexivity|].
  split; reflexivity.
Qed.

Lemma info_not_reserved : "info" ∉ App.RESERVED_ENDPOINTS.
Proof.
  unfold App.RESERVED_ENDPOINTS. rewrite !not_elem_of_cons.
  repeat split; try discriminate. apply not_elem_of_nil.
Qed.

Lemma started_router_reachable : Router.reachable (App.mutable_router started).
Proof. exact (proj1 (reachable_invariant 400 started started_reachable)). Qed.

Lemma register_new_remote_endpoint_witness :
  ("info" ∉ App.RESERVED_ENDPOINTS) /\
  startswith "info" "/" = false /\
  App.api_cache started !! "info" = None /\
  (("/printer/" +:+ "info") ∉ App.registered_base_handlers started) /\
  Router.reachable (App.mutable_router started) /\
  exists d,
    App.api_cache (App.register_remote_handler 400 "info" started).1 =
      <["info" := d]> (App.api_cache started) /\
    App.uri d = "/printer/" +:+ "info".
Proof.
  assert (("/printer/" +:+ "info") ∉ App.registered_base_handlers started)
    as Hnew by apply not_elem_of_nil.
  split; [exact info_not_reserved|]. split; [reflexivity|].
  split; [reflexivity|]. split; [exact Hnew|].
  split; [exact started_router_reachable|].
  destruct (register_new_remote_endpoint 400 "info" started info_not_reserved
              ltac:(discriminate) eq_refl eq_refl Hnew started_router_reachable)
    as (d & Hc & _ & Hu & _).
  exists d. split; [exact Hc|exact Hu].
Defined.

Lemma static_pattern_shape_witness :
  "klippy.log" <> "" /\
  AppExt.static_pattern "klippy.log" false false true =
    Ok (Some ("/server/files/" +:+ "klippy.log" +:+ "()")).
Proof.
  split; [discriminate|].
  exact (proj1 (proj2 (static_pattern_shape "klippy.log" "/tmp/klippy.log"
                         false false true started ltac:(discriminate)))
           eq_refl).
Defined.

(** ** Argument parsing *)

Lemma parse_args_precedence_witness :
  Request.body_mapping three_sources = Some [("token", VStr "x")] /\
  Dispatch._parse_query_raises three_sources = false /\
  exists args,
    Dispatch.parse_args three_sources = Ok args /\
    dict_get "name" args = Some (VStr "p") /\
    dict_get "token" args = Some (VStr "x").
Proof.
  assert (Request.body_mapping three_sources = Some [("token", VStr "x")])
    as Hbody by reflexivity.
  split; [exact Hbody|]. split; [reflexivity|].
  destruct (proj2 (proj2 (parse_args_precedence three_sources
                            [("token", VStr "x")] Hbody)) eq_refl)
    as (args & Hargs & Hget).
  exists args. split; [exact Hargs|].
  split; [exact (Hget "name")|exact (Hget "token")].
Defined.

Lemma not_a_hint : "str" ∉ ["int"; "float"; "bool"; "json"].
Proof.
  rewrite !not_elem_of_cons. repeat split; try discriminate.
  apply not_elem_of_nil.
Qed.

Lemma default_parser_unknown_hint_witness :
  Dispatch.arguments (Dispatch.request odd_hint)
    = [] ++ ("a:b" +:+ ":" +:+ "str", "v") :: [] /\
  has_char ":" "str" = false /\
  ("str" ∉ ["int"; "float"; "bool"; "json"]) /\
  dict_get "a:b" (Dispatch._default_parser odd_hint) = Some (VStr "v").
Proof.
  split; [reflexivity|]. split; [reflexivity|]. split; [exact not_a_hint|].
  exact (default_parser_unknown_hint odd_hint [] [] "a:b" "str" "v"
           eq_refl eq_refl not_a_hint (Forall_nil_2 _)).
Defined.

(** ** Byte ranges *)

Lemma no_range_serves_whole_file_witness :
  Files.request_range unranged = None /\
  exists chunks,
    concat chunks = hi /\
    Files.get unranged =
      Some {| Files.status := 200; Files.content_type := None;
              Files.content_range := None;
              Files.content_length := Some 2%Z;
              Files.written := chunks; Files.raised := None |}.
Proof.
  split; [reflexivity|].
  destruct (no_range_serves_whole_file unranged eq_refl eq_refl eq_refl)
    as (chunks & Hcat & _ & Hget).
  exists chunks. split; [exact Hcat|exact Hget].
Defined.

Lemma satisfiable_range_served_witness :
  Files.request_range hi_from_1 = Some (Some 1%Z, None) /\
  Files.not_satisfiable 2 (Files.adjust_start 2 (Some 1%Z)) None = false /\
  exists chunks,
    concat chunks = [Byte.x69] /\
    Files.get hi_from_1 =
      Some {| Files.status := 206; Files.content_type := None;
              Files.content_range := Some "bytes 1-1/2";
              Files.content_length := Some 1%Z;
              Files.written := chunks; Files.raised := None |}.
Proof.
  split; [reflexivity|]. split; [reflexivity|].
  destruct (satisfiable_range_served hi_from_1 (Some 1%Z) None
              eq_refl eq_refl eq_refl eq_refl ltac:(discriminate))
    as (chunks & Hcat & _ & Hget).
  exists chunks. split; [exact Hcat|exact Hget].
Defined.

Lemma head_same_headers_witness :
  Files.path_valid unranged = true /\
  exists r r',
    Files.get unranged = Some r /\
    Files.get {| Files.validate_absolute_path :=
                   Files.validate_absolute_path unranged;
                 Files.not_modified := Files.not_modified unranged;
                 Files.request_range := Files.request_range unranged;
                 Files.content := Files.content unranged;
                 Files.include_body := false |} = Some r' /\
    Files.status r' = Files.status r /\
    Files.content_type r' = Files.content_type r /\
    Files.content_range r' = Files.content_range r /\
    Files.content_length r' = Files.content_length r /\
    Files.written r' = [] /\ Files.raised r' = None.
Proof.
  split; [reflexivity|]. exact (head_same_headers unranged eq_refl).
Defined.

(** ** Uploads *)

Lemma form_args_fields_witness :
  Upload.form_args_of upload_match =
    Ok [("root", VStr "gcodes"); ("filename", VStr "part.gcode");
        ("tmp_file_path", VStr tmp_path)] /\
  dict_get "checksum"
    [("root", VStr "gcodes"); ("filename", VStr "part.gcode");
     ("tmp_file_path", VStr tmp_path)] = None.
Proof.
  assert (Upload.form_args_of upload_match =
            Ok [("root", VStr "gcodes"); ("filename", VStr "part.gcode");
                ("tmp_file_path", VStr tmp_path)]) as Hargs by reflexivity.
  split; [exact Hargs|].
  destruct (form_args_fields upload_match _ Hargs) as (_ & _ & _ & _ & _ & Hc & _).
  exact Hc.
Defined.

(** ** Deletion *)

Lemma delete_names_the_rest_witness :
  FileOps.lstrip "/" "/" = "" /\
  has_char "/" "server" = false /\ has_char "/" "files" = false /\
  FileOps.delete_target
    ("/" +:+ "server" +:+ "/" +:+ "files" +:+ "/" +:+ "gcodes/a.gcode")
    = "gcodes/a.gcode".
Proof.
  split; [reflexivity|]. split; [reflexivity|]. split; [reflexivity|].
  exact (proj1 (delete_names_the_rest "/" "server" "files" "gcodes/a.gcode" ∅
                  eq_refl ltac:(discriminate) eq_refl eq_refl)).
Defined.

End MoreWorked.
